(** * yt-live-recorder: recording supervisor, reconnect loop, channel monitor,
      retry executor and filename helpers, embedded from the Python sources.

    Conventions of the embedding.
    - A Python [str] is a [string] (a sequence of 8-bit characters).
    - A Python [int] is a [Z].  A Python [float] is a binary64 number, an
      infinity or a NaN; a finite one is written as the rational it denotes,
      and the way the platform rounds is an explicit argument.
    - Everything the code obtains from outside (the clock, the disk, the
      capture process, the callbacks handed to it, the random generator) is an
      explicit argument of the function that consumes it.
    - A raised exception is the left injection of a sum. *)

From stdpp Require Import gmap strings list fin_maps pretty.
From Stdlib Require Import ZArith QArith Qminmax Qpower Qabs Qround String Ascii List
  Bool Lia Lqa.
Import ListNotations.

Local Open Scope string_scope.
Local Open Scope list_scope.

(* ===================================================================== *)
(** ** src/utils.py                                                        *)
(* ===================================================================== *)
Module Utils.

(** The double-quote character (code 34), one of the nine characters of the
    class that [sanitize_filename] replaces. *)
Definition dquote : ascii := ascii_of_nat 34.

(** Membership in the character class of [sanitize_filename]: less-than,
    greater-than, colon, double quote, slash, backslash, bar, question mark
    and star. *)
Definition reserved (c : ascii) : bool :=
  (c =? "<")%char || (c =? ">")%char || (c =? ":")%char || (c =? dquote)%char
  || (c =? "/")%char || (c =? "\")%char || (c =? "|")%char || (c =? "?")%char
  || (c =? "*")%char.

(** [re.sub] of every character of that class by an underscore. *)
Fixpoint re_sub_reserved (name : string) : string :=
  match name with
  | EmptyString => EmptyString
  | String c rest =>
      String (if reserved c then "_"%char else c) (re_sub_reserved rest)
  end.

(** The character set [' .'] given to [str.strip]. *)
Definition strip_set (c : ascii) : bool := (c =? " ")%char || (c =? ".")%char.

Fixpoint lstrip (s : string) : string :=
  match s with
  | EmptyString => EmptyString
  | String c rest => if strip_set c then lstrip rest else s
  end.

Fixpoint rstrip (s : string) : string :=
  match s with
  | EmptyString => EmptyString
  | String c rest =>
      match rstrip rest with
      | EmptyString => if strip_set c then EmptyString else String c EmptyString
      | kept => String c kept
      end
  end.

(** [s.strip(' .')]. *)
Definition strip (s : string) : string := rstrip (lstrip s).

(** [sanitize_filename(name)]. *)
Definition sanitize_filename (name : string) : string :=
  let sanitized := re_sub_reserved name in
  let sanitized := strip sanitized in
  let sanitized :=
    if (100 <? String.length sanitized)%nat
    then substring 0 100 sanitized
    else sanitized in
  match sanitized with
  | EmptyString => "unknown"
  | _ => sanitized
  end.

(** A [datetime] value: the six fields [strftime] prints here.  Python keeps
    them within [1..9999], [1..12], [1..31], [0..23], [0..59], [0..59]. *)
Record datetime : Type := mk_datetime {
  year : nat; month : nat; day : nat;
  hour : nat; minute : nat; second : nat
}.

Definition digit (n : nat) : ascii := ascii_of_nat (48 + n mod 10).

(** Zero-padded decimal rendering on two and four columns ([%m], [%d],
    [%H], [%M], [%S] and [%Y]); exact for the field ranges of [datetime]. *)
Definition pad2 (n : nat) : string :=
  String (digit (n / 10)) (String (digit n) EmptyString).

Definition pad4 (n : nat) : string :=
  String (digit (n / 1000)) (String (digit (n / 100)) (pad2 n)).

(** [d.strftime('%Y%m%d_%H%M%S')]. *)
Definition strftime (d : datetime) : string :=
  pad4 (year d) +:+ pad2 (month d) +:+ pad2 (day d) +:+ "_"
  +:+ pad2 (hour d) +:+ pad2 (minute d) +:+ pad2 (second d).

(** [generate_filename(channel_name, extension)], with [datetime.now()]
    passed in as [now]. *)
Definition generate_filename (now : datetime) (channel_name extension : string)
  : string :=
  let timestamp := strftime now in
  let safe_name := sanitize_filename channel_name in
  safe_name +:+ "_" +:+ timestamp +:+ "." +:+ extension.

(** *** Vocabulary of the filename properties *)

Fixpoint has_reserved (s : string) : bool :=
  match s with
  | EmptyString => false
  | String c rest => reserved c || has_reserved rest
  end.

Definition is_digit (c : ascii) : bool :=
  (48 <=? nat_of_ascii c)%nat && (nat_of_ascii c <=? 57)%nat.

Fixpoint all_digits (s : string) : bool :=
  match s with
  | EmptyString => true
  | String c rest => is_digit c && all_digits rest
  end.

(** The shape [YYYYMMDD_HHMMSS]: eight digits, an underscore, six digits. *)
Definition is_timestamp (s : string) : bool :=
  (String.length s =? 15)%nat
  && all_digits (substring 0 8 s)
  && (substring 8 1 s =? "_")%string
  && all_digits (substring 9 6 s).

(** The number that a string of decimal digits writes. *)
Fixpoint decimal_from (acc : nat) (s : string) : nat :=
  match s with
  | EmptyString => acc
  | String c rest => decimal_from (10 * acc + (nat_of_ascii c - 48)) rest
  end.

Definition decimal (s : string) : nat := decimal_from 0 s.

(** The field ranges of a [datetime]. *)
Definition in_range (d : datetime) : bool :=
  (1 <=? year d)%nat && (Z.of_nat (year d) <=? 9999)%Z
  && (1 <=? month d)%nat && (month d <=? 12)%nat
  && (1 <=? day d)%nat && (day d <=? 31)%nat
  && (hour d <=? 23)%nat && (minute d <=? 59)%nat && (second d <=? 59)%nat.

(** [f"{x:02d}"]: the decimal digits of [x], with a zero in front when there
    is one digit only. *)
Definition fmt02 (x : Z) : string :=
  if (0 <=? x)%Z && (x <? 10)%Z then "0" +:+ pretty x else pretty x.

(** [format_duration(seconds)]; [//] and [%] round towards minus infinity, as
    [Z.div] and [Z.modulo] do. *)
Definition format_duration (seconds : Z) : string :=
  let hours := (seconds / 3600)%Z in
  let minutes := ((seconds mod 3600) / 60)%Z in
  let secs := (seconds mod 60)%Z in
  if (0 <? hours)%Z
  then pretty hours +:+ ":" +:+ fmt02 minutes +:+ ":" +:+ fmt02 secs
  else pretty minutes +:+ ":" +:+ fmt02 secs.

End Utils.

(* ===================================================================== *)
(** ** Python exceptions                                                   *)
(* ===================================================================== *)
Module Py.

(** The exception classes the sources raise, catch or list as retryable,
    and those that the interpreter raises in the expressions modelled:
    [OverflowError] and [ZeroDivisionError] in a power of floats,
    [AttributeError] in a method call on a value that lacks the method. *)
Inductive exn_class : Type :=
| BaseException | KeyboardInterrupt | Exception
| OSError | ConnectionError | TimeoutError | FileNotFoundError
| ValueError | JSONDecodeError
| SubprocessError | TimeoutExpired
| ArithmeticError | OverflowError | ZeroDivisionError
| AttributeError
| YouTubeError | NotLiveError | StreamUnavailableError
| InvalidURLError | ChannelNotFoundError
| RecordingError | RetryExhaustedError.

#[global] Instance exn_class_eq_dec : EqDecision exn_class.
Proof. solve_decision. Defined.

(** The base class in each [class C(B)] declaration. *)
Definition base (c : exn_class) : option exn_class :=
  match c with
  | BaseException => None
  | KeyboardInterrupt | Exception => Some BaseException
  | OSError | ValueError | SubprocessError | ArithmeticError | AttributeError
  | YouTubeError | RecordingError | RetryExhaustedError => Some Exception
  | OverflowError | ZeroDivisionError => Some ArithmeticError
  | ConnectionError | TimeoutError | FileNotFoundError => Some OSError
  | JSONDecodeError => Some ValueError
  | TimeoutExpired => Some SubprocessError
  | NotLiveError | StreamUnavailableError
  | InvalidURLError | ChannelNotFoundError => Some YouTubeError
  end.

Fixpoint inherits (depth : nat) (c d : exn_class) : bool :=
  bool_decide (c = d)
  || match depth, base c with
     | S depth', Some b => inherits depth' b d
     | _, _ => false
     end.

(** [issubclass(c, d)]; no chain of bases is longer than three. *)
Definition issubclass (c d : exn_class) : bool := inherits 3 c d.

(** An exception object: its class, [str(e)], and the [last_exception]
    attribute that [RetryExhaustedError] adds. *)
#[warnings="-register-all"] Inductive exn : Type := mk_exn {
  exn_cls : exn_class;
  exn_msg : string;
  last_exception : option exn
}.

(** [except classes as e] matches. *)
Definition isinstance (e : exn) (classes : list exn_class) : bool :=
  existsb (issubclass (exn_cls e)) classes.

(** The result of a call that may raise. *)
Definition result (A : Type) : Type := (exn + A)%type.

(** [c.isspace()] for a character below 256: tab, line feed, vertical tab,
    form feed, carriage return, the four separators 28 to 31, space, and
    the code points 133 and 160. *)
Definition isspace (c : ascii) : bool :=
  let n := nat_of_ascii c in
  ((9 <=? n)%nat && (n <=? 13)%nat) || ((28 <=? n)%nat && (n <=? 32)%nat)
  || (n =? 133)%nat || (n =? 160)%nat.

Fixpoint lstrip_space (s : string) : string :=
  match s with
  | EmptyString => EmptyString
  | String c rest => if isspace c then lstrip_space rest else s
  end.

Fixpoint rstrip_space (s : string) : string :=
  match s with
  | EmptyString => EmptyString
  | String c rest =>
      match rstrip_space rest with
      | EmptyString => if isspace c then EmptyString else String c EmptyString
      | kept => String c kept
      end
  end.

(** [s.strip()]. *)
Definition str_strip (s : string) : string := rstrip_space (lstrip_space s).

(** [str(x)] for an optional exception: its message, or the text None. *)
Definition str_opt_exn (e : option exn) : string :=
  match e with
  | Some e => exn_msg e
  | None => "None"
  end.

End Py.

(* ===================================================================== *)
(** ** Python floats                                                       *)
(* ===================================================================== *)
Module Float.
Import Py.

(** A Python [float]: a finite binary64 number, written as the rational it
    denotes, an infinity, or a NaN.  The two zeros are not told apart. *)
Inductive float : Type :=
| Fin (q : Q)
| PInf
| NInf
| NaN.

(** The least magnitude that rounds to an infinity: [2^1024 - 2^970], half
    a unit in the last place above the largest binary64 number. *)
Definition overflow_threshold : Q := inject_Z (2 ^ 1024 - 2 ^ 970).

(** How the platform rounds.  [round q] is the binary64 number that an
    addition or a multiplication returns when its exact result is [q], for
    [q] below the overflow threshold in magnitude.  [libm_pow x y] is the
    binary64 number that the C function [pow] returns for the base [x] and
    the exponent [y] when [x] to the power [y] is below the threshold;
    unlike the arithmetic operations, [pow] need not round correctly. *)
Record rounding : Type := mk_rounding {
  round : Q -> Q;
  libm_pow : Q -> Z -> Q
}.

(** The laws of rounding to nearest that the proofs use: it is monotone,
    leaves a rounded number as it is, commutes with the change of sign, and
    the double of a binary64 number below the threshold is a binary64
    number; [pow] of a base that is not negative is not negative.  The
    arithmetic [ieee] below obeys them. *)
Definition to_nearest (R : rounding) : Prop :=
  (forall x y, x <= y -> round R x <= round R y)
  /\ (forall x, round R (round R x) == round R x)
  /\ (forall x, round R (- x) == - round R x)
  /\ (forall x, Qabs (2 * round R x) < overflow_threshold ->
                round R (2 * round R x) == 2 * round R x)
  /\ (forall x y, 0 <= x -> 0 <= libm_pow R x y).

(** The number [x] is a binary64 number. *)
Definition binary64 (R : rounding) (x : Q) : Prop :=
  round R x == x /\ Qabs x < overflow_threshold.

(** The integer [e] with [2^e <= q < 2^(e+1)], for a positive [q]. *)
Definition ilog2 (q : Q) : Z :=
  let e := (Z.log2 (Qnum q) - Z.log2 (Zpos (Qden q)))%Z in
  if Qle_bool (2 ^ e) q then e else (e - 1)%Z.

(** The exponent of the unit in the last place of the binary64 numbers
    around the positive [q]: significands have 53 bits and the least
    exponent is -1074. *)
Definition exponent (q : Q) : Z := Z.max (ilog2 q - 52) (-1074).

(** The integer nearest to [scaled], the even one of two that are equally
    near. *)
Definition half_even (scaled : Q) : Z :=
  let below := Qfloor scaled in
  let rest := scaled - inject_Z below in
  if Qle_bool rest (1 # 2) then
    if Qeq_bool rest (1 # 2) && Z.odd below then (below + 1)%Z else below
  else (below + 1)%Z.

(** The binary64 number nearest to the positive [q]. *)
Definition round_magnitude (q : Q) : Q :=
  inject_Z (half_even (q / 2 ^ exponent q)) * 2 ^ exponent q.

(** Rounding to the nearest binary64 number, ties to the even
    significand. *)
Definition nearest_even (q : Q) : Q :=
  if Qeq_bool q 0 then 0
  else if Qle_bool 0 q then round_magnitude q
  else - round_magnitude (- q).

(** The arithmetic of IEEE 754 with a correctly rounded [pow]. *)
Definition ieee : rounding :=
  {| round := nearest_even;
     libm_pow := fun x y => nearest_even (x ^ y) |}.

(** Two floats denote the same value. *)
Definition same (x y : float) : Prop :=
  match x, y with
  | Fin a, Fin b => a == b
  | PInf, PInf | NInf, NInf | NaN, NaN => True
  | _, _ => False
  end.

Section Arithmetic.
Variable R : rounding.

(** The float for the exact result [v] of an operation on finite floats. *)
Definition finish (v : Q) : float :=
  if Qle_bool overflow_threshold v then PInf
  else if Qle_bool v (- overflow_threshold) then NInf
  else Fin (round R v).

Definition neg (x : float) : float :=
  match x with
  | Fin q => Fin (- q)
  | PInf => NInf
  | NInf => PInf
  | NaN => NaN
  end.

(** An infinity, positive or not, times the finite [q]. *)
Definition scale_inf (positive : bool) (q : Q) : float :=
  if Qeq_bool q 0 then NaN
  else if Bool.eqb positive (Qle_bool 0 q) then PInf
  else NInf.

Definition mul (x y : float) : float :=
  match x, y with
  | NaN, _ | _, NaN => NaN
  | Fin a, Fin b => finish (a * b)
  | PInf, Fin q | Fin q, PInf => scale_inf true q
  | NInf, Fin q | Fin q, NInf => scale_inf false q
  | PInf, PInf | NInf, NInf => PInf
  | PInf, NInf | NInf, PInf => NInf
  end.

Definition add (x y : float) : float :=
  match x, y with
  | NaN, _ | _, NaN => NaN
  | Fin a, Fin b => finish (a + b)
  | PInf, NInf | NInf, PInf => NaN
  | PInf, _ | _, PInf => PInf
  | NInf, _ | _, NInf => NInf
  end.

Definition sub (x y : float) : float := add x (neg y).

(** [x < y]. *)
Definition lt (x y : float) : bool :=
  match x, y with
  | NaN, _ | _, NaN => false
  | Fin a, Fin b => negb (Qle_bool b a)
  | _, NInf => false
  | NInf, _ => true
  | PInf, _ => false
  | _, PInf => true
  end.

(** [x <= y]. *)
Definition le (x y : float) : bool :=
  match x, y with
  | NaN, _ | _, NaN => false
  | Fin a, Fin b => Qle_bool a b
  | NInf, _ => true
  | _, PInf => true
  | _, NInf => false
  | PInf, _ => false
  end.

(** [min(a, b)]: [a], unless [b < a]. *)
Definition py_min (a b : float) : float := if lt b a then b else a.

(** [max(a, b)]: [a], unless [b > a]. *)
Definition py_max (a b : float) : float := if lt a b then b else a.

(** [base ** exponent] for a finite float and an [int]: the exponent is
    converted to a float first, which fails for an [int] too large; a zero
    exponent gives one, a zero base gives zero or, for a negative exponent,
    [ZeroDivisionError]; a base of one gives one; otherwise the result is
    that of [pow], and [OverflowError] when that is infinite, which is
    decided here on the exact power. *)
Definition pow (base : Q) (exponent : Z) : result float :=
  if Qle_bool overflow_threshold (inject_Z (Z.abs exponent)) then
    inl (mk_exn OverflowError "int too large to convert to float" None)
  else if (exponent =? 0)%Z then inr (Fin 1)
  else if Qeq_bool base 0 then
    if (exponent <? 0)%Z then
      inl (mk_exn ZeroDivisionError "0.0 cannot be raised to a negative power" None)
    else inr (Fin 0)
  else if Qeq_bool base 1 then inr (Fin 1)
  else if Qle_bool overflow_threshold (Qabs (base ^ exponent)) then
    inl (mk_exn OverflowError "(34, 'Numerical result out of range')" None)
  else inr (Fin (libm_pow R base exponent)).

End Arithmetic.

End Float.

(* ===================================================================== *)
(** ** src/retry.py                                                        *)
(* ===================================================================== *)
Module Retry.
Import Py Float.

(** The numeric fields are finite floats, written as the rationals they
    denote. *)
Record RetryConfig : Type := mk_RetryConfig {
  max_attempts : Z;
  base_delay : Q;
  max_delay : Q;
  exponential_base : Q;
  jitter : bool;
  retryable_exceptions : list exn_class
}.

(** [RetryConfig()] with the dataclass defaults. *)
Definition default_config : RetryConfig :=
  mk_RetryConfig 3 1 30 2 true [Exception].

Definition NETWORK_RETRY : RetryConfig :=
  mk_RetryConfig 5 1 60 2 true [ConnectionError; TimeoutError; OSError].

Definition YOUTUBE_RETRY : RetryConfig :=
  mk_RetryConfig 3 2 30 2 true [Exception].

Section Delay.
Variable R : rounding.

(** [random.uniform(a, b)] is [a + (b - a) * random.random()]; [r] is the
    value drawn by [random.random()], a number of the interval [0, 1). *)
Definition uniform (a b : float) (r : Q) : float :=
  add R a (mul R (sub R b a) (Fin r)).

(** [calculate_delay(attempt, config)], with the random draw [r]: the
    delay, or the exception that the power raises. *)
Definition calculate_delay (r : Q) (attempt : Z) (config : RetryConfig)
  : result float :=
  match pow R (exponential_base config) attempt with
  | inl e => inl e
  | inr power =>
      let delay := mul R (Fin (base_delay config)) power in
      let delay := py_min delay (Fin (max_delay config)) in
      let delay :=
        if jitter config
        then let jitter := mul R delay (Fin 0.25) in
             add R delay (uniform (neg jitter) jitter r)
        else delay in
      inr (py_max (Fin 0) delay)
  end.

End Delay.

(** What [retry_with_backoff] does to the outside, in order.  The
    callback [on_retry] and [time.sleep(delay)] are taken to return, as
    [time.sleep] does for a finite delay that is not negative and that the
    clock of the platform can hold. *)
Inductive event : Type :=
| EvCall (attempt : Z)
| EvOnRetry (attempt : Z) (e : exn) (delay : float)
| EvSleep (delay : float).

Definition is_call (ev : event) : bool :=
  match ev with EvCall _ => true | _ => false end.

(** Number of times the operation was invoked. *)
Definition invocations (log : list event) : nat :=
  List.length (List.filter is_call log).

(** The [RetryExhaustedError] raised after the loop. *)
Definition exhausted (config : RetryConfig) (last : option exn) : exn :=
  mk_exn RetryExhaustedError
    ("Function failed after " +:+ pretty (max_attempts config) +:+ " attempts")
    last.

Section Executor.
Context {A : Type}.
(** [R] is how the platform rounds; [func k] is what the [k]-th invocation
    of the operation does (counting from zero); [observer] tells whether
    [on_retry] was given; [rand k] is the random draw of the [k]-th
    delay. *)
Variable R : rounding.
Variable func : nat -> result A.
Variable config : RetryConfig.
Variable observer : bool.
Variable rand : nat -> Q.

(** The [for attempt in range(config.max_attempts)] loop: [remaining] is
    the number of values the range still yields, [attempt] the next one,
    [last] the variable [last_exception].  An exception that
    [calculate_delay] raises is raised inside the [except] block and so
    leaves the function. *)
Fixpoint retry_loop (remaining : nat) (attempt : Z) (last : option exn)
  (log : list event) : result A * list event :=
  match remaining with
  | O => (inl (exhausted config last), log)
  | S remaining' =>
      let log := log ++ [EvCall attempt] in
      match func (Z.to_nat attempt) with
      | inr value => (inr value, log)
      | inl e =>
          if isinstance e (retryable_exceptions config) then
            if (attempt <? max_attempts config - 1)%Z then
              match calculate_delay R (rand (Z.to_nat attempt)) attempt config with
              | inl raised => (inl raised, log)
              | inr delay =>
                  let log :=
                    if observer
                    then log ++ [EvOnRetry (attempt + 1) e delay]
                    else log in
                  retry_loop remaining' (attempt + 1)%Z (Some e)
                    (log ++ [EvSleep delay])
              end
            else (inl (exhausted config (Some e)), log)
          else (inl e, log)
      end
  end.

(** [retry_with_backoff(func, config, on_retry)]. *)
Definition retry_with_backoff : result A * list event :=
  retry_loop (Z.to_nat (max_attempts config)) 0%Z None [].

End Executor.

(** No power that a run of the executor may ask for overflows: the delay
    of every attempt but the last can be computed. *)
Definition delays_defined (R : rounding) (config : RetryConfig) : Prop :=
  forall attempt, (0 <= attempt < max_attempts config - 1)%Z ->
    exists power, pow R (exponential_base config) attempt = inr power.

(** The delays slept, in order. *)
Fixpoint delays (log : list event) : list float :=
  match log with
  | [] => []
  | EvSleep d :: log' => d :: delays log'
  | _ :: log' => delays log'
  end.

(** The delays announced to the [on_retry] callback, in order. *)
Fixpoint announced (log : list event) : list float :=
  match log with
  | [] => []
  | EvOnRetry _ _ d :: log' => d :: announced log'
  | _ :: log' => announced log'
  end.

End Retry.

(* ===================================================================== *)
(** ** The regular expressions of [extract_video_id]                       *)
(* ===================================================================== *)
Module Regex.

(** The fragment of [re] syntax the two patterns use: the empty pattern, a
    literal character, a character class, concatenation, ordered
    alternation, the greedy [?], and the greedy [*] on a character class. *)
Inductive re : Type :=
| Eps
| Chr (c : ascii)
| Cls (f : ascii -> bool)
| Seq (a b : re)
| Alt (a b : re)
| Opt (a : re)
| Star (f : ascii -> bool).

(** Greedy [f*]: take as many characters as possible, then give them back
    one by one until the rest of the pattern, [k], matches. *)
Fixpoint star {R : Type} (f : ascii -> bool) (s : string)
    (k : string -> option R) : option R :=
  match s with
  | String c rest =>
      if f c then
        match star f rest k with
        | Some found => Some found
        | None => k s
        end
      else k s
  | EmptyString => k s
  end.

(** Backtracking match of [r] at the start of [s]; [k] is what remains of the
    pattern and receives what remains of the text.  The first success in
    the order of the alternatives is the match, as in [re]. *)
Fixpoint matches {R : Type} (r : re) (s : string) (k : string -> option R)
  : option R :=
  match r with
  | Eps => k s
  | Chr c =>
      match s with
      | String c' rest => if (c =? c')%char then k rest else None
      | EmptyString => None
      end
  | Cls f =>
      match s with
      | String c' rest => if f c' then k rest else None
      | EmptyString => None
      end
  | Seq a b => matches a s (fun rest => matches b rest k)
  | Alt a b =>
      match matches a s k with
      | Some found => Some found
      | None => matches b s k
      end
  | Opt a =>
      match matches a s k with
      | Some found => Some found
      | None => k s
      end
  | Star f => star f s k
  end.

(** A literal text. *)
Fixpoint lit (text : string) : re :=
  match text with
  | EmptyString => Eps
  | String c rest => Seq (Chr c) (lit rest)
  end.

(** [re.search]: the match at the leftmost position where there is one. *)
Fixpoint search {R : Type} (r : re) (k : string -> option R) (s : string)
  : option R :=
  match matches r s k with
  | Some found => Some found
  | None =>
      match s with
      | String _ rest => search r k rest
      | EmptyString => None
      end
  end.

(** The group [(f{n})] that ends both patterns: the next [n] characters, all
    of the class [f]. *)
Fixpoint group (n : nat) (f : ascii -> bool) (s : string) : option string :=
  match n with
  | O => Some EmptyString
  | S n' =>
      match s with
      | String c rest =>
          if f c then
            match group n' f rest with
            | Some taken => Some (String c taken)
            | None => None
            end
          else None
      | EmptyString => None
      end
  end.

(** The dot: any character but the line feed. *)
Definition dot (c : ascii) : bool := negb (c =? ascii_of_nat 10)%char.

(** The class [[a-zA-Z0-9_-]]. *)
Definition id_char (c : ascii) : bool :=
  let n := nat_of_ascii c in
  ((97 <=? n)%nat && (n <=? 122)%nat) || ((65 <=? n)%nat && (n <=? 90)%nat)
  || ((48 <=? n)%nat && (n <=? 57)%nat) || (c =? "_")%char || (c =? "-")%char.

(** [(?:https?://)?]. *)
Definition scheme : re :=
  Opt (Seq (lit "http") (Seq (Opt (Chr "s")) (lit "://"))).

(** The first pattern, up to its group. *)
Definition watch_pattern : re :=
  Seq scheme
    (Seq (Opt (Alt (lit "www.") (lit "m.")))
       (Alt (Seq (lit "youtube.com/watch?") (Seq (Star dot) (lit "v=")))
          (Alt (lit "youtu.be/")
             (Alt (lit "youtube.com/live/")
                (Seq (lit "m.youtube.com/watch?") (Seq (Star dot) (lit "v="))))))).

(** The second pattern, up to its group. *)
Definition shorts_pattern : re :=
  Seq scheme (Seq (Opt (lit "www.")) (lit "youtube.com/shorts/")).

End Regex.

(* ===================================================================== *)
(** ** src/youtube_api.py                                                  *)
(* ===================================================================== *)
Module YouTubeApi.
Import Py.

Record LiveStatus : Type := mk_LiveStatus {
  is_live : bool;
  video_id : option string;
  title : option string;
  channel_name : option string
}.

(** The keys of the metadata dictionary that the liveness checks read; a
    missing key (or a null) is [None]. *)
Record video_info : Type := mk_video_info {
  info_is_live : option bool;
  info_live_status : option string;
  info_was_live : option bool;
  info_id : option string;
  info_title : option string;
  info_channel : option string
}.

(** What [json.loads] returns: an object, of which the liveness checks read
    the keys of [video_info], or a value of another kind. *)
Inductive json : Type :=
| JObject (info : video_info)
| JArray | JString | JInt | JFloat | JBool | JNull.

(** [type(value).__name__]. *)
Definition type_name (value : json) : string :=
  match value with
  | JObject _ => "dict"
  | JArray => "list"
  | JString => "str"
  | JInt => "int"
  | JFloat => "float"
  | JBool => "bool"
  | JNull => "NoneType"
  end.

(** The [AttributeError] of [info.get(...)] on a value that is not an
    object. *)
Definition no_get (value : json) : exn :=
  mk_exn AttributeError
    ("'" +:+ type_name value +:+ "' object has no attribute 'get'") None.

(** [info.get(key, False)] taken as a truth value. *)
Definition get_flag (field : option bool) : bool := default false field.

(** [info.get('live_status', 'not_live') == 'is_live']. *)
Definition live_status_is_live (info : video_info) : bool :=
  (default "not_live" (info_live_status info) =? "is_live")%string.

Definition to_lower (c : ascii) : ascii :=
  let n := nat_of_ascii c in
  if (65 <=? n)%nat && (n <=? 90)%nat then ascii_of_nat (n + 32) else c.

(** [s.lower()]. *)
Fixpoint lower (s : string) : string :=
  match s with
  | EmptyString => EmptyString
  | String c rest => String (to_lower c) (lower rest)
  end.

(** [needle in haystack]. *)
Fixpoint contains (needle haystack : string) : bool :=
  String.prefix needle haystack
  || match haystack with
     | EmptyString => false
     | String _ rest => contains needle rest
     end.

Section Checks.
(** [get_video_info(url, ...)]: what it returns or raises for a URL. *)
Variable get_video_info : string -> result json.

(** [check_live_status(video_id, ...)]: the [try] block, which holds the
    reads of the metadata too, and its [except YouTubeError] clause. *)
Definition check_live_status (video_id : string) : result LiveStatus :=
  let url := "https://www.youtube.com/watch?v=" +:+ video_id in
  let attempt :=
    match get_video_info url with
    | inl e => inl e
    | inr (JObject info) =>
        inr {| is_live := get_flag (info_is_live info) || live_status_is_live info;
               video_id := Some video_id;
               title := info_title info;
               channel_name := info_channel info |}
    | inr other => inl (no_get other)
    end in
  match attempt with
  | inr status => inr status
  | inl e =>
      if isinstance e [YouTubeError]
      then inr (mk_LiveStatus false None None None)
      else inl e
  end.

(** [get_channel_live_status(channel_id, ...)]. *)
Definition get_channel_live_status (channel_id : string) : result LiveStatus :=
  if (channel_id =? EmptyString)%string then
    inl (mk_exn YouTubeError "Invalid channel_id: must be a non-empty string" None)
  else
    let url := "https://www.youtube.com/channel/" +:+ channel_id +:+ "/live" in
    match get_video_info url with
    | inl e =>
        if isinstance e [YouTubeError] then
          let error_msg := lower (exn_msg e) in
          if existsb (fun msg => contains msg error_msg)
               ["not found"; "unavailable"; "does not exist"; "removed"]
          then inl (mk_exn ChannelNotFoundError
                      ("Channel not found: " +:+ channel_id) None)
          else inl e
        else inl e
    | inr (JObject info) =>
        let actually_live :=
          get_flag (info_is_live info) && live_status_is_live info
          && negb (get_flag (info_was_live info)) in
        inr {| is_live := actually_live;
               video_id := if actually_live then info_id info else None;
               title := if actually_live then info_title info else None;
               channel_name := info_channel info |}
    | inr other => inl (no_get other)
    end.

End Checks.

(** [extract_video_id(url)]. *)
Definition extract_video_id (url : string) : result string :=
  match Regex.search Regex.watch_pattern (Regex.group 11 Regex.id_char) url with
  | Some id => inr id
  | None =>
      match Regex.search Regex.shorts_pattern (Regex.group 11 Regex.id_char) url with
      | Some id => inr id
      | None =>
          inl (mk_exn InvalidURLError
                 ("Could not extract video ID from URL: " +:+ url) None)
      end
  end.

(** The text that stands right before the identifier in a match of either
    pattern of [extract_video_id]: the end of a short, live or shorts link,
    or a watch link with its query up to the parameter [v]. *)
Definition marker (m : string) : Prop :=
  m = "youtu.be/" \/ m = "youtube.com/live/" \/ m = "youtube.com/shorts/"
  \/ exists q,
       m = "youtube.com/watch?" +:+ q +:+ "v="
       /\ forallb Regex.dot (list_ascii_of_string q) = true.

(** What [subprocess.run] returns. *)
Record CompletedProcess : Type := mk_CompletedProcess {
  returncode : Z;
  stdout : string;
  stderr : string
}.

(** The [--cookies-from-browser] and [--cookies] options. *)
Definition cookie_options (cookies_from_browser cookies_file : option string)
  : list string :=
  match cookies_from_browser with
  | Some b => ["--cookies-from-browser"; b]
  | None => []
  end
  ++ match cookies_file with
     | Some f => ["--cookies"; f]
     | None => []
     end.

(** The quality map of [get_stream_url]. *)
Definition format_selector_of (quality : string) : string :=
  if (quality =? "best")%string then "best"
  else if (quality =? "1080p")%string then "best[height<=1080]"
  else if (quality =? "720p")%string then "best[height<=720]"
  else if (quality =? "480p")%string then "best[height<=480]"
  else if (quality =? "360p")%string then "best[height<=360]"
  else "best".

Section Fetch.
(** [run cmd k] is what the [k]-th [subprocess.run(cmd, ...)] of one retried
    operation does (it raises [TimeoutExpired] after 30 seconds, or
    [FileNotFoundError] when the program is missing); [json_loads] is
    [json.loads]; [R] is how the platform rounds and [rand k] the random
    draw of the [k]-th backoff delay. *)
Variable run : list string -> nat -> result CompletedProcess.
Variable json_loads : string -> result json.
Variable R : Float.rounding.
Variable rand : nat -> Q.
Variables cookies_from_browser cookies_file : option string.

(** The [k]-th call of [_fetch_video_info(url, ...)]. *)
Definition _fetch_video_info (url : string) (k : nat) : result json :=
  let cmd :=
    ["yt-dlp"; "--dump-json"; "--no-download"]
    ++ cookie_options cookies_from_browser cookies_file ++ [url] in
  match run cmd k with
  | inl e => inl e
  | inr completed =>
      if negb (returncode completed =? 0)%Z then
        inl (mk_exn YouTubeError ("yt-dlp failed: " +:+ stderr completed) None)
      else json_loads (stdout completed)
  end.

(** [get_video_info(url, ...)] and the log of its retries. *)
Definition get_video_info (url : string) : result json * list Retry.event :=
  let '(res, log) :=
    Retry.retry_with_backoff R (_fetch_video_info url) Retry.YOUTUBE_RETRY true
      rand in
  (match res with
   | inr info => inr info
   | inl e =>
       if isinstance e [RetryExhaustedError] then
         inl (mk_exn YouTubeError
                ("Failed to fetch video info after retries: "
                 +:+ str_opt_exn (last_exception e)) None)
       else if isinstance e [TimeoutExpired] then
         inl (mk_exn YouTubeError "Timeout while fetching video info" None)
       else if isinstance e [JSONDecodeError] then
         inl (mk_exn YouTubeError ("Failed to parse video info: " +:+ exn_msg e) None)
       else if isinstance e [FileNotFoundError] then
         inl (mk_exn YouTubeError "yt-dlp not found. Please install yt-dlp." None)
       else inl e
   end, log).

(** The [k]-th call of [_fetch_stream_url(url, format_selector, ...)]. *)
Definition _fetch_stream_url (url format_selector : string) (k : nat)
  : result string :=
  let cmd :=
    ["yt-dlp"; "-f"; format_selector; "-g"]
    ++ cookie_options cookies_from_browser cookies_file ++ [url] in
  match run cmd k with
  | inl e => inl e
  | inr completed =>
      if negb (returncode completed =? 0)%Z then
        inl (mk_exn StreamUnavailableError
               ("Failed to get stream URL: " +:+ stderr completed) None)
      else
        let stream_url := str_strip (stdout completed) in
        match stream_url with
        | EmptyString =>
            inl (mk_exn StreamUnavailableError "No stream URL returned" None)
        | _ => inr stream_url
        end
  end.

(** [get_stream_url(video_id, quality, ...)] and the log of the retries of
    the URL fetch (empty when the fetch is not reached). *)
Definition get_stream_url (video_id quality : string)
  : result string * list Retry.event :=
  let url := "https://www.youtube.com/watch?v=" +:+ video_id in
  match check_live_status (fun u => (get_video_info u).1) video_id with
  | inl e => (inl e, [])
  | inr status =>
      if negb (is_live status) then
        (inl (mk_exn NotLiveError
                ("Video " +:+ video_id +:+ " is not a live stream") None), [])
      else
        let format_selector := format_selector_of quality in
        let '(res, log) :=
          Retry.retry_with_backoff R (_fetch_stream_url url format_selector)
            Retry.YOUTUBE_RETRY true rand in
        (match res with
         | inr stream_url => inr stream_url
         | inl e =>
             if isinstance e [RetryExhaustedError] then
               inl (mk_exn StreamUnavailableError
                      ("Failed to get stream URL after retries: "
                       +:+ str_opt_exn (last_exception e)) None)
             else if isinstance e [TimeoutExpired] then
               inl (mk_exn StreamUnavailableError "Timeout while getting stream URL" None)
             else if isinstance e [FileNotFoundError] then
               inl (mk_exn StreamUnavailableError
                      "yt-dlp not found. Please install yt-dlp." None)
             else inl e
         end, log)
  end.

End Fetch.

End YouTubeApi.

(* ===================================================================== *)
(** ** src/recorder.py                                                     *)
(* ===================================================================== *)
Module Recorder.
Import Py.

Definition Path : Type := string.

(** [dir / name] as the text of the path, for a directory written without
    a trailing separator and a name that holds none. *)
Definition path_join (dir : Path) (name : string) : Path := dir +:+ "/" +:+ name.

(** A [subprocess.Popen] handle.  [running_for] is the number of seconds for
    which the capture process keeps running: [poll()] is [None] exactly
    while it is positive.  Every process modelled exits after finitely many
    seconds; a capture that never ends is outside the model. *)
Record Popen : Type := mk_Popen {
  args : list string;
  running_for : nat
}.

Record StreamRecorder : Type := mk_StreamRecorder {
  output_dir : Path;
  quality : string;
  cookies_from_browser : option string;
  cookies_file : option string;
  _process : option Popen;
  _start_time : option Utils.datetime;
  _current_file : option Path;
  _temp_file : option Path;
  _stop_event : bool;
  _channel_name : option string;
  _stream_url : option string;
  _reconnect_count : Z;
  _max_reconnects : Z;
  _recording_parts : list Path;
  _output_threads : list string
}.

(** [StreamRecorder(output_dir, quality, ...)]. *)
Definition new (output_dir : Path) (quality : string)
    (cookies_from_browser cookies_file : option string) : StreamRecorder :=
  {| output_dir := output_dir; quality := quality;
     cookies_from_browser := cookies_from_browser;
     cookies_file := cookies_file;
     _process := None; _start_time := None;
     _current_file := None; _temp_file := None;
     _stop_event := false;
     _channel_name := None; _stream_url := None;
     _reconnect_count := 0; _max_reconnects := 5;
     _recording_parts := []; _output_threads := [] |}.

(** [check_disk_space(required_mb)]: [free] is [shutil.disk_usage(...).free]
    in bytes, or [None] when the probe raises. *)
Definition check_disk_space (free : option Z) (required_mb : Z) : bool :=
  match free with
  | Some free =>
      let available_mb := (free / (1024 * 1024))%Z in
      if (available_mb <? required_mb)%Z then false else true
  | None => true
  end.

(** [_get_format_selector()]. *)
Definition _get_format_selector (r : StreamRecorder) : string :=
  if (quality r =? "best")%string then "best"
  else if (quality r =? "1080p")%string then "best[height<=1080]"
  else if (quality r =? "720p")%string then "best[height<=720]"
  else if (quality r =? "480p")%string then "best[height<=480]"
  else if (quality r =? "360p")%string then "best[height<=360]"
  else "best".

(** What [start_recording] observes: the free disk space, the clock when
    the file name is made, whether [Popen] succeeds (and then for how many
    seconds the process runs), the clock stored in [_start_time], whether
    the two reader threads start, and, when [Popen] or a thread raises, the
    text of the exception. *)
Record start_env : Type := mk_start_env {
  disk_free : option Z;
  now : Utils.datetime;
  spawn : option nat;
  started_at : Utils.datetime;
  threads_start : bool;
  failure : string
}.

Definition AlreadyRecording : exn :=
  mk_exn RecordingError "Already recording" None.

Definition InsufficientDiskSpace : exn :=
  mk_exn RecordingError "Insufficient disk space for recording" None.

(** The [RecordingError] of the [except Exception as e] clause; [text] is
    [str(e)]. *)
Definition FailedToStart (text : string) : exn :=
  mk_exn RecordingError ("Failed to start recording: " +:+ text) None.

Definition command (r : StreamRecorder) (temp_file : Path) (stream_url : string)
  : list string :=
  ["yt-dlp"; "-f"; _get_format_selector r;
   "--no-part"; "--no-continue"; "--newline"; "-o"; temp_file]
  ++ match cookies_from_browser r with
     | Some b => ["--cookies-from-browser"; b]
     | None => []
     end
  ++ match cookies_file r with
     | Some f => ["--cookies"; f]
     | None => []
     end
  ++ [stream_url].

(** [start_recording(stream_url, channel_name)]: the returned path or the
    raised error, and the recorder afterwards.  The [try] block assigns
    [_process], [_start_time] and the empty [_output_threads] before it
    starts the reader threads, and its handler resets nothing: a start that
    fails at the threads leaves the process in the recorder. *)
Definition start_recording (env : start_env) (stream_url channel_name : string)
    (r : StreamRecorder) : result Path * StreamRecorder :=
  match _process r with
  | Some _ => (inl AlreadyRecording, r)
  | None =>
      if negb (check_disk_space (disk_free env) 500) then
        (inl InsufficientDiskSpace, r)
      else
        let filename := Utils.generate_filename (now env) channel_name "mp4" in
        let current_file := path_join (output_dir r) filename in
        let temp_file := path_join (output_dir r) ("." +:+ filename +:+ ".tmp") in
        let named :=
          {| output_dir := output_dir r; quality := quality r;
             cookies_from_browser := cookies_from_browser r;
             cookies_file := cookies_file r;
             _process := None; _start_time := _start_time r;
             _current_file := Some current_file;
             _temp_file := Some temp_file;
             _stop_event := _stop_event r;
             _channel_name := Some channel_name;
             _stream_url := Some stream_url;
             _reconnect_count := _reconnect_count r;
             _max_reconnects := _max_reconnects r;
             _recording_parts := _recording_parts r;
             _output_threads := _output_threads r |} in
        match spawn env with
        | None => (inl (FailedToStart (failure env)), named)
        | Some seconds =>
            let launched (threads : list string) :=
              {| output_dir := output_dir r; quality := quality r;
                 cookies_from_browser := cookies_from_browser r;
                 cookies_file := cookies_file r;
                 _process :=
                   Some (mk_Popen (command r temp_file stream_url) seconds);
                 _start_time := Some (started_at env);
                 _current_file := Some current_file;
                 _temp_file := Some temp_file;
                 _stop_event := _stop_event r;
                 _channel_name := Some channel_name;
                 _stream_url := Some stream_url;
                 _reconnect_count := _reconnect_count r;
                 _max_reconnects := _max_reconnects r;
                 _recording_parts := _recording_parts r;
                 _output_threads := threads |} in
            if threads_start env
            then (inr current_file, launched ["stdout-reader"; "stderr-reader"])
            else (inl (FailedToStart (failure env)), launched [])
        end
  end.

(** What [stop_recording] observes on the file system: whether the
    temporary file exists and whether renaming it succeeds.  How the
    process ends (terminated in time, killed, or not even killed) changes
    only what is logged. *)
Record stop_env : Type := mk_stop_env {
  temp_exists : bool;
  rename_ok : bool
}.

(** [stop_recording()]. *)
Definition stop_recording (env : stop_env) (r : StreamRecorder)
  : option Path * StreamRecorder :=
  match _process r with
  | None => (None, r)
  | Some _ =>
      let stopped :=
        {| output_dir := output_dir r; quality := quality r;
           cookies_from_browser := cookies_from_browser r;
           cookies_file := cookies_file r;
           _process := None; _start_time := _start_time r;
           _current_file := _current_file r;
           _temp_file := _temp_file r;
           _stop_event := true;
           _channel_name := _channel_name r;
           _stream_url := _stream_url r;
           _reconnect_count := _reconnect_count r;
           _max_reconnects := _max_reconnects r;
           _recording_parts := _recording_parts r;
           _output_threads := [] |} in
      match _temp_file r with
      | Some temp_file =>
          if temp_exists env then
            if rename_ok env then (_current_file r, stopped)
            else (Some temp_file, stopped)
          else (None, stopped)
      | None => (None, stopped)
      end
  end.

(** [is_recording()]. *)
Definition is_recording (r : StreamRecorder) : bool :=
  match _process r with
  | None => false
  | Some p => (0 <? running_for p)%nat
  end.

(** Consecutive calls of [stop_recording()], one per element of [envs]: the
    values returned, in order, and the recorder afterwards. *)
Fixpoint stop_repeatedly (envs : list stop_env) (r : StreamRecorder)
  : list (option Path) * StreamRecorder :=
  match envs with
  | [] => ([], r)
  | env :: envs' =>
      let '(returned, r) := stop_recording env r in
      let '(more, r) := stop_repeatedly envs' r in
      (returned :: more, r)
  end.

(** *** [record_with_reconnect] *)

(** Assignment to [_process]. *)
Definition set_process (p : option Popen) (r : StreamRecorder) : StreamRecorder :=
  {| output_dir := output_dir r; quality := quality r;
     cookies_from_browser := cookies_from_browser r;
     cookies_file := cookies_file r;
     _process := p; _start_time := _start_time r;
     _current_file := _current_file r; _temp_file := _temp_file r;
     _stop_event := _stop_event r;
     _channel_name := _channel_name r; _stream_url := _stream_url r;
     _reconnect_count := _reconnect_count r;
     _max_reconnects := _max_reconnects r;
     _recording_parts := _recording_parts r;
     _output_threads := _output_threads r |}.

(** Assignment to [_max_reconnects], [_recording_parts] and
    [_reconnect_count]. *)
Definition set_progress (max_reconnects : Z) (parts : list Path) (count : Z)
    (r : StreamRecorder) : StreamRecorder :=
  {| output_dir := output_dir r; quality := quality r;
     cookies_from_browser := cookies_from_browser r;
     cookies_file := cookies_file r;
     _process := _process r; _start_time := _start_time r;
     _current_file := _current_file r; _temp_file := _temp_file r;
     _stop_event := _stop_event r;
     _channel_name := _channel_name r; _stream_url := _stream_url r;
     _reconnect_count := count;
     _max_reconnects := max_reconnects;
     _recording_parts := parts;
     _output_threads := _output_threads r |}.

(** [seconds] seconds pass: an owned capture process runs that much less. *)
Definition elapse (seconds : nat) (r : StreamRecorder) : StreamRecorder :=
  match _process r with
  | None => r
  | Some p => set_process (Some (mk_Popen (args p) (running_for p - seconds))) r
  end.

(** The callbacks and observations of one [record_with_reconnect] call, each
    indexed by the number of earlier calls of the same kind. *)
Record reconnect_env : Type := mk_reconnect_env {
  get_stream_url : nat -> result string;
  check_is_live : nat -> result bool;
  start_envs : nat -> start_env;
  stop_envs : nat -> stop_env
}.

(** The recorder together with the call counters and the seconds slept. *)
Record run : Type := mk_run {
  recorder : StreamRecorder;
  url_calls : nat;
  live_calls : nat;
  start_calls : nat;
  stop_calls : nat;
  slept : nat
}.

Definition set_recorder (r : StreamRecorder) (w : run) : run :=
  mk_run r (url_calls w) (live_calls w) (start_calls w) (stop_calls w) (slept w).

(** Computations over a [run] that may raise. *)
Definition M (A : Type) : Type := run -> result A * run.

Definition ret {A} (a : A) : M A := fun w => (inr a, w).

Definition bind {A B} (m : M A) (k : A -> M B) : M B :=
  fun w =>
    match m w with
    | (inr a, w') => k a w'
    | (inl e, w') => (inl e, w')
    end.

(** [try: m  except Exception as e: handler e]. *)
Definition try_except {A} (m : M A) (handler : exn -> M A) : M A :=
  fun w =>
    match m w with
    | (inr a, w') => (inr a, w')
    | (inl e, w') =>
        if isinstance e [Exception] then handler e w' else (inl e, w')
    end.

Notation "'let*' x ':=' m 'in' k" := (bind m (fun x => k))
  (at level 10, x name, m at level 100, k at level 200).
Notation "'run*' m 'in' k" := (bind m (fun _ => k))
  (at level 10, m at level 100, k at level 200).

Definition get_recorder : M StreamRecorder := fun w => (inr (recorder w), w).

Definition modify_recorder (f : StreamRecorder -> StreamRecorder) : M unit :=
  fun w => (inr tt, set_recorder (f (recorder w)) w).

Section Reconnect.
Variable env : reconnect_env.

Definition do_start (stream_url channel_name : string) : M Path :=
  fun w =>
    let '(res, r) :=
      start_recording (start_envs env (start_calls w))
        stream_url channel_name (recorder w) in
    (res, mk_run r (url_calls w) (live_calls w) (S (start_calls w))
            (stop_calls w) (slept w)).

Definition do_stop : M (option Path) :=
  fun w =>
    let '(part, r) := stop_recording (stop_envs env (stop_calls w)) (recorder w) in
    (inr part, mk_run r (url_calls w) (live_calls w) (start_calls w)
                 (S (stop_calls w)) (slept w)).

Definition call_get_stream_url : M string :=
  fun w =>
    (get_stream_url env (url_calls w),
     mk_run (recorder w) (S (url_calls w)) (live_calls w) (start_calls w)
       (stop_calls w) (slept w)).

Definition call_check_is_live : M bool :=
  fun w =>
    (check_is_live env (live_calls w),
     mk_run (recorder w) (url_calls w) (S (live_calls w)) (start_calls w)
       (stop_calls w) (slept w)).

(** [time.sleep(seconds)]. *)
Definition sleep (seconds : nat) : M unit :=
  fun w =>
    (inr tt,
     mk_run (elapse seconds (recorder w)) (url_calls w) (live_calls w)
       (start_calls w) (stop_calls w) (slept w + seconds)).

(** The loop [while self.is_recording(): time.sleep(1); if not
    check_is_live(): break], entered with a process that runs for
    [seconds] more seconds, so that [is_recording()] is [0 < seconds]. *)
Fixpoint poll_loop (seconds : nat) : M unit :=
  match seconds with
  | O => ret tt
  | S seconds' =>
      run* sleep 1 in
      let* live := call_check_is_live in
      if negb live then ret tt else poll_loop seconds'
  end.

Definition monitor_recording : M unit :=
  let* r := get_recorder in
  match _process r with
  | None => ret tt
  | Some p => poll_loop (running_for p)
  end.

Inductive flow : Type := Continue | Break.

Definition increment_reconnect_count : M unit :=
  modify_recorder (fun r =>
    set_progress (_max_reconnects r) (_recording_parts r)
      (_reconnect_count r + 1) r).

Definition append_part (part_file : Path) : M unit :=
  modify_recorder (fun r =>
    set_progress (_max_reconnects r) (_recording_parts r ++ [part_file])
      (_reconnect_count r) r).

(** The first statement of the [try] block: [start_recording] with the
    given URL on the first pass, with a fresh URL and a numbered name
    afterwards. *)
Definition start_session (stream_url channel_name : string) : M Path :=
  let* r := get_recorder in
  if (_reconnect_count r =? 0)%Z then
    do_start stream_url channel_name
  else
    let* fresh_url := call_get_stream_url in
    do_start fresh_url
      (channel_name +:+ "_reconnect" +:+ pretty (_reconnect_count r)).

(** [part_file = self.stop_recording()] and the guarded
    [self._recording_parts.append(part_file)]. *)
Definition collect_part : M unit :=
  let* part_file := do_stop in
  match part_file with
  | Some part_file => append_part part_file
  | None => ret tt
  end.

(** The [if check_is_live() and self._reconnect_count < max_reconnects]
    at the end of the [try] block. *)
Definition next_step (max_reconnects : Z) : M flow :=
  let* live := call_check_is_live in
  let* r := get_recorder in
  if live && (_reconnect_count r <? max_reconnects)%Z then
    run* increment_reconnect_count in
    run* sleep 2 in
    ret Continue
  else ret Break.

(** The [except Exception as e] block. *)
Definition recover (max_reconnects : Z) (e : exn) : M flow :=
  run* do_stop in
  let* r := get_recorder in
  if (_reconnect_count r <? max_reconnects)%Z then
    run* increment_reconnect_count in
    run* sleep 5 in
    ret Continue
  else ret Break.

(** One pass through the body of [while self._reconnect_count <=
    max_reconnects]. *)
Definition iteration (stream_url channel_name : string) (max_reconnects : Z)
  : M flow :=
  try_except
    (run* start_session stream_url channel_name in
     run* monitor_recording in
     run* collect_part in
     next_step max_reconnects)
    (recover max_reconnects).

(** The outer [while] loop; [None] when [fuel] passes were not enough. *)
Fixpoint reconnect_loop (fuel : nat) (stream_url channel_name : string)
    (max_reconnects : Z) (w : run) : option (result unit * run) :=
  if (_reconnect_count (recorder w) <=? max_reconnects)%Z then
    match fuel with
    | O => None
    | S fuel' =>
        match iteration stream_url channel_name max_reconnects w with
        | (inr Continue, w') =>
            reconnect_loop fuel' stream_url channel_name max_reconnects w'
        | (inr Break, w') => Some (inr tt, w')
        | (inl e, w') => Some (inl e, w')
        end
    end
  else Some (inr tt, w).

(** [record_with_reconnect(stream_url, channel_name, get_stream_url,
    check_is_live, max_reconnects)] on recorder [r]: the returned
    [_recording_parts] (or the exception that is not an [Exception] and so
    escapes the handler) and the final run.  Every pass that continues
    adds one to [_reconnect_count], so [max_reconnects + 1] passes are
    enough fuel. *)
Definition record_with_reconnect (stream_url channel_name : string)
    (max_reconnects : Z) (r : StreamRecorder)
  : option (result (list Path) * run) :=
  let w := mk_run (set_progress max_reconnects [] 0 r) 0 0 0 0 0 in
  match reconnect_loop (Z.to_nat (max_reconnects + 1))
          stream_url channel_name max_reconnects w with
  | Some (inr _, w') => Some (inr (_recording_parts (recorder w')), w')
  | Some (inl e, w') => Some (inl e, w')
  | None => None
  end.

End Reconnect.

Section Duration.
Variable env : reconnect_env.

(** The loop [while self.is_recording(): elapsed = int(time.time() -
    start_time); if elapsed >= duration: break; time.sleep(1)], entered with a
    process that runs for [seconds] more seconds.  The clock moves with the
    sleeps, so [elapsed] is the number of sleeps done.  [interrupt] is the
    number of sleeps done when Ctrl+C arrives, if it does: the
    [KeyboardInterrupt] ends the wait and its handler stops the recording as
    the end of the loop does. *)
Fixpoint wait_loop (interrupt : option nat) (duration : Z) (seconds elapsed : nat)
  : M unit :=
  match seconds with
  | O => ret tt
  | S seconds' =>
      if (duration <=? Z.of_nat elapsed)%Z then ret tt
      else if bool_decide (interrupt = Some elapsed) then ret tt
      else
        run* sleep 1 in
        wait_loop interrupt duration seconds' (S elapsed)
  end.

(** [record_with_duration(stream_url, channel_name, duration)]. *)
Definition record_with_duration (interrupt : option nat)
    (stream_url channel_name : string) (duration : Z) : M (option Path) :=
  run* do_start env stream_url channel_name in
  let* r := get_recorder in
  run* (match _process r with
        | None => ret tt
        | Some p => wait_loop interrupt duration (running_for p) 0
        end)
  in
  do_stop env.

End Duration.

(** Among the first [n] calls of [stop_recording], those that find the
    temporary file of their session on disk. *)
Definition sessions_with_file (env : reconnect_env) (n : nat) : nat :=
  List.length
    (List.filter (fun k => temp_exists (stop_envs env k)) (List.seq 0 n)).

End Recorder.

(* ===================================================================== *)
(** ** src/config.py and src/monitor.py                                    *)
(* ===================================================================== *)
Module Monitor.
Import Py.

Record ChannelConfig : Type := mk_ChannelConfig {
  name : string;
  channel_id : string
}.

Record Settings : Type := mk_Settings {
  output_dir : string;
  quality : string;
  format : string;
  interval : Z
}.

Record Config : Type := mk_Config {
  channels : list ChannelConfig;
  settings : Settings
}.

Record ChannelState : Type := mk_ChannelState {
  config : ChannelConfig;
  is_live : bool;
  is_recording : bool;
  current_video_id : option string;
  current_title : option string;
  recorder : option Recorder.StreamRecorder;
  last_check : option Utils.datetime;
  last_error : option string;
  recording_start_time : option Utils.datetime
}.

(** [ChannelState(config=ch)]. *)
Definition initial_state (ch : ChannelConfig) : ChannelState :=
  mk_ChannelState ch false false None None None None None None.

(** What the monitor asks of a Session Supervisor, in order: [Start v] is a
    call of [recorder.start_recording] for the stream [v], [Stop v] a call
    of [recorder.stop_recording] on the recorder of the stream [v]. *)
Inductive action : Type :=
| Start (video_id : option string)
| Stop (video_id : option string).

(** What one call of [_check_channel] observes: the outcome of
    [get_channel_live_status], the clock, and, should it stop or start a
    recording, what [stop_recording], [get_stream_url] and
    [start_recording] observe. *)
Record check_env : Type := mk_check_env {
  status : result YouTubeApi.LiveStatus;
  checked_at : Utils.datetime;
  stop_obs : Recorder.stop_env;
  stream_url : result string;
  start_obs : Recorder.start_env;
  recording_started_at : Utils.datetime
}.

Section PerSource.
(** [self.config.settings], [self.cookies_from_browser] and
    [self.cookies_file]. *)
Variable cfg : Settings.
Variable cookies_from_browser cookies_file : option string.

(** The [except Exception as e] branch of [_start_recording]; an exception
    that is not an [Exception] passes through. *)
Definition start_failed (e : exn) (st : ChannelState)
  : result unit * ChannelState :=
  if isinstance e [Exception] then
    (inr tt,
     {| config := config st; is_live := is_live st;
        is_recording := false;
        current_video_id := current_video_id st;
        current_title := current_title st;
        recorder := recorder st;
        last_check := last_check st;
        last_error := Some (exn_msg e);
        recording_start_time := recording_start_time st |})
  else (inl e, st).

(** [_start_recording(channel_id, status)] on the state object
    [self._states[channel_id]]. *)
Definition _start_recording (env : check_env) (live : YouTubeApi.LiveStatus)
    (st : ChannelState) : result unit * ChannelState * list action :=
  match stream_url env with
  | inl e => (start_failed e st, [])
  | inr url =>
      let fresh :=
        Recorder.new (output_dir cfg) (quality cfg)
          cookies_from_browser cookies_file in
      let acts := [Start (YouTubeApi.video_id live)] in
      match Recorder.start_recording (start_obs env) url (name (config st)) fresh with
      | (inl e, _) => (start_failed e st, acts)
      | (inr _, started) =>
          (inr tt,
           {| config := config st; is_live := is_live st;
              is_recording := true;
              current_video_id := YouTubeApi.video_id live;
              current_title := YouTubeApi.title live;
              recorder := Some started;
              last_check := last_check st;
              last_error := last_error st;
              recording_start_time := Some (recording_started_at env) |},
           acts)
      end
  end.

(** [_stop_recording(channel_id)] on the state object. *)
Definition _stop_recording (obs : Recorder.stop_env) (st : ChannelState)
  : ChannelState * list action :=
  let acts :=
    match recorder st with
    | Some r =>
        if is_recording st
        then let '(_, _) := Recorder.stop_recording obs r in
             [Stop (current_video_id st)]
        else []
    | None => []
    end in
  ({| config := config st; is_live := is_live st;
      is_recording := false;
      current_video_id := None;
      current_title := None;
      recorder := None;
      last_check := last_check st;
      last_error := last_error st;
      recording_start_time := None |},
   acts).

Definition set_is_live (b : bool) (st : ChannelState) : ChannelState :=
  {| config := config st; is_live := b;
     is_recording := is_recording st;
     current_video_id := current_video_id st;
     current_title := current_title st;
     recorder := recorder st;
     last_check := last_check st;
     last_error := last_error st;
     recording_start_time := recording_start_time st |}.

Definition set_last_error (msg : option string) (st : ChannelState)
  : ChannelState :=
  {| config := config st; is_live := is_live st;
     is_recording := is_recording st;
     current_video_id := current_video_id st;
     current_title := current_title st;
     recorder := recorder st;
     last_check := last_check st;
     last_error := msg;
     recording_start_time := recording_start_time st |}.

Definition set_last_check (t : Utils.datetime) (st : ChannelState)
  : ChannelState :=
  {| config := config st; is_live := is_live st;
     is_recording := is_recording st;
     current_video_id := current_video_id st;
     current_title := current_title st;
     recorder := recorder st;
     last_check := Some t;
     last_error := last_error st;
     recording_start_time := recording_start_time st |}.

(** The two [except] clauses of [_check_channel]. *)
Definition check_failed (e : exn) (st : ChannelState)
  : result unit * ChannelState :=
  if isinstance e [ChannelNotFoundError] || isinstance e [YouTubeError]
  then (inr tt, set_last_error (Some (exn_msg e)) st)
  else (inl e, st).

(** The body of [_check_channel(channel_id)] on the state object
    [state = self._states[channel_id]]: the exception that escapes (if
    any), the state afterwards, and the actions taken. *)
Definition check_state (env : check_env) (st : ChannelState)
  : result unit * ChannelState * list action :=
  match status env with
  | inl e => (check_failed e st, [])
  | inr live =>
      let st := set_last_error None (set_last_check (checked_at env) st) in
      let was_live := is_live st in
      let current_video := current_video_id st in
      let '(res, st, acts) :=
        if YouTubeApi.is_live live && negb was_live then
          _start_recording env live st
        else if negb (YouTubeApi.is_live live) && was_live then
          let '(st, acts) := _stop_recording (stop_obs env) st in
          (inr tt, st, acts)
        else if YouTubeApi.is_live live && was_live then
          if negb (bool_decide (YouTubeApi.video_id live = current_video)) then
            let '(st, stopped) := _stop_recording (stop_obs env) st in
            let '(res, st, started) := _start_recording env live st in
            (res, st, stopped ++ started)
          else (inr tt, st, [])
        else (inr tt, st, []) in
      match res with
      | inr _ => (inr tt, set_is_live (YouTubeApi.is_live live) st, acts)
      | inl e => (check_failed e st, acts)
      end
  end.

(** A second passes for the capture process of this source. *)
Definition tick_state (st : ChannelState) : ChannelState :=
  {| config := config st; is_live := is_live st;
     is_recording := is_recording st;
     current_video_id := current_video_id st;
     current_title := current_title st;
     recorder := Recorder.elapse 1 <$> recorder st;
     last_check := last_check st;
     last_error := last_error st;
     recording_start_time := recording_start_time st |}.

End PerSource.

Record ChannelMonitor : Type := mk_ChannelMonitor {
  monitor_config : Config;
  cookies_from_browser : option string;
  cookies_file : option string;
  _states : gmap string ChannelState;
  _stop_event : bool
}.

(** [ChannelMonitor(config, cookies_from_browser, cookies_file)]. *)
Definition new (config : Config) (cookies_from_browser cookies_file : option string)
  : ChannelMonitor :=
  {| monitor_config := config;
     cookies_from_browser := cookies_from_browser;
     cookies_file := cookies_file;
     _states :=
       foldl (fun states ch => <[channel_id ch := initial_state ch]> states)
         ∅ (channels config);
     _stop_event := false |}.

Definition set_states (states : gmap string ChannelState) (m : ChannelMonitor)
  : ChannelMonitor :=
  mk_ChannelMonitor (monitor_config m) (cookies_from_browser m)
    (cookies_file m) states (_stop_event m).

(** [_check_channel(channel_id)]; [None] is the [KeyError] of
    [self._states[channel_id]] for an identifier that is not monitored. *)
Definition _check_channel (env : check_env) (channel_id : string)
    (m : ChannelMonitor) : option (result unit * ChannelMonitor * list action) :=
  match _states m !! channel_id with
  | None => None
  | Some st =>
      let '(res, st', acts) :=
        check_state (settings (monitor_config m))
          (cookies_from_browser m) (cookies_file m) env st in
      Some (res, set_states (<[channel_id := st']> (_states m)) m, acts)
  end.

(** [stop()]: sets the stop event and stops the recording of every source;
    [obs] gives what each [stop_recording] observes. *)
Definition stop (obs : string -> Recorder.stop_env) (m : ChannelMonitor)
  : ChannelMonitor :=
  mk_ChannelMonitor (monitor_config m) (cookies_from_browser m)
    (cookies_file m)
    (map_imap (fun id st => Some (fst (_stop_recording (obs id) st))) (_states m))
    true.

(** A second passes for every capture process. *)
Definition tick (m : ChannelMonitor) : ChannelMonitor :=
  set_states (tick_state <$> _states m) m.

(** One thing that happens to a monitor: a poll of a monitored source that
    returns normally or with an escaping exception, the passing of a
    second, or [stop()]. *)
Inductive step : ChannelMonitor -> ChannelMonitor -> Prop :=
| step_check env id m res m' acts :
    _check_channel env id m = Some (res, m', acts) -> step m m'
| step_tick m : step m (tick m)
| step_stop obs m : step m (stop obs m).

(** The monitors that can arise from a configuration. *)
Inductive reachable (config : Config) (cb cf : option string)
  : ChannelMonitor -> Prop :=
| reachable_new : reachable config cb cf (new config cb cf)
| reachable_step m m' :
    reachable config cb cf m -> step m m' -> reachable config cb cf m'.

(** The polls that [_monitor_channel(channel_id)] makes, one per element of
    [envs], until the stop event is set: an [Exception] that escapes a poll
    is logged and the loop goes on; anything else ends it. *)
Fixpoint _monitor_channel (envs : list check_env) (channel_id : string)
    (m : ChannelMonitor) : option (ChannelMonitor * list action) :=
  match envs with
  | [] => Some (m, [])
  | env :: envs' =>
      match _check_channel env channel_id m with
      | None => None
      | Some (inl e, m', acts) =>
          if isinstance e [Exception] then
            match _monitor_channel envs' channel_id m' with
            | Some (m'', acts') => Some (m'', acts ++ acts')
            | None => None
            end
          else Some (m', acts)
      | Some (inr _, m', acts) =>
          match _monitor_channel envs' channel_id m' with
          | Some (m'', acts') => Some (m'', acts ++ acts')
          | None => None
          end
      end
  end.

(** The source is marked live and recording the stream [id] with a Session
    Supervisor in place. *)
Definition recording_stream (st : ChannelState) (id : string) : Prop :=
  is_live st = true
  /\ is_recording st = true
  /\ current_video_id st = Some id
  /\ is_Some (recorder st).

(** The poll reports the source offline. *)
Definition reports_offline (env : check_env) : Prop :=
  exists live, status env = inr live /\ YouTubeApi.is_live live = false.

(** The poll reports the source live with the stream identifier [id]. *)
Definition reports_live (env : check_env) (id : string) : Prop :=
  exists live,
    status env = inr live
    /\ YouTubeApi.is_live live = true
    /\ YouTubeApi.video_id live = Some id.

(** Should the poll start a recording, the media URL is resolved, the disk
    has room, the capture process is spawned and its reader threads
    start. *)
Definition start_succeeds (env : check_env) : Prop :=
  (exists url, stream_url env = inr url)
  /\ Recorder.check_disk_space (Recorder.disk_free (start_obs env)) 500 = true
  /\ is_Some (Recorder.spawn (start_obs env))
  /\ Recorder.threads_start (start_obs env) = true.

(** The source's Session Supervisor owns a process handle. *)
Definition owns_process (st : ChannelState) : bool :=
  match recorder st with
  | Some r => bool_decide (is_Some (Recorder._process r))
  | None => false
  end.

(** The source's Session Supervisor owns a handle of a process that has not
    exited: [recorder.is_recording()]. *)
Definition owns_live_process (st : ChannelState) : bool :=
  match recorder st with
  | Some r => Recorder.is_recording r
  | None => false
  end.

(** [validate_config(config)]: [None] when it returns, the message of the
    [ConfigError] when it raises.  [writable] is the outcome of creating the
    output directory and a test file in it: [None], or the text of the
    [OSError]. *)
Definition validate_config (writable : option string) (config : Config)
  : option string :=
  match channels config with
  | [] => Some "At least one channel must be configured"
  | _ =>
      if (5 <? List.length (channels config))%nat then
        Some "Maximum 5 channels allowed"
      else
        let channel_ids := channel_id <$> channels config in
        let names := name <$> channels config in
        if negb (List.length channel_ids
                 =? size (list_to_set channel_ids : gset string))%nat then
          Some "Duplicate channel IDs found in configuration"
        else if negb (List.length names
                      =? size (list_to_set names : gset string))%nat then
          Some "Duplicate channel names found in configuration"
        else
          match writable with
          | Some e =>
              Some ("Output directory is not writable: "
                    +:+ output_dir (settings config) +:+ " (" +:+ e +:+ ")")
          | None => None
          end
  end.

Definition is_start (a : action) : bool :=
  match a with Start _ => true | Stop _ => false end.

Definition is_stop (a : action) : bool :=
  match a with Stop _ => true | Start _ => false end.

(** The recording flag agrees with the ownership of a process handle, and a
    source that is not recording, or not live, has no Session Supervisor. *)
Definition coherent (st : ChannelState) : Prop :=
  (is_recording st = true -> owns_process st = true)
  /\ (is_recording st = false -> recorder st = None)
  /\ (is_live st = false -> recorder st = None).

End Monitor.

(* ===================================================================== *)
(** ** Concrete runs                                                       *)
(* ===================================================================== *)
Module Scenarios.

Definition noon : Utils.datetime := Utils.mk_datetime 2024 1 1 12 0 0.

Definition idle_recorder : Recorder.StreamRecorder :=
  Recorder.new "recordings" "best" None None.

(** Plenty of disk space, and a capture process that runs for [seconds]
    seconds and whose reader threads start. *)
Definition spawns (seconds : nat) : Recorder.start_env :=
  Recorder.mk_start_env (Some 10000000000%Z) noon (Some seconds) noon true
    EmptyString.

(** Seconds for which the capture process of the [k]-th session runs: the
    first three have exited at the first poll, the fourth would run for five
    seconds. *)
Definition three_cycles_life (k : nat) : nat := if (k =? 3)%nat then 5%nat else 0%nat.

(** The source is reported live three times, once after each of the first
    three sessions, and offline ever after; every session leaves a file that
    is renamed. *)
Definition three_cycles : Recorder.reconnect_env :=
  {| Recorder.get_stream_url := fun _ => inr "https://example.invalid/fresh.m3u8";
     Recorder.check_is_live := fun k => inr (k <? 3)%nat;
     Recorder.start_envs := fun k => spawns (three_cycles_life k);
     Recorder.stop_envs := fun _ => Recorder.mk_stop_env true true |}.

(** The source is offline from the start and the only session leaves no
    file. *)
Definition no_file : Recorder.reconnect_env :=
  {| Recorder.get_stream_url := fun _ => inr "https://example.invalid/fresh.m3u8";
     Recorder.check_is_live := fun _ => inr false;
     Recorder.start_envs := fun _ => spawns 0;
     Recorder.stop_envs := fun _ => Recorder.mk_stop_env false true |}.

(** The run at the entry of [record_with_reconnect] on the idle recorder
    with [max_reconnects = 5]. *)
Definition first_pass : Recorder.run :=
  Recorder.mk_run (Recorder.set_progress 5 [] 0 idle_recorder) 0 0 0 0 0.

(** [RetryConfig(max_attempts=4, exponential_base=2.0**700)]. *)
Definition steep : Retry.RetryConfig :=
  Retry.mk_RetryConfig 4 1 30 (inject_Z (2 ^ 700)) true [Py.Exception].

(** The float [0.1]. *)
Definition tenth : Q := 3602879701896397 # 36028797018963968.

(** [RetryConfig(base_delay=0.1, exponential_base=3.0, jitter=False)]. *)
Definition tripling : Retry.RetryConfig :=
  Retry.mk_RetryConfig 3 tenth 30 3 false [Py.Exception].

(** An operation that raises [ValueError] at every invocation. *)
Definition always_fails (k : nat) : Py.result unit :=
  inl (Py.mk_exn Py.ValueError "bad" None).

(** One monitored source. *)
Definition one_channel : Monitor.Config :=
  Monitor.mk_Config [Monitor.mk_ChannelConfig "Channel" "UC0123456789"]
    (Monitor.mk_Settings "recordings" "best" "mp4" 60).

(** A poll that finds the source live on the stream [id] and starts a capture
    process that runs for [seconds] seconds. *)
Definition live_poll (id : string) (seconds : nat) : Monitor.check_env :=
  {| Monitor.status :=
       inr (YouTubeApi.mk_LiveStatus true (Some id) (Some "Stream") (Some "Channel"));
     Monitor.checked_at := noon;
     Monitor.stop_obs := Recorder.mk_stop_env true true;
     Monitor.stream_url := inr "https://example.invalid/live.m3u8";
     Monitor.start_obs := spawns seconds;
     Monitor.recording_started_at := noon |}.

(** A poll that finds the source offline. *)
Definition offline_poll : Monitor.check_env :=
  {| Monitor.status := inr (YouTubeApi.mk_LiveStatus false None None (Some "Channel"));
     Monitor.checked_at := noon;
     Monitor.stop_obs := Recorder.mk_stop_env true true;
     Monitor.stream_url := inr "https://example.invalid/live.m3u8";
     Monitor.start_obs := spawns 0;
     Monitor.recording_started_at := noon |}.

(** The state of the source of [one_channel] after a poll that started the
    recording of the stream AAAAAAAAAAA. *)
Definition recording_state : Monitor.ChannelState :=
  (Monitor.check_state (Monitor.settings one_channel) None None
     (live_poll "AAAAAAAAAAA" 30)
     (Monitor.initial_state (Monitor.mk_ChannelConfig "Channel" "UC0123456789"))).1.2.

(** The monitor of [one_channel] after a poll that started a capture process
    running for one second, and a second later. *)
Definition recording_monitor : Monitor.ChannelMonitor :=
  match Monitor._check_channel (live_poll "AAAAAAAAAAA" 1) "UC0123456789"
          (Monitor.new one_channel None None) with
  | Some (_, m, _) => m
  | None => Monitor.new one_channel None None
  end.

Definition exited_monitor : Monitor.ChannelMonitor := Monitor.tick recording_monitor.

(** The capture process is launched, to run for [seconds] seconds, and a
    reader thread cannot be started. *)
Definition threads_fail (seconds : nat) : Recorder.start_env :=
  Recorder.mk_start_env (Some 10000000000%Z) noon (Some seconds) noon false
    "can't start new thread".

(** One byte short of 500 MiB free. *)
Definition low_disk : Recorder.start_env :=
  Recorder.mk_start_env (Some 524287999%Z) noon (Some 60%nat) noon true
    EmptyString.

(** The run of a call on the idle recorder. *)
Definition fresh_run : Recorder.run := Recorder.mk_run idle_recorder 0 0 0 0 0.

(** The run of a call on a recorder that is recording already. *)
Definition busy_run : Recorder.run :=
  Recorder.mk_run
    (Recorder.start_recording (spawns 60) "https://example.invalid/live.m3u8"
       "Channel" idle_recorder).2
    0 0 0 0 0.

(** The source stays live, every capture process runs for ninety seconds
    and leaves a file that is renamed. *)
Definition long_sessions : Recorder.reconnect_env :=
  {| Recorder.get_stream_url := fun _ => inr "https://example.invalid/fresh.m3u8";
     Recorder.check_is_live := fun _ => inr true;
     Recorder.start_envs := fun _ => spawns 90;
     Recorder.stop_envs := fun _ => Recorder.mk_stop_env true true |}.

(** Every capture process is launched, to run for ninety seconds, and its
    reader threads cannot be started. *)
Definition readers_fail : Recorder.reconnect_env :=
  {| Recorder.get_stream_url := fun _ => inr "https://example.invalid/fresh.m3u8";
     Recorder.check_is_live := fun _ => inr true;
     Recorder.start_envs := fun _ => threads_fail 90;
     Recorder.stop_envs := fun _ => Recorder.mk_stop_env true true |}.

(** The capture program cannot be launched. *)
Definition launch_fails : Recorder.reconnect_env :=
  {| Recorder.get_stream_url := fun _ => inr "https://example.invalid/fresh.m3u8";
     Recorder.check_is_live := fun _ => inr true;
     Recorder.start_envs :=
       fun _ =>
         Recorder.mk_start_env (Some 10000000000%Z) noon None noon true
           "[Errno 2] No such file or directory: 'yt-dlp'";
     Recorder.stop_envs := fun _ => Recorder.mk_stop_env false true |}.

(** A poll that finds the source live on the stream [id] but cannot resolve
    its media URL. *)
Definition unresolved_poll (id : string) : Monitor.check_env :=
  {| Monitor.status :=
       inr (YouTubeApi.mk_LiveStatus true (Some id) (Some "Stream") (Some "Channel"));
     Monitor.checked_at := noon;
     Monitor.stop_obs := Recorder.mk_stop_env true true;
     Monitor.stream_url :=
       inl (Py.mk_exn Py.StreamUnavailableError "No stream URL returned" None);
     Monitor.start_obs := spawns 0;
     Monitor.recording_started_at := noon |}.

(** A poll whose liveness query fails. *)
Definition failed_poll : Monitor.check_env :=
  {| Monitor.status :=
       inl (Py.mk_exn Py.YouTubeError "Timeout while fetching video info" None);
     Monitor.checked_at := noon;
     Monitor.stop_obs := Recorder.mk_stop_env true true;
     Monitor.stream_url := inr "https://example.invalid/live.m3u8";
     Monitor.start_obs := spawns 0;
     Monitor.recording_started_at := noon |}.

(** The monitor of [one_channel] after a recording was started and the
    monitor was stopped. *)
Definition stopped_monitor : Monitor.ChannelMonitor :=
  Monitor.stop (fun _ => Recorder.mk_stop_env true true) recording_monitor.

End Scenarios.

(* ===================================================================== *)
(** * Properties                                                           *)
(* ===================================================================== *)

(** ** File names (src/utils.py) *)
Section FilenameFacts.
Import Utils.

Lemma has_reserved_app (a b : string) :
  has_reserved (a +:+ b) = has_reserved a || has_reserved b.
Proof.
  induction a as [|c a IH]; simpl; [reflexivity|].
  rewrite IH. apply orb_assoc.
Qed.

Lemma reserved_underscore : reserved "_" = false.
Proof. reflexivity. Qed.

Lemma has_reserved_re_sub (s : string) : has_reserved (re_sub_reserved s) = false.
Proof.
  induction s as [|c s IH]; simpl; [reflexivity|].
  rewrite IH, orb_false_r.
  destruct (reserved c) eqn:E; [reflexivity | exact E].
Qed.

Lemma has_reserved_lstrip (s : string) :
  has_reserved s = false -> has_reserved (lstrip s) = false.
Proof.
  induction s as [|c s IH]; simpl; [reflexivity|].
  intros H. apply orb_false_iff in H as [Hc Hs].
  destruct (strip_set c); [auto|]. simpl. now rewrite Hc, Hs.
Qed.

Lemma has_reserved_rstrip (s : string) :
  has_reserved s = false -> has_reserved (rstrip s) = false.
Proof.
  induction s as [|c s IH]; simpl; [reflexivity|].
  intros H. apply orb_false_iff in H as [Hc Hs].
  specialize (IH Hs).
  destruct (rstrip s) as [|d kept].
  - destruct (strip_set c); simpl; [reflexivity|]. now rewrite Hc.
  - change (has_reserved (String c (String d kept)))
      with (reserved c || has_reserved (String d kept)).
    now rewrite Hc, IH.
Qed.

Lemma has_reserved_substring (s : string) (n m : nat) :
  has_reserved s = false -> has_reserved (substring n m s) = false.
Proof.
  revert n m. induction s as [|c s IH]; intros n m H.
  - destruct n, m; reflexivity.
  - simpl in H. apply orb_false_iff in H as [Hc Hs].
    destruct n as [|n]; simpl.
    + destruct m as [|m]; simpl; [reflexivity|].
      now rewrite Hc, IH.
    + now apply IH.
Qed.

(** A sanitized name holds no reserved character. *)
Lemma sanitize_filename_clean (name : string) :
  has_reserved (sanitize_filename name) = false.
Proof.
  unfold sanitize_filename, strip.
  assert (Hs : has_reserved (rstrip (lstrip (re_sub_reserved name))) = false)
    by (apply has_reserved_rstrip, has_reserved_lstrip, has_reserved_re_sub).
  set (s := rstrip (lstrip (re_sub_reserved name))) in *.
  assert (Ht : has_reserved
                 (if (100 <? String.length s)%nat then substring 0 100 s else s)
               = false).
  { destruct (100 <? String.length s)%nat; [|exact Hs].
    now apply has_reserved_substring. }
  destruct (if (100 <? String.length s)%nat then substring 0 100 s else s);
    [reflexivity | exact Ht].
Qed.

Lemma digit_cases (n : nat) :
  exists k, (k < 10)%nat /\ digit n = ascii_of_nat (48 + k).
Proof.
  exists (n mod 10)%nat. split; [|reflexivity].
  apply Nat.mod_upper_bound. discriminate.
Qed.

Lemma digit_is_digit (n : nat) : is_digit (digit n) = true.
Proof.
  destruct (digit_cases n) as (k & Hk & ->).
  do 10 (destruct k as [|k]; [reflexivity|]). lia.
Qed.

Lemma digit_not_reserved (n : nat) : reserved (digit n) = false.
Proof.
  destruct (digit_cases n) as (k & Hk & ->).
  do 10 (destruct k as [|k]; [reflexivity|]). lia.
Qed.

Lemma strftime_is_timestamp (d : datetime) : is_timestamp (strftime d) = true.
Proof.
  unfold strftime, pad4, pad2, is_timestamp.
  cbv [String.append String.length substring all_digits].
  rewrite !digit_is_digit. reflexivity.
Qed.

Lemma strftime_clean (d : datetime) : has_reserved (strftime d) = false.
Proof.
  unfold strftime, pad4, pad2.
  cbv [String.append has_reserved].
  rewrite !digit_not_reserved. reflexivity.
Qed.

Lemma generate_filename_clean (now : datetime) (name ext : string) :
  has_reserved ext = false ->
  has_reserved (generate_filename now name ext) = false.
Proof.
  intros Hext. unfold generate_filename.
  rewrite !has_reserved_app, sanitize_filename_clean, strftime_clean, Hext.
  reflexivity.
Qed.

Lemma reserved_not_stripped (c : ascii) : reserved c = true -> strip_set c = false.
Proof.
  destruct c as [[] [] [] [] [] [] [] []]; try reflexivity; discriminate.
Qed.

Lemma strip_set_re_sub (c : ascii) :
  strip_set (if reserved c then "_"%char else c) = strip_set c.
Proof.
  destruct (reserved c) eqn:E; [|reflexivity].
  now rewrite (reserved_not_stripped c E).
Qed.

Lemma lstrip_re_sub (s : string) :
  lstrip (re_sub_reserved s) = re_sub_reserved (lstrip s).
Proof.
  induction s as [|c s IH]; [reflexivity|].
  cbn [re_sub_reserved lstrip]. rewrite strip_set_re_sub.
  destruct (strip_set c); [exact IH | reflexivity].
Qed.

Lemma rstrip_re_sub (s : string) :
  rstrip (re_sub_reserved s) = re_sub_reserved (rstrip s).
Proof.
  induction s as [|c s IH]; [reflexivity|].
  cbn [re_sub_reserved rstrip]. rewrite IH, strip_set_re_sub.
  destruct (rstrip s); cbn [re_sub_reserved]; [|reflexivity].
  destruct (strip_set c); reflexivity.
Qed.

Lemma re_sub_length (s : string) :
  String.length (re_sub_reserved s) = String.length s.
Proof. induction s as [|c s IH]; simpl; congruence. Qed.

Lemma re_sub_get (s : string) (i : nat) :
  String.get i (re_sub_reserved s)
  = option_map (fun c => if reserved c then "_"%char else c) (String.get i s).
Proof.
  revert i. induction s as [|c s IH]; intros i; [reflexivity|].
  destruct i as [|i]; [reflexivity|]. simpl. apply IH.
Qed.

(** A name that needs neither stripping nor cutting is sanitized by the
    replacement of its reserved characters alone. *)
Lemma sanitize_filename_replaces (name : string) :
  strip name = name -> name <> EmptyString -> (String.length name <= 100)%nat ->
  sanitize_filename name = re_sub_reserved name.
Proof.
  intros Hstrip Hne Hlen. unfold sanitize_filename.
  assert (E : strip (re_sub_reserved name) = re_sub_reserved name).
  { unfold strip in *. now rewrite lstrip_re_sub, rstrip_re_sub, Hstrip. }
  rewrite E, re_sub_length.
  destruct (Nat.ltb_spec 100 (String.length name)) as [H|_]; [lia|].
  destruct name; [congruence | reflexivity].
Qed.

Lemma decimal_pad2 (n : nat) : (n < 100)%nat -> decimal (pad2 n) = n.
Proof.
  intros H. do 100 (destruct n as [|n]; [reflexivity|]). lia.
Qed.

Lemma decimal_pad4 (n : nat) : (Z.of_nat n <= 9999)%Z -> decimal (pad4 n) = n.
Proof.
  intros H. unfold decimal, pad4, pad2, digit. cbn [decimal_from].
  rewrite !nat_ascii_embedding.
  2-5: pose proof (Nat.mod_upper_bound (n / 1000) 10);
       pose proof (Nat.mod_upper_bound (n / 100) 10);
       pose proof (Nat.mod_upper_bound (n / 10) 10);
       pose proof (Nat.mod_upper_bound n 10); lia.
  replace (48 + (n / 1000) mod 10 - 48)%nat with ((n / 1000) mod 10)%nat by lia.
  replace (48 + (n / 100) mod 10 - 48)%nat with ((n / 100) mod 10)%nat by lia.
  replace (48 + (n / 10) mod 10 - 48)%nat with ((n / 10) mod 10)%nat by lia.
  replace (48 + n mod 10 - 48)%nat with (n mod 10)%nat by lia.
  assert (Hn : (n < 10 * 1000)%nat) by lia.
  rewrite (Nat.mod_small (n / 1000)) by (apply Nat.Div0.div_lt_upper_bound; lia).
  pose proof (Nat.div_mod_eq n 10).
  pose proof (Nat.div_mod_eq (n / 10) 10).
  pose proof (Nat.div_mod_eq (n / 100) 10).
  replace (n / 100)%nat with (n / 10 / 10)%nat in *
    by (rewrite Nat.Div0.div_div; reflexivity).
  replace (n / 1000)%nat with (n / 10 / 10 / 10)%nat in *
    by (rewrite !Nat.Div0.div_div; reflexivity).
  lia.
Qed.

(** The stamp writes the six fields of the date in decimal. *)
Lemma strftime_decodes (d : datetime) :
  in_range d = true ->
  decimal (substring 0 4 (strftime d)) = year d
  /\ decimal (substring 4 2 (strftime d)) = month d
  /\ decimal (substring 6 2 (strftime d)) = day d
  /\ decimal (substring 9 2 (strftime d)) = hour d
  /\ decimal (substring 11 2 (strftime d)) = minute d
  /\ decimal (substring 13 2 (strftime d)) = second d.
Proof.
  unfold in_range. rewrite !andb_true_iff.
  intros ((((((((Hy0 & Hy) & Hm0) & Hm) & Hd0) & Hd) & Hh) & Hmi) & Hs).
  apply Nat.leb_le in Hm, Hd, Hh, Hmi, Hs. apply Z.leb_le in Hy.
  assert (E : forall a b c e f g : nat,
            let s := pad4 a +:+ pad2 b +:+ pad2 c +:+ "_"
                     +:+ pad2 e +:+ pad2 f +:+ pad2 g in
            substring 0 4 s = pad4 a /\ substring 4 2 s = pad2 b
            /\ substring 6 2 s = pad2 c /\ substring 9 2 s = pad2 e
            /\ substring 11 2 s = pad2 f /\ substring 13 2 s = pad2 g).
  { intros. repeat split; reflexivity. }
  destruct (E (year d) (month d) (day d) (hour d) (minute d) (second d))
    as (E1 & E2 & E3 & E4 & E5 & E6).
  unfold strftime. rewrite E1, E2, E3, E4, E5, E6.
  rewrite decimal_pad4 by exact Hy.
  rewrite !decimal_pad2 by lia.
  repeat split; reflexivity.
Qed.

(** C9. The source name of the example (Ch, slash, an, colon, nel, star) at
    2024-01-01 12:00:00 with extension [mp4] gives the file name
    [Ch_an_nel__20240101_120000.mp4], which holds no reserved character; a
    name with spaces and dots around it loses them, and a name of which
    nothing is left becomes [unknown].
    Every generated name is the sanitized source name, an underscore, a
    stamp, a dot and the extension.  The stamp has the shape
    YYYYMMDD_HHMMSS and its digits write the year, month, day, hour, minute
    and second of the date.  The sanitized name holds no reserved
    character; for a source name that needs neither stripping nor cutting
    it is the source name with every reserved character replaced by an
    underscore and every other character kept.  The extension is copied as
    it is given: the whole name holds no reserved character for the
    extension [mp4] that [start_recording] passes, and for every other
    extension that holds none itself. *)
Theorem generate_filename_format :
  generate_filename (mk_datetime 2024 1 1 12 0 0) "Ch/an:nel*" "mp4"
  = "Ch_an_nel__20240101_120000.mp4"
  /\ has_reserved "Ch_an_nel__20240101_120000.mp4" = false
  /\ generate_filename (mk_datetime 1999 12 31 23 59 58) " .My:Stream. " "mkv"
     = "My_Stream_19991231_235958.mkv"
  /\ generate_filename (mk_datetime 2024 1 1 12 0 0) " . " "mp4"
     = "unknown_20240101_120000.mp4"
  /\ forall (now : datetime) (name ext : string),
       generate_filename now name ext
       = sanitize_filename name +:+ "_" +:+ strftime now +:+ "." +:+ ext
       /\ is_timestamp (strftime now) = true
       /\ (in_range now = true ->
           decimal (substring 0 4 (strftime now)) = year now
           /\ decimal (substring 4 2 (strftime now)) = month now
           /\ decimal (substring 6 2 (strftime now)) = day now
           /\ decimal (substring 9 2 (strftime now)) = hour now
           /\ decimal (substring 11 2 (strftime now)) = minute now
           /\ decimal (substring 13 2 (strftime now)) = second now)
       /\ has_reserved (sanitize_filename name) = false
       /\ (strip name = name -> name <> EmptyString ->
           (String.length name <= 100)%nat ->
           forall i,
             String.get i (sanitize_filename name)
             = option_map (fun c => if reserved c then "_"%char else c)
                 (String.get i name))
       /\ has_reserved (generate_filename now name "mp4") = false
       /\ (has_reserved ext = false ->
           has_reserved (generate_filename now name ext) = false).
Proof.
  split; [reflexivity|]. split; [reflexivity|].
  split; [reflexivity|]. split; [reflexivity|].
  intros now name ext. split; [reflexivity|].
  split; [apply strftime_is_timestamp|].
  split; [apply strftime_decodes|].
  split; [apply sanitize_filename_clean|].
  split.
  { intros Hstrip Hne Hlen i.
    rewrite sanitize_filename_replaces by assumption. apply re_sub_get. }
  split; [now apply generate_filename_clean|].
  apply generate_filename_clean.
Qed.

Lemma generate_filename_format_witness :
  (in_range (mk_datetime 1999 12 31 23 59 58) = true
   /\ decimal (substring 0 4 (strftime (mk_datetime 1999 12 31 23 59 58))) = 1999%nat
   /\ decimal (substring 13 2 (strftime (mk_datetime 1999 12 31 23 59 58))) = 58%nat)
  /\ (strip "a<b>c" = "a<b>c"
      /\ String.get 1 (sanitize_filename "a<b>c") = Some "_"%char
      /\ String.get 2 (sanitize_filename "a<b>c") = Some "b"%char)
  /\ (has_reserved "mkv" = false
      /\ has_reserved
           (generate_filename (mk_datetime 1999 12 31 23 59 58) "a<b>c" "mkv")
         = false).
Proof.
  pose proof (proj2 (proj2 (proj2 (proj2 generate_filename_format)))
                (mk_datetime 1999 12 31 23 59 58) "a<b>c" "mkv")
    as (_ & _ & Hstamp & _ & Hname & _ & Hext).
  split.
  { split; [reflexivity|].
    destruct (Hstamp eq_refl) as (Hy & _ & _ & _ & _ & Hs).
    split; [exact Hy | exact Hs]. }
  split.
  { split; [reflexivity|].
    split; [exact (Hname eq_refl ltac:(discriminate) ltac:(simpl; lia) 1%nat)
           | exact (Hname eq_refl ltac:(discriminate) ltac:(simpl; lia) 2%nat)]. }
  split; [reflexivity | exact (Hext eq_refl)].
Defined.

(** C9, as stated, fails for an extension that holds a reserved character:
    the extension is copied into the name as it is. *)
Lemma generate_filename_reserved_extension :
  generate_filename (mk_datetime 2024 1 1 12 0 0) "Ch/an:nel*" "m:p4"
  = "Ch_an_nel__20240101_120000.m:p4"
  /\ has_reserved
       (generate_filename (mk_datetime 2024 1 1 12 0 0) "Ch/an:nel*" "m:p4")
     = true.
Proof. split; reflexivity. Qed.

End FilenameFacts.

(** ** Binary64 rounding *)
Section Logarithm.
Import Float.

Lemma two_nonzero : ~ 2 == 0.
Proof. discriminate. Qed.

Lemma pow2_pos (k : Z) : 0 < 2 ^ k.
Proof. apply Qpower_0_lt. reflexivity. Qed.

Lemma pow2_plus (j k : Z) : 2 ^ (j + k) == 2 ^ j * 2 ^ k.
Proof. apply Qpower_plus, two_nonzero. Qed.

Lemma pow2_lt (j k : Z) : (j < k)%Z -> 2 ^ j < 2 ^ k.
Proof. intros H. apply Qpower_lt_compat_l; [exact H | reflexivity]. Qed.

Lemma pow2_le (j k : Z) : (j <= k)%Z -> 2 ^ j <= 2 ^ k.
Proof. intros H. apply Qpower_le_compat_l; [exact H | discriminate]. Qed.

Lemma pow2_inject (k : Z) : (0 <= k)%Z -> inject_Z (2 ^ k) == 2 ^ k.
Proof. intros H. now rewrite Zpower_Qpower. Qed.

(** A number between two consecutive powers of two determines the
    exponent. *)
Lemma pow2_between (q : Q) (j k : Z) :
  2 ^ j <= q -> q < 2 ^ (j + 1) -> 2 ^ k <= q -> q < 2 ^ (k + 1) -> j = k.
Proof.
  intros Hj Hj' Hk Hk'.
  destruct (Z.lt_trichotomy j k) as [H|[H|H]]; [|exact H|].
  - exfalso. assert (2 ^ (j + 1) <= 2 ^ k) by (apply pow2_le; lia). lra.
  - exfalso. assert (2 ^ (k + 1) <= 2 ^ j) by (apply pow2_le; lia). lra.
Qed.

Lemma Qdiv_pow2_le (x y : Q) (e : Z) : x <= y -> x / 2 ^ e <= y / 2 ^ e.
Proof.
  intros H. unfold Qdiv. apply Qmult_le_compat_r; [exact H|].
  apply Qlt_le_weak, Qinv_lt_0_compat, pow2_pos.
Qed.

Lemma Qdiv_pow2_cancel (x : Q) (e : Z) : x / 2 ^ e * 2 ^ e == x.
Proof.
  unfold Qdiv. rewrite <- Qmult_assoc, (Qmult_comm (/ 2 ^ e)), Qmult_inv_r.
  - apply Qmult_1_r.
  - pose proof (pow2_pos e). lra.
Qed.

Lemma Qmul_pow2_cancel (x : Q) (e : Z) : x * 2 ^ e / 2 ^ e == x.
Proof.
  unfold Qdiv. rewrite <- Qmult_assoc, Qmult_inv_r.
  - apply Qmult_1_r.
  - pose proof (pow2_pos e). lra.
Qed.

Lemma ilog2_spec (q : Q) :
  0 < q -> 2 ^ ilog2 q <= q /\ q < 2 ^ (ilog2 q + 1).
Proof.
  intros Hq. destruct q as [n d]. unfold ilog2. cbn [Qnum Qden].
  assert (Hn : (0 < n)%Z).
  { unfold Qlt in Hq. simpl in Hq. lia. }
  pose proof (Z.log2_spec n Hn) as [Hn1 Hn2].
  pose proof (Z.log2_spec (Zpos d) ltac:(lia)) as [Hd1 Hd2].
  pose proof (Z.log2_nonneg n) as Ha.
  pose proof (Z.log2_nonneg (Zpos d)) as Hb.
  set (a := Z.log2 n) in *. set (b := Z.log2 (Zpos d)) in *.
  (* the bounds on numerator and denominator, as rationals *)
  assert (Qn1 : 2 ^ a <= inject_Z n).
  { rewrite <- pow2_inject by lia. rewrite <- Zle_Qle. exact Hn1. }
  assert (Qn2 : inject_Z n < 2 ^ (a + 1)).
  { rewrite <- pow2_inject by lia. rewrite <- Zlt_Qlt.
    replace (a + 1)%Z with (Z.succ a) by lia. exact Hn2. }
  assert (Qd1 : 2 ^ b <= inject_Z (Zpos d)).
  { rewrite <- pow2_inject by lia. rewrite <- Zle_Qle. exact Hd1. }
  assert (Qd2 : inject_Z (Zpos d) < 2 ^ (b + 1)).
  { rewrite <- pow2_inject by lia. rewrite <- Zlt_Qlt.
    replace (b + 1)%Z with (Z.succ b) by lia. exact Hd2. }
  (* q times its denominator is its numerator *)
  assert (Hqd : (n # d) * inject_Z (Zpos d) == inject_Z n).
  { unfold Qeq, Qmult, inject_Z. simpl. lia. }
  assert (Hdpos : 0 < inject_Z (Zpos d)) by (unfold Qlt; simpl; lia).
  assert (Hlow : 2 ^ (a - b - 1) < n # d).
  { apply Qnot_le_lt. intros H.
    assert ((n # d) * inject_Z (Zpos d) < 2 ^ (a - b - 1) * 2 ^ (b + 1)).
    { apply Qle_lt_trans with (2 ^ (a - b - 1) * inject_Z (Zpos d)).
      - apply Qmult_le_compat_r; [exact H | lra].
      - apply Qmult_lt_l; [apply pow2_pos | exact Qd2]. }
    rewrite <- pow2_plus in H0. replace (a - b - 1 + (b + 1))%Z with a in H0 by lia.
    lra. }
  assert (Hhigh : n # d < 2 ^ (a - b + 1)).
  { apply Qnot_le_lt. intros H.
    assert (2 ^ (a - b + 1) * 2 ^ b <= (n # d) * inject_Z (Zpos d)).
    { apply Qle_trans with (2 ^ (a - b + 1) * inject_Z (Zpos d)).
      - apply Qmult_le_l; [apply pow2_pos | exact Qd1].
      - apply Qmult_le_compat_r; [exact H | lra]. }
    rewrite <- pow2_plus in H0. replace (a - b + 1 + b)%Z with (a + 1)%Z in H0 by lia.
    lra. }
  destruct (Qle_bool (2 ^ (a - b)) (n # d)) eqn:Hcmp.
  - apply Qle_bool_iff in Hcmp. split; assumption.
  - assert (n # d < 2 ^ (a - b)).
    { apply Qnot_le_lt. intros H. apply Qle_bool_iff in H. congruence. }
    split.
    + apply Qlt_le_weak. exact Hlow.
    + replace (a - b - 1 + 1)%Z with (a - b)%Z by lia. exact H.
Qed.

Lemma ilog2_unique (q : Q) (k : Z) :
  2 ^ k <= q -> q < 2 ^ (k + 1) -> ilog2 q = k.
Proof.
  intros H1 H2.
  assert (Hq : 0 < q) by (pose proof (pow2_pos k); lra).
  destruct (ilog2_spec q Hq) as [H3 H4].
  now apply (pow2_between q).
Qed.

Lemma ilog2_eq (x y : Q) : 0 < x -> x == y -> ilog2 x = ilog2 y.
Proof.
  intros Hx E. destruct (ilog2_spec x Hx) as [H1 H2].
  symmetry. apply ilog2_unique; rewrite <- E; assumption.
Qed.

Lemma ilog2_le (x y : Q) : 0 < x -> x <= y -> (ilog2 x <= ilog2 y)%Z.
Proof.
  intros Hx Hxy.
  destruct (ilog2_spec x Hx) as [H1 _].
  destruct (ilog2_spec y ltac:(lra)) as [_ H2].
  destruct (Z_le_gt_dec (ilog2 x) (ilog2 y)) as [H|H]; [exact H|].
  exfalso. assert (2 ^ (ilog2 y + 1) <= 2 ^ ilog2 x) by (apply pow2_le; lia). lra.
Qed.

Lemma ilog2_pow2 (m : Q) (e k : Z) :
  2 ^ k <= m -> m < 2 ^ (k + 1) -> ilog2 (m * 2 ^ e) = (k + e)%Z.
Proof.
  intros H1 H2. pose proof (pow2_pos e) as He. apply ilog2_unique.
  - rewrite pow2_plus. apply Qmult_le_compat_r; [exact H1 | lra].
  - replace (k + e + 1)%Z with ((k + 1) + e)%Z by lia. rewrite pow2_plus.
    apply Qmult_lt_r; assumption.
Qed.

End Logarithm.

Section HalfEven.
Import Float.

Lemma Qle_bool_eq (a b c d : Q) : a == c -> b == d -> Qle_bool a b = Qle_bool c d.
Proof.
  intros E1 E2. destruct (Qle_bool a b) eqn:H1, (Qle_bool c d) eqn:H2; try reflexivity.
  - apply Qle_bool_iff in H1. rewrite E1, E2 in H1. apply Qle_bool_iff in H1. congruence.
  - apply Qle_bool_iff in H2. rewrite <- E1, <- E2 in H2. apply Qle_bool_iff in H2.
    congruence.
Qed.

Lemma Qeq_bool_eq (a b c d : Q) : a == c -> b == d -> Qeq_bool a b = Qeq_bool c d.
Proof.
  intros E1 E2. destruct (Qeq_bool a b) eqn:H1, (Qeq_bool c d) eqn:H2; try reflexivity.
  - apply Qeq_bool_iff in H1. rewrite E1, E2 in H1. apply Qeq_bool_iff in H1. congruence.
  - apply Qeq_bool_iff in H2. rewrite <- E1, <- E2 in H2. apply Qeq_bool_iff in H2.
    congruence.
Qed.

Lemma half_even_eq (s t : Q) : s == t -> half_even s = half_even t.
Proof.
  intros E. unfold half_even. rewrite (Qfloor_comp s t E).
  rewrite (Qle_bool_eq (s - inject_Z (Qfloor t)) (1 # 2)
             (t - inject_Z (Qfloor t)) (1 # 2)) by (rewrite ?E; reflexivity).
  rewrite (Qeq_bool_eq (s - inject_Z (Qfloor t)) (1 # 2)
             (t - inject_Z (Qfloor t)) (1 # 2)) by (rewrite ?E; reflexivity).
  reflexivity.
Qed.

Lemma half_even_floor (s : Q) :
  (Qfloor s <= half_even s <= Qfloor s + 1)%Z.
Proof.
  unfold half_even.
  destruct (Qle_bool _ _); [destruct (_ && _)|]; lia.
Qed.

Lemma half_even_Z (m : Z) : half_even (inject_Z m) = m.
Proof.
  unfold half_even. rewrite Qfloor_Z.
  rewrite (Qle_bool_eq (inject_Z m - inject_Z m) (1 # 2) 0 (1 # 2))
    by (try reflexivity; ring).
  rewrite (Qeq_bool_eq (inject_Z m - inject_Z m) (1 # 2) 0 (1 # 2))
    by (try reflexivity; ring).
  reflexivity.
Qed.

Lemma half_even_le (s t : Q) : s <= t -> (half_even s <= half_even t)%Z.
Proof.
  intros Hst.
  pose proof (Qfloor_resp_le s t Hst) as Hfl.
  pose proof (half_even_floor s) as [_ Hs].
  pose proof (half_even_floor t) as [Ht _].
  destruct (Z.eq_dec (Qfloor s) (Qfloor t)) as [E|NE]; [|lia].
  unfold half_even. rewrite E.
  set (b := Qfloor t) in *.
  destruct (Qle_bool (s - inject_Z b) (1 # 2)) eqn:Hs1;
    destruct (Qle_bool (t - inject_Z b) (1 # 2)) eqn:Ht1.
  - destruct (Qeq_bool (s - inject_Z b) (1 # 2)) eqn:Hs2;
      destruct (Qeq_bool (t - inject_Z b) (1 # 2)) eqn:Ht2;
      destruct (Z.odd b); simpl; try lia.
    exfalso. apply Qeq_bool_iff in Hs2. apply Qle_bool_iff in Ht1.
    apply Qeq_bool_neq in Ht2. apply Ht2. lra.
  - destruct (_ && _); lia.
  - exfalso. apply Qle_bool_iff in Ht1.
    assert (~ s - inject_Z b <= 1 # 2) by (intros H; apply Qle_bool_iff in H; congruence).
    lra.
  - lia.
Qed.

Lemma half_even_lower (s : Q) (a : Z) : inject_Z a <= s -> (a <= half_even s)%Z.
Proof.
  intros H. rewrite <- (half_even_Z a). now apply half_even_le.
Qed.

Lemma half_even_upper (s : Q) (b : Z) : s <= inject_Z b -> (half_even s <= b)%Z.
Proof.
  intros H. rewrite <- (half_even_Z b). now apply half_even_le.
Qed.

End HalfEven.

Section NearestEven.
Import Float.

Lemma exponent_eq (x y : Q) : 0 < x -> x == y -> exponent x = exponent y.
Proof. intros Hx E. unfold exponent. now rewrite (ilog2_eq x y Hx E). Qed.

Lemma exponent_le (x y : Q) : 0 < x -> x <= y -> (exponent x <= exponent y)%Z.
Proof.
  intros Hx Hxy. unfold exponent. pose proof (ilog2_le x y Hx Hxy). lia.
Qed.

Lemma exponent_low (x : Q) : (-1074 <= exponent x)%Z.
Proof. unfold exponent. lia. Qed.

Lemma scaled_upper (x : Q) : 0 < x -> x / 2 ^ exponent x < 2 ^ 53.
Proof.
  intros Hx. destruct (ilog2_spec x Hx) as [_ H].
  apply Qlt_shift_div_r; [apply pow2_pos|].
  rewrite <- pow2_plus.
  apply Qlt_le_trans with (2 ^ (ilog2 x + 1)); [exact H|].
  apply pow2_le. unfold exponent. lia.
Qed.

Lemma scaled_lower (x : Q) :
  0 < x -> (-1074 < exponent x)%Z -> 2 ^ 52 <= x / 2 ^ exponent x.
Proof.
  intros Hx He. destruct (ilog2_spec x Hx) as [H _].
  apply Qle_shift_div_l; [apply pow2_pos|].
  rewrite <- pow2_plus.
  replace (52 + exponent x)%Z with (ilog2 x) by (unfold exponent in *; lia).
  exact H.
Qed.

Lemma scaled_nonneg (x : Q) : 0 < x -> 0 <= x / 2 ^ exponent x.
Proof.
  intros Hx. apply Qle_shift_div_l; [apply pow2_pos|]. lra.
Qed.

Lemma round_magnitude_eq (x y : Q) :
  0 < x -> x == y -> round_magnitude x == round_magnitude y.
Proof.
  intros Hx E. unfold round_magnitude. rewrite (exponent_eq x y Hx E).
  rewrite (half_even_eq (x / 2 ^ exponent y) (y / 2 ^ exponent y))
    by (now rewrite E).
  reflexivity.
Qed.

Lemma round_magnitude_nonneg (x : Q) : 0 < x -> 0 <= round_magnitude x.
Proof.
  intros Hx. unfold round_magnitude.
  apply Qmult_le_0_compat; [|apply Qlt_le_weak, pow2_pos].
  change 0 with (inject_Z 0). rewrite <- Zle_Qle.
  apply half_even_lower. now apply scaled_nonneg.
Qed.

(** The rounded significand has at most 53 bits, and 53 of them above the
    least exponent. *)
Lemma significand_range (x : Q) :
  0 < x ->
  (0 <= half_even (x / 2 ^ exponent x) <= 2 ^ 53)%Z
  /\ ((-1074 < exponent x)%Z -> (2 ^ 52 <= half_even (x / 2 ^ exponent x))%Z).
Proof.
  intros Hx. split; [split|].
  - apply half_even_lower. now apply scaled_nonneg.
  - apply half_even_upper. rewrite pow2_inject by lia.
    apply Qlt_le_weak. now apply scaled_upper.
  - intros He. apply half_even_lower. rewrite pow2_inject by lia.
    now apply scaled_lower.
Qed.

Lemma round_magnitude_le (x y : Q) :
  0 < x -> x <= y -> round_magnitude x <= round_magnitude y.
Proof.
  intros Hx Hxy. assert (Hy : 0 < y) by lra.
  pose proof (exponent_le x y Hx Hxy) as He.
  unfold round_magnitude.
  destruct (Z.eq_dec (exponent x) (exponent y)) as [E|NE].
  - rewrite E. apply Qmult_le_compat_r; [|apply Qlt_le_weak, pow2_pos].
    rewrite <- Zle_Qle. apply half_even_le. now apply Qdiv_pow2_le.
  - assert (Hlt : (exponent x < exponent y)%Z) by lia.
    pose proof (exponent_low x) as Hlow.
    destruct (significand_range x Hx) as [[_ Hmx] _].
    destruct (significand_range y Hy) as [_ Hmy].
    specialize (Hmy ltac:(lia)).
    apply Qle_trans with (2 ^ 53 * 2 ^ exponent x).
    + apply Qmult_le_compat_r; [|apply Qlt_le_weak, pow2_pos].
      rewrite <- (pow2_inject 53) by lia. now rewrite <- Zle_Qle.
    + apply Qle_trans with (2 ^ 52 * 2 ^ exponent y).
      * rewrite <- !pow2_plus. apply pow2_le. lia.
      * apply Qmult_le_compat_r; [|apply Qlt_le_weak, pow2_pos].
        rewrite <- (pow2_inject 52) by lia. now rewrite <- Zle_Qle.
Qed.

(** A number with a significand of at most 53 bits, and 53 of them above
    the least exponent, is its own rounding. *)
Lemma round_magnitude_exact (m e : Z) :
  (0 < m <= 2 ^ 53)%Z -> (-1074 <= e)%Z -> ((-1074 < e)%Z -> (2 ^ 52 <= m)%Z) ->
  round_magnitude (inject_Z m * 2 ^ e) == inject_Z m * 2 ^ e.
Proof.
  intros [Hm0 Hm] He Hnormal.
  pose proof (pow2_pos e) as Hpe.
  destruct (Z.eq_dec m (2 ^ 53)) as [->|Hne].
  - assert (Eexp : exponent (inject_Z (2 ^ 53) * 2 ^ e) = (e + 1)%Z).
    { unfold exponent. rewrite (ilog2_pow2 _ e 53).
      - lia.
      - rewrite pow2_inject by lia. apply Qle_refl.
      - rewrite pow2_inject by lia. apply pow2_lt. lia. }
    unfold round_magnitude. rewrite Eexp.
    rewrite (half_even_eq _ (inject_Z (2 ^ 52))).
    + rewrite half_even_Z. rewrite !pow2_inject by lia. rewrite <- !pow2_plus.
      replace (52 + (e + 1))%Z with (53 + e)%Z by lia. reflexivity.
    + rewrite !pow2_inject by lia.
      apply Qle_antisym.
      * apply Qle_shift_div_r; [apply pow2_pos|].
        rewrite <- !pow2_plus. apply pow2_le. lia.
      * apply Qle_shift_div_l; [apply pow2_pos|].
        rewrite <- !pow2_plus. apply pow2_le. lia.
  - pose proof (Z.log2_spec m Hm0) as [Hk1 Hk2].
    pose proof (Z.log2_nonneg m) as Hk0.
    set (k := Z.log2 m) in *.
    assert (Hk : (k <= 52)%Z).
    { destruct (Z_le_gt_dec k 52) as [H|H]; [exact H|]. exfalso.
      assert (2 ^ 53 <= 2 ^ k)%Z by (apply Z.pow_le_mono_r; lia). lia. }
    assert (Hk' : ((-1074 < e)%Z -> k = 52%Z)).
    { intros H. specialize (Hnormal H).
      destruct (Z_le_gt_dec 52 k) as [H'|H']; [lia|]. exfalso.
      assert (2 ^ Z.succ k <= 2 ^ 52)%Z by (apply Z.pow_le_mono_r; lia). lia. }
    assert (Eexp : exponent (inject_Z m * 2 ^ e) = e).
    { unfold exponent. rewrite (ilog2_pow2 _ e k).
      - destruct (Z_le_gt_dec e (-1074)); [lia|]. rewrite Hk' by lia. lia.
      - rewrite <- (pow2_inject k) by lia. now rewrite <- Zle_Qle.
      - rewrite <- (pow2_inject (k + 1)) by lia. rewrite <- Zlt_Qlt.
        replace (k + 1)%Z with (Z.succ k) by lia. exact Hk2. }
    unfold round_magnitude. rewrite Eexp.
    rewrite (half_even_eq _ (inject_Z m)) by apply Qmul_pow2_cancel.
    now rewrite half_even_Z.
Qed.

Lemma nearest_even_eq (x y : Q) : x == y -> nearest_even x == nearest_even y.
Proof.
  intros E. unfold nearest_even.
  rewrite (Qeq_bool_eq x 0 y 0 E) by reflexivity.
  rewrite (Qle_bool_eq 0 x 0 y) by (try reflexivity; exact E).
  destruct (Qeq_bool y 0) eqn:H0; [reflexivity|].
  apply Qeq_bool_neq in H0.
  destruct (Qle_bool 0 y) eqn:H1.
  - apply Qle_bool_iff in H1. apply round_magnitude_eq; [|exact E].
    rewrite E. lra.
  - assert (y < 0).
    { apply Qnot_le_lt. intros H. apply Qle_bool_iff in H. congruence. }
    apply Qopp_comp. apply round_magnitude_eq; [rewrite E; lra | now rewrite E].
Qed.

Lemma nearest_even_zero (x : Q) : x == 0 -> nearest_even x = 0.
Proof.
  intros E. unfold nearest_even.
  now rewrite (proj2 (Qeq_bool_iff x 0) E).
Qed.

Lemma nearest_even_pos (x : Q) : 0 < x -> nearest_even x = round_magnitude x.
Proof.
  intros Hx. unfold nearest_even.
  destruct (Qeq_bool x 0) eqn:H0.
  { apply Qeq_bool_iff in H0. lra. }
  now rewrite (proj2 (Qle_bool_iff 0 x)) by lra.
Qed.

Lemma nearest_even_neg (x : Q) : x < 0 -> nearest_even x = - round_magnitude (- x).
Proof.
  intros Hx. unfold nearest_even.
  destruct (Qeq_bool x 0) eqn:H0.
  { apply Qeq_bool_iff in H0. lra. }
  destruct (Qle_bool 0 x) eqn:H1; [|reflexivity].
  apply Qle_bool_iff in H1. lra.
Qed.

Lemma sign_cases (x : Q) : x < 0 \/ x == 0 \/ 0 < x.
Proof.
  destruct (Qlt_le_dec x 0) as [H|H]; [now left|].
  destruct (Qlt_le_dec 0 x) as [H'|H']; [now right; right|].
  right. left. lra.
Qed.

Lemma nearest_even_opp (x : Q) : nearest_even (- x) == - nearest_even x.
Proof.
  destruct (sign_cases x) as [H|[H|H]].
  - rewrite (nearest_even_pos (- x)) by lra.
    rewrite (nearest_even_neg x H). ring.
  - rewrite (nearest_even_zero x H), (nearest_even_zero (- x)) by lra. reflexivity.
  - rewrite (nearest_even_neg (- x)) by lra.
    rewrite (nearest_even_pos x H).
    apply Qopp_comp. apply round_magnitude_eq; [lra | ring].
Qed.

Lemma nearest_even_nonneg (x : Q) : 0 <= x -> 0 <= nearest_even x.
Proof.
  intros Hx. destruct (sign_cases x) as [H|[H|H]]; [lra| |].
  - rewrite (nearest_even_zero x H). lra.
  - rewrite (nearest_even_pos x H). now apply round_magnitude_nonneg.
Qed.

Lemma nearest_even_le (x y : Q) : x <= y -> nearest_even x <= nearest_even y.
Proof.
  intros Hxy.
  destruct (sign_cases x) as [Hx|[Hx|Hx]].
  - destruct (sign_cases y) as [Hy|[Hy|Hy]].
    + rewrite (nearest_even_neg x Hx), (nearest_even_neg y Hy).
      apply Qopp_le_compat. apply round_magnitude_le; lra.
    + rewrite (nearest_even_neg x Hx), (nearest_even_zero y Hy).
      pose proof (round_magnitude_nonneg (- x) ltac:(lra)). lra.
    + rewrite (nearest_even_neg x Hx), (nearest_even_pos y Hy).
      pose proof (round_magnitude_nonneg (- x) ltac:(lra)).
      pose proof (round_magnitude_nonneg y Hy). lra.
  - rewrite (nearest_even_zero x Hx). apply nearest_even_nonneg. lra.
  - rewrite (nearest_even_pos x Hx), (nearest_even_pos y) by lra.
    now apply round_magnitude_le.
Qed.

(** The shape of a rounded number. *)
Lemma nearest_even_shape (x : Q) :
  0 <= x ->
  exists m e,
    (0 <= m <= 2 ^ 53)%Z /\ (-1074 <= e)%Z
    /\ ((-1074 < e)%Z -> (2 ^ 52 <= m)%Z)
    /\ nearest_even x == inject_Z m * 2 ^ e.
Proof.
  intros Hx. destruct (sign_cases x) as [H|[H|H]]; [lra| |].
  - exists 0%Z, (-1074)%Z. rewrite (nearest_even_zero x H).
    split; [lia|]. split; [lia|]. split; [lia|]. ring.
  - destruct (significand_range x H) as [Hm Hn].
    exists (half_even (x / 2 ^ exponent x)), (exponent x).
    rewrite (nearest_even_pos x H).
    split; [exact Hm|]. split; [apply exponent_low|]. split; [exact Hn|].
    reflexivity.
Qed.

Lemma nearest_even_exact (m e : Z) :
  (0 <= m <= 2 ^ 53)%Z -> (-1074 <= e)%Z -> ((-1074 < e)%Z -> (2 ^ 52 <= m)%Z) ->
  nearest_even (inject_Z m * 2 ^ e) == inject_Z m * 2 ^ e.
Proof.
  intros Hm He Hn. pose proof (pow2_pos e) as Hpe.
  destruct (Z.eq_dec m 0) as [->|Hm0].
  - rewrite nearest_even_zero; ring.
  - assert (0 < inject_Z m * 2 ^ e).
    { apply Qmult_lt_0_compat; [|exact Hpe].
      change 0 with (inject_Z 0). rewrite <- Zlt_Qlt. lia. }
    rewrite nearest_even_pos by assumption.
    apply round_magnitude_exact; [lia | exact He | exact Hn].
Qed.

Lemma nearest_even_rounded_nonneg (x : Q) :
  0 <= x -> nearest_even (nearest_even x) == nearest_even x.
Proof.
  intros Hx. destruct (nearest_even_shape x Hx) as (m & e & Hm & He & Hn & E).
  rewrite (nearest_even_eq _ _ E), E. now apply nearest_even_exact.
Qed.

Lemma nearest_even_rounded (x : Q) : nearest_even (nearest_even x) == nearest_even x.
Proof.
  destruct (Qlt_le_dec x 0) as [H|H]; [|now apply nearest_even_rounded_nonneg].
  assert (E : nearest_even x == - nearest_even (- x)).
  { rewrite nearest_even_opp. ring. }
  rewrite (nearest_even_eq _ _ E), nearest_even_opp, E.
  apply Qopp_comp. apply nearest_even_rounded_nonneg. lra.
Qed.

Lemma nearest_even_double_nonneg (x : Q) :
  0 <= x -> nearest_even (2 * nearest_even x) == 2 * nearest_even x.
Proof.
  intros Hx. destruct (nearest_even_shape x Hx) as (m & e & Hm & He & Hn & E).
  destruct (Z_le_gt_dec (2 ^ 52) m) as [Hbig|Hsmall].
  - assert (E2 : 2 * nearest_even x == inject_Z m * 2 ^ (e + 1)).
    { rewrite E, pow2_plus. change (2 ^ 1) with 2. ring. }
    rewrite (nearest_even_eq _ _ E2), E2.
    apply nearest_even_exact; lia.
  - assert (e = (-1074)%Z) by (destruct (Z.eq_dec e (-1074)); [assumption|lia]).
    assert (E2 : 2 * nearest_even x == inject_Z (2 * m) * 2 ^ e).
    { rewrite E, inject_Z_mult. ring. }
    rewrite (nearest_even_eq _ _ E2), E2.
    apply nearest_even_exact; lia.
Qed.

Lemma nearest_even_double (x : Q) :
  nearest_even (2 * nearest_even x) == 2 * nearest_even x.
Proof.
  destruct (Qlt_le_dec x 0) as [H|H]; [|now apply nearest_even_double_nonneg].
  assert (E : 2 * nearest_even x == - (2 * nearest_even (- x))).
  { rewrite nearest_even_opp. ring. }
  rewrite (nearest_even_eq _ _ E), nearest_even_opp, E.
  apply Qopp_comp. apply nearest_even_double_nonneg. lra.
Qed.

(** The arithmetic of IEEE 754 obeys the laws of rounding to nearest. *)
Lemma ieee_to_nearest : to_nearest ieee.
Proof.
  unfold to_nearest, ieee; cbn [round libm_pow].
  split; [exact nearest_even_le|].
  split; [exact nearest_even_rounded|].
  split; [exact nearest_even_opp|].
  split; [intros x _; apply nearest_even_double|].
  intros x y Hx. apply nearest_even_nonneg. now apply Qpower_0_le.
Qed.

End NearestEven.

(** ** Backoff and retry (src/retry.py) *)
Section RetryFacts.
Import Py Float Retry.

Section Rounding.
Variable R : rounding.
Hypothesis nearest : to_nearest R.

Lemma threshold_pos : 0 < overflow_threshold.
Proof. reflexivity. Qed.

Lemma round_le (x y : Q) : x <= y -> round R x <= round R y.
Proof. apply nearest. Qed.

Lemma round_eq (x y : Q) : x == y -> round R x == round R y.
Proof.
  intros E. apply Qle_antisym; apply round_le; rewrite E; apply Qle_refl.
Qed.

Lemma round_zero : round R 0 == 0.
Proof.
  destruct nearest as (_ & _ & Hodd & _).
  pose proof (Hodd 0) as H. rewrite (round_eq (- 0) 0) in H by reflexivity. lra.
Qed.

Lemma round_nonneg (x : Q) : 0 <= x -> 0 <= round R x.
Proof. intros H. rewrite <- round_zero. now apply round_le. Qed.

Lemma round_rounded (x : Q) : round R (round R x) == round R x.
Proof. apply nearest. Qed.

Lemma round_neg (x : Q) : round R (- x) == - round R x.
Proof. apply nearest. Qed.

Lemma round_double (x : Q) :
  Qabs (2 * round R x) < overflow_threshold ->
  round R (2 * round R x) == 2 * round R x.
Proof. apply nearest. Qed.

Lemma finish_fin (v : Q) :
  - overflow_threshold < v -> v < overflow_threshold ->
  finish R v = Fin (round R v).
Proof.
  intros Hlo Hhi. unfold finish.
  destruct (Qle_bool overflow_threshold v) eqn:H1.
  { apply Qle_bool_iff in H1. lra. }
  destruct (Qle_bool v (- overflow_threshold)) eqn:H2.
  { apply Qle_bool_iff in H2. lra. }
  reflexivity.
Qed.

Lemma finish_nonneg (v : Q) :
  0 <= v ->
  (overflow_threshold <= v /\ finish R v = PInf)
  \/ (v < overflow_threshold /\ finish R v = Fin (round R v)).
Proof.
  intros Hv. pose proof threshold_pos as HT. unfold finish.
  destruct (Qle_bool overflow_threshold v) eqn:H1.
  { apply Qle_bool_iff in H1. now left. }
  assert (v < overflow_threshold).
  { apply Qnot_le_lt. intros H. apply Qle_bool_iff in H. congruence. }
  destruct (Qle_bool v (- overflow_threshold)) eqn:H2.
  { apply Qle_bool_iff in H2. lra. }
  now right.
Qed.


(** A power of a base that is not negative is a finite float that is not
    negative. *)
Lemma pow_nonneg (b : Q) (n : Z) (p : float) :
  0 <= b -> pow R b n = inr p -> exists pq, p = Fin pq /\ 0 <= pq.
Proof.
  intros Hb. unfold pow.
  destruct (Qle_bool overflow_threshold (inject_Z (Z.abs n))); [discriminate|].
  destruct (n =? 0)%Z; [intros [= <-]; exists 1; split; [reflexivity|lra]|].
  destruct (Qeq_bool b 0).
  { destruct (n <? 0)%Z; [discriminate|].
    intros [= <-]. exists 0. split; [reflexivity|lra]. }
  destruct (Qeq_bool b 1); [intros [= <-]; exists 1; split; [reflexivity|lra]|].
  destruct (Qle_bool overflow_threshold (Qabs (b ^ n))); [discriminate|].
  intros [= <-]. eexists. split; [reflexivity|].
  now apply nearest.
Qed.

(** The product capped at the maximal delay. *)
Lemma capped_delay (base pq M : Q) :
  0 <= base -> 0 <= pq -> 0 <= M -> round R M == M ->
  exists q1,
    py_min (mul R (Fin base) (Fin pq)) (Fin M) = Fin q1
    /\ 0 <= q1 /\ q1 <= M /\ round R q1 == q1.
Proof.
  intros Hbase Hpq HM HrM. unfold py_min, mul.
  assert (Hprod : 0 <= base * pq) by now apply Qmult_le_0_compat.
  destruct (finish_nonneg (base * pq) Hprod) as [(_ & ->)|(_ & ->)]; simpl.
  - exists M. repeat split; [exact HM | apply Qle_refl | exact HrM].
  - destruct (Qle_bool (round R (base * pq)) M) eqn:Hle; simpl.
    + apply Qle_bool_iff in Hle. eexists. split; [reflexivity|].
      split; [now apply round_nonneg|]. split; [exact Hle|].
      now apply round_rounded.
    + exists M. repeat split; [exact HM | apply Qle_refl | exact HrM].
Qed.

(** The jittered delay is an infinity only when 1.25 times the maximal
    delay is one, and otherwise is at most that product, rounded. *)
Lemma jittered_delay (q1 M r : Q) :
  0 <= q1 -> q1 <= M -> round R q1 == q1 ->
  M < overflow_threshold ->
  round R (M * 0.25) == M * 0.25 ->
  0 <= r -> r <= 1 ->
  let j := mul R (Fin q1) (Fin 0.25) in
  (add R (Fin q1) (uniform R (neg j) j r) = PInf
   /\ overflow_threshold <= M * 1.25)
  \/ exists z,
       add R (Fin q1) (uniform R (neg j) j r) = Fin z
       /\ z <= round R (M * 1.25).
Proof.
  intros Hq0 HqM Hrq HMT Hquarter Hr0 Hr1 j.
  pose proof threshold_pos as HT.
  (* the jitter *)
  assert (Hj : j = Fin (round R (q1 * 0.25))).
  { unfold j, mul. apply finish_fin; lra. }
  set (jq := round R (q1 * 0.25)) in *.
  assert (Hjq0 : 0 <= jq) by (apply round_nonneg; lra).
  assert (HjqM : jq <= M * 0.25).
  { rewrite <- Hquarter. apply round_le; lra. }
  assert (Hjqr : round R jq == jq) by now apply round_rounded.
  rewrite Hj. unfold uniform, sub, neg.
  (* b - a *)
  assert (Hspan : add R (Fin jq) (Fin (- - jq)) = Fin (round R (jq + - - jq))).
  { unfold add. apply finish_fin; lra. }
  rewrite Hspan.
  set (s := round R (jq + - - jq)).
  assert (Hs : s == 2 * jq).
  { unfold s. rewrite (round_eq (jq + - - jq) (2 * round R (q1 * 0.25)))
      by (unfold jq; lra).
    apply round_double.
    fold jq. rewrite Qabs_pos by lra. lra. }
  (* (b - a) * r *)
  assert (Hsr0 : 0 <= s * r) by (apply Qmult_le_0_compat; lra).
  assert (Hsr1 : s * r <= s).
  { rewrite <- (Qmult_1_r s) at 2. rewrite !(Qmult_comm s).
    apply Qmult_le_compat_r; lra. }
  assert (Hw : mul R (Fin s) (Fin r) = Fin (round R (s * r))).
  { unfold mul. apply finish_fin; lra. }
  rewrite Hw.
  set (w := round R (s * r)).
  assert (Hw0 : 0 <= w) by now apply round_nonneg.
  assert (Hw1 : w <= 2 * jq).
  { unfold w. rewrite <- Hs.
    assert (Hss : round R s == s) by (unfold s; now apply round_rounded).
    rewrite <- Hss at 2. now apply round_le. }
  (* a + (b - a) * r *)
  assert (Hu : add R (Fin (- jq)) (Fin w) = Fin (round R (- jq + w))).
  { unfold add. apply finish_fin; lra. }
  rewrite Hu.
  set (u := round R (- jq + w)).
  assert (Hu0 : - jq <= u).
  { unfold u. rewrite <- Hjqr at 1. rewrite <- (round_neg).
    apply round_le; lra. }
  assert (Hu1 : u <= jq).
  { unfold u. rewrite <- Hjqr at 2. apply round_le; lra. }
  (* delay + uniform(...) *)
  assert (Hsum0 : - overflow_threshold < q1 + u) by lra.
  assert (Hsum1 : q1 + u <= M * 1.25) by lra.
  unfold add, finish.
  destruct (Qle_bool overflow_threshold (q1 + u)) eqn:H1.
  { apply Qle_bool_iff in H1. left. split; [reflexivity | lra]. }
  destruct (Qle_bool (q1 + u) (- overflow_threshold)) eqn:H2.
  { apply Qle_bool_iff in H2. lra. }
  right. eexists. split; [reflexivity|]. now apply round_le.
Qed.

(** The range of every delay that is computed. *)
Lemma calculate_delay_range (r : Q) (attempt : Z) (cfg : RetryConfig) (p : float) :
  0 <= base_delay cfg -> 0 <= max_delay cfg -> 0 <= exponential_base cfg ->
  binary64 R (max_delay cfg) ->
  round R (max_delay cfg * 0.25) == max_delay cfg * 0.25 ->
  0 <= r -> r <= 1 ->
  pow R (exponential_base cfg) attempt = inr p ->
  exists d,
    calculate_delay R r attempt cfg = inr d
    /\ le (Fin 0) d = true
    /\ le d (mul R (Fin (max_delay cfg)) (Fin 1.25)) = true
    /\ (jitter cfg = false ->
        same d (py_min (mul R (Fin (base_delay cfg)) p) (Fin (max_delay cfg)))).
Proof.
  intros Hbase HM Hb (HrM & HMabs) Hquarter Hr0 Hr1 Hpow.
  pose proof threshold_pos as HT.
  rewrite Qabs_pos in HMabs by exact HM.
  destruct (pow_nonneg _ _ _ Hb Hpow) as (pq & -> & Hpq).
  destruct (capped_delay (base_delay cfg) pq (max_delay cfg) Hbase Hpq HM HrM)
    as (q1 & Hcap & Hq0 & HqM & Hrq).
  unfold calculate_delay. rewrite Hpow, Hcap.
  (* the bound, as a float *)
  assert (Hbound : forall z, z <= round R (max_delay cfg * 1.25) ->
            le (Fin z) (mul R (Fin (max_delay cfg)) (Fin 1.25)) = true).
  { intros z Hz. unfold mul.
    destruct (finish_nonneg (max_delay cfg * 1.25) ltac:(lra)) as [(_ & ->)|(_ & ->)];
      [reflexivity|].
    simpl. now apply Qle_bool_iff. }
  assert (Hzero : 0 <= round R (max_delay cfg * 1.25))
    by (apply round_nonneg; lra).
  assert (Hmax : forall z, z <= round R (max_delay cfg * 1.25) ->
            le (Fin 0) (py_max (Fin 0) (Fin z)) = true
            /\ le (py_max (Fin 0) (Fin z)) (mul R (Fin (max_delay cfg)) (Fin 1.25))
               = true).
  { intros z Hz. unfold py_max. simpl.
    destruct (Qle_bool z 0) eqn:Hz0; simpl.
    - split; [reflexivity | now apply Hbound].
    - split; [|now apply Hbound].
      apply Qle_bool_iff. apply Qlt_le_weak, Qnot_le_lt.
      intros H. apply Qle_bool_iff in H. congruence. }
  destruct (jitter cfg) eqn:Hjit.
  - destruct (jittered_delay q1 (max_delay cfg) r Hq0 HqM Hrq HMabs Hquarter Hr0 Hr1)
      as [(-> & Hover)|(z & -> & Hz)].
    + eexists. split; [reflexivity|]. simpl.
      split; [reflexivity|]. split; [|discriminate].
      unfold mul, finish.
      now rewrite (proj2 (Qle_bool_iff _ _) Hover).
    + eexists. split; [reflexivity|].
      destruct (Hmax z Hz) as [H0 H1]. split; [exact H0|]. split; [exact H1|].
      discriminate.
  - eexists. split; [reflexivity|].
    assert (Hq1 : q1 <= round R (max_delay cfg * 1.25)).
    { apply Qle_trans with (max_delay cfg); [exact HqM|].
      rewrite <- HrM at 1. apply round_le; lra. }
    destruct (Hmax q1 Hq1) as [H0 H1]. split; [exact H0|]. split; [exact H1|].
    intros _. unfold py_max. simpl.
    destruct (Qle_bool q1 0) eqn:Hz0; simpl; [|reflexivity].
    apply Qle_bool_iff in Hz0. lra.
Qed.


End Rounding.

(** A delay is computed exactly when the power is. *)
Lemma calculate_delay_raises (R : rounding) (r : Q) (attempt : Z)
    (cfg : RetryConfig) (e : exn) :
  calculate_delay R r attempt cfg = inl e
  <-> pow R (exponential_base cfg) attempt = inl e.
Proof.
  unfold calculate_delay.
  destruct (pow R (exponential_base cfg) attempt); split; congruence.
Qed.

Lemma calculate_delay_defined (R : rounding) (r : Q) (attempt : Z)
    (cfg : RetryConfig) (power : float) :
  pow R (exponential_base cfg) attempt = inr power ->
  exists d, calculate_delay R r attempt cfg = inr d.
Proof.
  intros H. unfold calculate_delay. rewrite H. eexists. reflexivity.
Qed.

(** C5. In binary64 arithmetic that rounds to nearest, for a non-negative
    attempt number, non-negative base delay, maximal delay and exponential
    base, a maximal delay whose quarter is a binary64 number too, and
    whatever the random draw in the unit interval: when the power of the
    exponential base is computed (it is not when it overflows), a delay is
    returned, it lies between zero and the product of the maximal delay and
    1.25, and without jitter it is the minimum of the base delay times the
    power and of the maximal delay, each operation rounded. *)
Theorem calculate_delay_bounds (R : rounding) (r : Q) (attempt : Z)
    (cfg : RetryConfig) (power : float) :
  to_nearest R ->
  (0 <= attempt)%Z ->
  0 <= base_delay cfg -> 0 <= max_delay cfg -> 0 <= exponential_base cfg ->
  binary64 R (max_delay cfg) ->
  round R (max_delay cfg * 0.25) == max_delay cfg * 0.25 ->
  0 <= r -> r <= 1 ->
  pow R (exponential_base cfg) attempt = inr power ->
  exists delay,
    calculate_delay R r attempt cfg = inr delay
    /\ le (Fin 0) delay = true
    /\ le delay (mul R (Fin (max_delay cfg)) (Fin 1.25)) = true
    /\ (jitter cfg = false ->
        same delay
          (py_min (mul R (Fin (base_delay cfg)) power) (Fin (max_delay cfg)))).
Proof.
  intros Hnear _. now apply calculate_delay_range.
Qed.

Lemma calculate_delay_bounds_witness :
  exists delay,
    calculate_delay ieee (1 # 2) 3 NETWORK_RETRY = inr delay
    /\ le (Fin 0) delay = true
    /\ le delay (mul ieee (Fin (max_delay NETWORK_RETRY)) (Fin 1.25))
       = true.
Proof.
  destruct (calculate_delay_bounds Float.ieee (1 # 2) 3 NETWORK_RETRY
              (Fin (nearest_even (2 ^ 3))))
    as (delay & Hd & H0 & H1 & _).
  - exact ieee_to_nearest.
  - lia.
  - vm_compute; discriminate.
  - vm_compute; discriminate.
  - vm_compute; discriminate.
  - split; [reflexivity | vm_compute; reflexivity].
  - reflexivity.
  - vm_compute; discriminate.
  - vm_compute; discriminate.
  - reflexivity.
  - exists delay. split; [exact Hd|]. split; [exact H0 | exact H1].
Defined.

(** C5, as stated, fails in two ways.  At attempt 1024 the default
    configuration gives no delay: the power overflows and [OverflowError]
    is raised.  And without jitter the delay of attempt 1 for a base delay
    of [0.1] and an exponential base of [3.0] is the float nearest to their
    product, which differs from the product. *)
Lemma calculate_delay_overflows_and_rounds :
  calculate_delay ieee (1 # 2) 1024 default_config
  = inl (mk_exn OverflowError "(34, 'Numerical result out of range')" None)
  /\ exists delay,
       calculate_delay ieee 0 1 Scenarios.tripling = inr (Fin delay)
       /\ ~ delay
           == Qmin (base_delay Scenarios.tripling
                    * exponential_base Scenarios.tripling ^ 1)
                (max_delay Scenarios.tripling).
Proof.
  split; [vm_compute; reflexivity|].
  eexists. split; [vm_compute; reflexivity|].
  vm_compute. discriminate.
Qed.

Lemma invocations_app (l1 l2 : list event) :
  invocations (l1 ++ l2) = (invocations l1 + invocations l2)%nat.
Proof. unfold invocations. now rewrite List.filter_app, List.length_app. Qed.

Lemma invocations_call (attempt : Z) : invocations [EvCall attempt] = 1%nat.
Proof. reflexivity. Qed.

Lemma invocations_on_retry (attempt : Z) (e : exn) (d : float) :
  invocations [EvOnRetry attempt e d] = 0%nat.
Proof. reflexivity. Qed.

Lemma invocations_sleep (d : float) : invocations [EvSleep d] = 0%nat.
Proof. reflexivity. Qed.

Lemma invocations_nil : invocations [] = 0%nat.
Proof. reflexivity. Qed.

Create Rewrite HintDb calls.
#[local] Hint Rewrite invocations_app invocations_call invocations_on_retry
  invocations_sleep invocations_nil : calls.

Section Executor.
Context {A : Type}.
Variable R : rounding.
Variable func : nat -> result A.
Variable config : RetryConfig.
Variable observer : bool.
Variable rand : nat -> Q.

(** The log after the [on_retry] callback and the sleep holds as many
    invocations as before. *)
Lemma invocations_pause (log : list event) (attempt : Z) (e : exn) (d : float) :
  invocations
    ((if observer then (log ++ [EvCall attempt]) ++ [EvOnRetry (attempt + 1) e d]
      else log ++ [EvCall attempt]) ++ [EvSleep d])
  = S (invocations log).
Proof.
  destruct observer; autorewrite with calls; lia.
Qed.

Lemma retry_loop_invocations (remaining : nat) :
  forall attempt last log,
    (invocations (retry_loop R func config observer rand remaining attempt last log).2
     <= invocations log + remaining)%nat.
Proof.
  induction remaining as [|n IH]; intros attempt last log; simpl; [lia|].
  destruct (func (Z.to_nat attempt)) as [e|v]; simpl.
  - destruct (isinstance e (retryable_exceptions config)); simpl.
    + destruct (attempt <? max_attempts config - 1)%Z; simpl.
      * destruct (calculate_delay R (rand (Z.to_nat attempt)) attempt config)
          as [raised|d]; simpl.
        -- autorewrite with calls. lia.
        -- etransitivity; [apply IH|]. rewrite invocations_pause. lia.
      * autorewrite with calls. lia.
    + autorewrite with calls. lia.
  - autorewrite with calls. lia.
Qed.

(** A failure outside the retryable classes, met after [k] retryable
    failures whose delays are computed, leaves the loop at once. *)
Lemma retry_loop_propagates (k : nat) :
  forall remaining attempt last log e,
    (0 <= attempt)%Z ->
    (Z.of_nat remaining + attempt = max_attempts config)%Z ->
    (k < remaining)%nat ->
    delays_defined R config ->
    (forall j, (j < k)%nat ->
       exists e', func (Z.to_nat attempt + j) = inl e'
                 /\ isinstance e' (retryable_exceptions config) = true) ->
    func (Z.to_nat attempt + k) = inl e ->
    isinstance e (retryable_exceptions config) = false ->
    (retry_loop R func config observer rand remaining attempt last log).1 = inl e
    /\ invocations
         (retry_loop R func config observer rand remaining attempt last log).2
       = (invocations log + S k)%nat.
Proof.
  induction k as [|k IH];
    intros remaining attempt last log e Hatt Hinv Hk Hdef Hpre Hf Hnr.
  - destruct remaining as [|n]; [lia|]. simpl.
    rewrite Nat.add_0_r in Hf. rewrite Hf, Hnr. simpl.
    autorewrite with calls. split; [reflexivity | lia].
  - destruct remaining as [|n]; [lia|]. simpl.
    destruct (Hpre 0%nat ltac:(lia)) as (e0 & Hf0 & Hr0).
    rewrite Nat.add_0_r in Hf0. rewrite Hf0, Hr0.
    assert (Hlt : (attempt <? max_attempts config - 1)%Z = true)
      by (apply Z.ltb_lt; lia).
    rewrite Hlt.
    destruct (Hdef attempt ltac:(lia)) as (power & Hpow).
    destruct (calculate_delay_defined R (rand (Z.to_nat attempt)) _ _ _ Hpow)
      as (d & ->).
    assert (Hnext : Z.to_nat (attempt + 1) = S (Z.to_nat attempt)) by lia.
    edestruct (IH n (attempt + 1)%Z (Some e0)) as [Hres Hcnt];
      [lia | lia | lia | exact Hdef | | | exact Hnr | ].
    + intros j Hj. rewrite Hnext.
      destruct (Hpre (S j) ltac:(lia)) as (e' & He' & Hr').
      exists e'. split; [|exact Hr'].
      rewrite <- He'. f_equal. lia.
    + rewrite Hnext. rewrite <- Hf. f_equal. lia.
    + split; [exact Hres|]. rewrite Hcnt, invocations_pause. lia.
Qed.

(** When every remaining invocation fails with a retryable failure and the
    delays are computed, the loop ends with [RetryExhaustedError] around
    the last one. *)
Lemma retry_loop_exhausts (remaining : nat) :
  forall attempt last log e_last,
    (0 <= attempt)%Z ->
    (Z.of_nat remaining + attempt = max_attempts config)%Z ->
    (1 <= remaining)%nat ->
    delays_defined R config ->
    (forall j, (j < remaining)%nat ->
       exists e', func (Z.to_nat attempt + j) = inl e'
                 /\ isinstance e' (retryable_exceptions config) = true) ->
    func (Z.to_nat attempt + (remaining - 1)) = inl e_last ->
    (retry_loop R func config observer rand remaining attempt last log).1
    = inl (exhausted config (Some e_last))
    /\ invocations
         (retry_loop R func config observer rand remaining attempt last log).2
       = (invocations log + remaining)%nat.
Proof.
  induction remaining as [|n IH];
    intros attempt last log e_last Hatt Hinv Hn Hdef Hall Hlast; [lia|].
  simpl.
  destruct (Hall 0%nat ltac:(lia)) as (e0 & Hf0 & Hr0).
  rewrite Nat.add_0_r in Hf0. rewrite Hf0, Hr0.
  destruct n as [|n].
  - assert (Hlt : (attempt <? max_attempts config - 1)%Z = false)
      by (apply Z.ltb_ge; lia).
    rewrite Hlt. simpl.
    simpl in Hlast. rewrite Nat.add_0_r in Hlast.
    assert (e0 = e_last) by congruence. subst e0.
    autorewrite with calls. split; [reflexivity | lia].
  - assert (Hlt : (attempt <? max_attempts config - 1)%Z = true)
      by (apply Z.ltb_lt; lia).
    rewrite Hlt.
    destruct (Hdef attempt ltac:(lia)) as (power & Hpow).
    destruct (calculate_delay_defined R (rand (Z.to_nat attempt)) _ _ _ Hpow)
      as (d & ->).
    assert (Hnext : Z.to_nat (attempt + 1) = S (Z.to_nat attempt)) by lia.
    edestruct (IH (attempt + 1)%Z (Some e0)) as [Hres Hcnt];
      [lia | lia | lia | exact Hdef | | | ].
    + intros j Hj. rewrite Hnext.
      destruct (Hall (S j) ltac:(lia)) as (e' & He' & Hr').
      exists e'. split; [|exact Hr'].
      rewrite <- He'. f_equal. lia.
    + rewrite Hnext. rewrite <- Hlast. f_equal. lia.
    + split; [exact Hres|]. rewrite Hcnt, invocations_pause. lia.
Qed.

(** What the executor does when the delays are computed: it invokes the
    operation at most [max_attempts] times; a failure outside the
    retryable classes, met at the invocation of index [k] after [k]
    retryable failures, is its result and no further invocation is made;
    when all [max_attempts] invocations fail with retryable failures, the
    result is a [RetryExhaustedError] whose [last_exception] is the failure
    of the last invocation. *)
Lemma retry_with_backoff_outcome :
  (invocations (retry_with_backoff R func config observer rand).2
   <= Z.to_nat (max_attempts config))%nat
  /\ (delays_defined R config ->
      forall (k : nat) (e : exn),
        (Z.of_nat k < max_attempts config)%Z ->
        (forall j, (j < k)%nat ->
           exists e', func j = inl e'
                    /\ isinstance e' (retryable_exceptions config) = true) ->
        func k = inl e ->
        isinstance e (retryable_exceptions config) = false ->
        (retry_with_backoff R func config observer rand).1 = inl e
        /\ invocations (retry_with_backoff R func config observer rand).2 = S k)
  /\ (delays_defined R config ->
      forall (e_last : exn),
        (1 <= max_attempts config)%Z ->
        (forall j, (Z.of_nat j < max_attempts config)%Z ->
           exists e', func j = inl e'
                    /\ isinstance e' (retryable_exceptions config) = true) ->
        func (Z.to_nat (max_attempts config - 1)) = inl e_last ->
        exists raised,
          (retry_with_backoff R func config observer rand).1 = inl raised
          /\ exn_cls raised = RetryExhaustedError
          /\ last_exception raised = Some e_last
          /\ invocations (retry_with_backoff R func config observer rand).2
             = Z.to_nat (max_attempts config)).
Proof.
  unfold retry_with_backoff. split; [|split].
  - apply (retry_loop_invocations _ 0%Z None []).
  - intros Hdef k e Hk Hpre Hf Hnr.
    apply (retry_loop_propagates k); try assumption; try lia.
  - intros Hdef e_last Hmax Hall Hlast.
    exists (exhausted config (Some e_last)).
    destruct (retry_loop_exhausts (Z.to_nat (max_attempts config))
                0%Z None [] e_last) as [Hres Hcnt]; try lia; try assumption.
    + intros j Hj. apply Hall. lia.
    + rewrite <- Hlast. f_equal. lia.
    + repeat split; [exact Hres | exact Hcnt].
Qed.

End Executor.

(** C6 fails on the code.  With [max_attempts = 4] and an exponential base
    of [2.0 ** 700], an operation that raises [ValueError] at every
    invocation is invoked three times only: the delay after the third
    failure needs the square of the base, the power overflows inside the
    [except] block, and [OverflowError] leaves the executor in place of a
    fourth invocation and of [RetryExhaustedError].  This is so however the
    platform rounds and whatever the random draws. *)
Theorem retry_with_backoff_overflows (R : rounding) (observer : bool)
    (rand : nat -> Q) :
  (retry_with_backoff R Scenarios.always_fails Scenarios.steep observer rand).1
  = inl (mk_exn OverflowError "(34, 'Numerical result out of range')" None)
  /\ invocations
       (retry_with_backoff R Scenarios.always_fails Scenarios.steep observer
          rand).2
     = 3%nat
  /\ (forall k,
        exists e,
          Scenarios.always_fails k = inl e
          /\ isinstance e (retryable_exceptions Scenarios.steep) = true)
  /\ max_attempts Scenarios.steep = 4%Z.
Proof.
  split; [|split; [|split]].
  - destruct observer; vm_compute; reflexivity.
  - destruct observer; vm_compute; reflexivity.
  - intros k. eexists. split; reflexivity.
  - reflexivity.
Qed.

End RetryFacts.
(** ** The Session Supervisor (src/recorder.py) *)
Section SupervisorFacts.
Import Py Recorder.

(** C7. [start_recording] on a recorder that owns a process raises the
    [RecordingError] "Already recording" and leaves every field of the
    recorder as it was. *)
Theorem start_recording_twice (env : start_env) (stream_url channel_name : string)
    (r : StreamRecorder) :
  is_Some (_process r) ->
  start_recording env stream_url channel_name r = (inl AlreadyRecording, r).
Proof.
  intros [p Hp]. unfold start_recording. now rewrite Hp.
Qed.

(** A successful [start_recording] leaves the recorder owning a process. *)
Lemma start_recording_owns (env : start_env) (stream_url channel_name : string)
    (r r' : StreamRecorder) (path : Path) :
  start_recording env stream_url channel_name r = (inr path, r') ->
  _process r = None
  /\ exists seconds,
       spawn env = Some seconds
       /\ threads_start env = true
       /\ _process r'
          = Some (mk_Popen
                    (command r
                       (path_join (output_dir r)
                          ("." +:+ Utils.generate_filename (now env) channel_name "mp4"
                           +:+ ".tmp"))
                       stream_url)
                    seconds)
       /\ _current_file r' = Some path
       /\ _temp_file r'
          = Some (path_join (output_dir r)
                    ("." +:+ Utils.generate_filename (now env) channel_name "mp4"
                     +:+ ".tmp"))
       /\ _start_time r' = Some (started_at env)
       /\ _recording_parts r' = _recording_parts r
       /\ _reconnect_count r' = _reconnect_count r
       /\ _max_reconnects r' = _max_reconnects r.
Proof.
  unfold start_recording.
  destruct (_process r); [discriminate|].
  destruct (negb _); [discriminate|].
  destruct (spawn env) as [seconds|]; [|discriminate].
  destruct (threads_start env); [|discriminate].
  intros [= <- <-]. split; [reflexivity|].
  exists seconds. simpl. repeat split; reflexivity.
Qed.

Lemma start_recording_twice_witness :
  exists r path,
    start_recording
      (mk_start_env (Some 1000000000%Z) (Utils.mk_datetime 2024 1 1 12 0 0)
         (Some 60%nat) (Utils.mk_datetime 2024 1 1 12 0 0) true EmptyString)
      "https://example.invalid/live.m3u8" "Channel"
      (new "recordings" "best" None None) = (inr path, r)
    /\ start_recording
         (mk_start_env (Some 1000000000%Z) (Utils.mk_datetime 2024 1 1 12 0 5)
            (Some 60%nat) (Utils.mk_datetime 2024 1 1 12 0 5) true EmptyString)
         "https://example.invalid/live.m3u8" "Channel" r
       = (inl AlreadyRecording, r).
Proof.
  eexists. eexists. split; [reflexivity|].
  apply start_recording_twice. simpl. eexists. reflexivity.
Defined.

(** C8. [stop_recording] on a recorder that owns no process returns
    [None] and leaves the recorder as it was, however many times it is
    called in a row. *)
Theorem stop_recording_idle (envs : list stop_env) (r : StreamRecorder) :
  _process r = None ->
  stop_repeatedly envs r = (List.map (fun _ => None) envs, r)
  /\ forall env, stop_recording env r = (None, r).
Proof.
  intros Hidle.
  assert (Hone : forall env, stop_recording env r = (None, r))
    by (intros env; unfold stop_recording; now rewrite Hidle).
  split; [|exact Hone].
  induction envs as [|env envs IH]; simpl; [reflexivity|].
  now rewrite Hone, IH.
Qed.

Lemma stop_recording_idle_witness :
  stop_repeatedly
    [mk_stop_env true true; mk_stop_env false true; mk_stop_env true false]
    (new "recordings" "best" None None)
  = ([None; None; None], new "recordings" "best" None None).
Proof.
  apply (stop_recording_idle
           [mk_stop_env true true; mk_stop_env false true; mk_stop_env true false]
           (new "recordings" "best" None None)).
  reflexivity.
Defined.

End SupervisorFacts.

(** ** The reconnect loop (src/recorder.py) *)
Section ReconnectFacts.
Import Py Recorder.
Variable env : reconnect_env.

Lemma elapse_zero (r : StreamRecorder) : elapse 0 r = r.
Proof.
  unfold elapse. destruct r as [? ? ? ? [[a n]|] ? ? ? ? ? ? ? ? ? ?]; simpl;
    [|reflexivity].
  unfold set_process; simpl. now rewrite Nat.sub_0_r.
Qed.

Lemma elapse_elapse (a b : nat) (r : StreamRecorder) :
  elapse b (elapse a r) = elapse (a + b) r.
Proof.
  unfold elapse. destruct r as [? ? ? ? [[c n]|] ? ? ? ? ? ? ? ? ? ?]; simpl;
    [|reflexivity].
  unfold set_process; simpl. do 2 f_equal. f_equal. lia.
Qed.

Lemma elapse_idle (n : nat) (r : StreamRecorder) :
  _process r = None -> elapse n r = r.
Proof. unfold elapse. now intros ->. Qed.

Lemma poll_loop_live (n : nat) :
  forall w,
    (forall k, (k < n)%nat -> check_is_live env (live_calls w + k) = inr true) ->
    poll_loop env n w
    = (inr tt,
       mk_run (elapse n (recorder w)) (url_calls w) (live_calls w + n)
         (start_calls w) (stop_calls w) (slept w + n)).
Proof.
  induction n as [|n IH]; intros w Hlive.
  - simpl. unfold ret. rewrite elapse_zero, !Nat.add_0_r. now destruct w.
  - simpl. unfold bind, sleep, call_check_is_live. simpl.
    pose proof (Hlive 0%nat ltac:(lia)) as H0.
    rewrite Nat.add_0_r in H0. rewrite H0. simpl.
    rewrite IH.
    + simpl. rewrite elapse_elapse. f_equal. f_equal; lia.
    + intros k Hk. simpl. rewrite <- (Hlive (S k)) by lia. f_equal. lia.
Qed.



Lemma poll_loop_offline (n : nat) (w : run) :
  check_is_live env (live_calls w) = inr false ->
  exists k,
    poll_loop env n w
    = (inr tt,
       mk_run (elapse k (recorder w)) (url_calls w) (live_calls w + k)
         (start_calls w) (stop_calls w) (slept w + k)).
Proof.
  intros Hoff. destruct n as [|n].
  - exists 0%nat. simpl. unfold ret.
    rewrite elapse_zero, !Nat.add_0_r. now destruct w.
  - exists 1%nat. simpl. unfold bind, sleep, call_check_is_live. simpl.
    rewrite Hoff. simpl. unfold ret. f_equal. f_equal; lia.
Qed.

(** A session that starts, is polled while the source stays live until its
    process exits, and is followed by a live report with reconnects
    left. *)
Lemma iteration_interrupted (url name : string) (max : Z) (w : run) (n : nat) :
  _process (recorder w) = None ->
  check_disk_space (disk_free (start_envs env (start_calls w))) 500 = true ->
  spawn (start_envs env (start_calls w)) = Some n ->
  threads_start (start_envs env (start_calls w)) = true ->
  (exists u, get_stream_url env (url_calls w) = inr u) ->
  (forall k, (k <= n)%nat -> check_is_live env (live_calls w + k) = inr true) ->
  (_reconnect_count (recorder w) < max)%Z ->
  exists w' added,
    iteration env url name max w = (inr Continue, w')
    /\ _process (recorder w') = None
    /\ _reconnect_count (recorder w') = (_reconnect_count (recorder w) + 1)%Z
    /\ live_calls w' = (live_calls w + n + 1)%nat
    /\ start_calls w' = S (start_calls w)
    /\ stop_calls w' = S (stop_calls w)
    /\ _recording_parts (recorder w') = _recording_parts (recorder w) ++ added
    /\ List.length added = Nat.b2n (temp_exists (stop_envs env (stop_calls w))).
Proof.
  intros Hidle Hdisk Hspawn Hthreads [u Hu] Hlive Hcount.
  destruct w as [r uc lc sc tc sl].
  destruct r as [od q cb cf pr st cur tmp ev cn su rc mr parts th].
  simpl in *. subst pr.
  assert (Hpost : check_is_live env (lc + n) = inr true) by (apply Hlive; lia).
  assert (Hlt : (rc <? max)%Z = true) by (apply Z.ltb_lt; lia).
  unfold iteration, try_except, bind, start_session, bind, get_recorder,
    call_get_stream_url, do_start, start_recording.
  simpl.
  destruct (rc =? 0)%Z; simpl; rewrite ?Hu; simpl;
    rewrite ?Hdisk, ?Hspawn, ?Hthreads; simpl.
  all: unfold monitor_recording, bind, get_recorder; simpl.
  all: rewrite poll_loop_live by (intros k Hk; apply Hlive; simpl; lia).
  all: unfold elapse, set_process, collect_part, bind, do_stop, stop_recording.
  all: simpl.
  all: destruct (temp_exists (stop_envs env tc)); simpl.
  all: try destruct (rename_ok (stop_envs env tc)); simpl.
  all: unfold next_step, bind, call_check_is_live, get_recorder; simpl.
  all: rewrite Hpost; simpl; rewrite Hlt; simpl.
  all: eexists; eexists; repeat split; try reflexivity.
  all: simpl; try lia.
  all: try (symmetry; apply app_nil_r).
  all: reflexivity.
Qed.

(** A session that starts once the source has gone offline for good. *)
Lemma iteration_offline (url name : string) (max : Z) (w : run) (n : nat) :
  _process (recorder w) = None ->
  check_disk_space (disk_free (start_envs env (start_calls w))) 500 = true ->
  spawn (start_envs env (start_calls w)) = Some n ->
  threads_start (start_envs env (start_calls w)) = true ->
  (exists u, get_stream_url env (url_calls w) = inr u) ->
  (forall k, check_is_live env (live_calls w + k) = inr false) ->
  exists w' added,
    iteration env url name max w = (inr Break, w')
    /\ _process (recorder w') = None
    /\ _reconnect_count (recorder w') = _reconnect_count (recorder w)
    /\ start_calls w' = S (start_calls w)
    /\ stop_calls w' = S (stop_calls w)
    /\ _recording_parts (recorder w') = _recording_parts (recorder w) ++ added
    /\ List.length added = Nat.b2n (temp_exists (stop_envs env (stop_calls w))).
Proof.
  intros Hidle Hdisk Hspawn Hthreads [u Hu] Hoff.
  destruct w as [r uc lc sc tc sl].
  destruct r as [od q cb cf pr st cur tmp ev cn su rc mr parts th].
  simpl in *. subst pr.
  unfold iteration, try_except, bind, start_session, bind, get_recorder,
    call_get_stream_url, do_start, start_recording.
  simpl.
  destruct (rc =? 0)%Z; simpl; rewrite ?Hu; simpl;
    rewrite ?Hdisk, ?Hspawn, ?Hthreads; simpl.
  all: unfold monitor_recording, bind, get_recorder; simpl.
  all: match goal with
       | |- context [poll_loop _ ?n0 ?w0] =>
           destruct (poll_loop_offline n0 w0) as [k ->];
             [simpl; rewrite <- (Hoff 0%nat); f_equal; lia|]
       end.
  all: unfold elapse, set_process, collect_part, bind, do_stop, stop_recording.
  all: simpl.
  all: destruct (temp_exists (stop_envs env tc)); simpl.
  all: try destruct (rename_ok (stop_envs env tc)); simpl.
  all: unfold next_step, bind, call_check_is_live, get_recorder; simpl.
  all: rewrite Hoff; simpl.
  all: eexists; eexists; repeat split; try reflexivity.
  all: simpl; try lia.
  all: try (symmetry; apply app_nil_r).
  all: reflexivity.
Qed.

Lemma reconnect_loop_continue (fuel : nat) (url name : string) (max : Z)
    (w w' : run) :
  (_reconnect_count (recorder w) <= max)%Z ->
  iteration env url name max w = (inr Continue, w') ->
  reconnect_loop env (S fuel) url name max w
  = reconnect_loop env fuel url name max w'.
Proof.
  intros Hle Hit. simpl.
  rewrite (proj2 (Z.leb_le _ _) Hle), Hit. reflexivity.
Qed.

Lemma reconnect_loop_break (fuel : nat) (url name : string) (max : Z)
    (w w' : run) :
  (_reconnect_count (recorder w) <= max)%Z ->
  iteration env url name max w = (inr Break, w') ->
  reconnect_loop env (S fuel) url name max w = Some (inr tt, w').
Proof.
  intros Hle Hit. simpl.
  rewrite (proj2 (Z.leb_le _ _) Hle), Hit. reflexivity.
Qed.

Section ThreeInterruptions.
(** The scenario: the recorder is idle; every [start_recording] succeeds
    (it finds enough disk space, spawns a process, the [k]-th of which runs
    for [life k] seconds, and starts its reader threads); every
    [get_stream_url] returns a URL; [check_is_live] reports live throughout
    the first three sessions and after each of them, and offline ever
    after. *)
Variable life : nat -> nat.
Variables (url name : string) (r : StreamRecorder).
Hypothesis idle : _process r = None.
Hypothesis starts :
  forall k,
    check_disk_space (disk_free (start_envs env k)) 500 = true
    /\ spawn (start_envs env k) = Some (life k)
    /\ threads_start (start_envs env k) = true.
Hypothesis urls : forall k, exists u, get_stream_url env k = inr u.
Hypothesis live :
  forall k,
    check_is_live env k = inr (k <? life 0 + life 1 + life 2 + 3)%nat.

(** C1, as the code has it.  On an idle recorder, when every
    [start_recording] succeeds and every [get_stream_url] returns a URL,
    with [max_reconnects = 5], a source reported live through three
    interruptions and offline ever after makes the loop return after three
    restarts: the reconnect counter ends at 3 and four sessions were
    started and stopped.  The returned list has one element for each of
    the four sessions that left a file, hence at most four, and exactly
    four when every session left one. *)
Theorem three_interruptions :
  exists parts w,
    record_with_reconnect env url name 5 r = Some (inr parts, w)
    /\ _reconnect_count (recorder w) = 3%Z
    /\ start_calls w = 4%nat
    /\ stop_calls w = 4%nat
    /\ List.length parts = sessions_with_file env 4
    /\ (List.length parts <= 4)%nat
    /\ ((forall k, (k < 4)%nat -> temp_exists (stop_envs env k) = true) ->
        List.length parts = 4%nat).
Proof.
  unfold record_with_reconnect.
  change (Z.to_nat (5 + 1)) with 6%nat.
  set (w0 := mk_run (set_progress 5 [] 0 r) 0 0 0 0 0).
  assert (Hlive_at : forall n, (n < life 0 + life 1 + life 2 + 3)%nat ->
            check_is_live env n = inr true).
  { intros n Hn. rewrite live. f_equal. now apply Nat.ltb_lt. }
  assert (Hoff_at : forall n, (life 0 + life 1 + life 2 + 3 <= n)%nat ->
            check_is_live env n = inr false).
  { intros n Hn. rewrite live. f_equal. now apply Nat.ltb_ge. }
  destruct (iteration_interrupted url name 5 w0 (life 0))
    as (w1 & a1 & Hit1 & Hp1 & Hc1 & Hl1 & Hs1 & Ht1 & Hparts1 & Hlen1);
    [exact idle | apply starts | apply starts | apply starts | apply urls
    | intros k Hk; apply Hlive_at; simpl; lia | simpl; lia |].
  simpl in Hc1, Hl1, Hs1, Ht1, Hparts1, Hlen1.
  destruct (iteration_interrupted url name 5 w1 (life 1))
    as (w2 & a2 & Hit2 & Hp2 & Hc2 & Hl2 & Hs2 & Ht2 & Hparts2 & Hlen2);
    [exact Hp1 | rewrite Hs1; apply starts | rewrite Hs1; apply starts
    | rewrite Hs1; apply starts
    | apply urls | intros k Hk; apply Hlive_at; lia | lia |].
  destruct (iteration_interrupted url name 5 w2 (life 2))
    as (w3 & a3 & Hit3 & Hp3 & Hc3 & Hl3 & Hs3 & Ht3 & Hparts3 & Hlen3);
    [exact Hp2 | rewrite Hs2, Hs1; apply starts
    | rewrite Hs2, Hs1; apply starts | rewrite Hs2, Hs1; apply starts
    | apply urls | intros k Hk; apply Hlive_at; lia | lia |].
  destruct (iteration_offline url name 5 w3 (life 3))
    as (w4 & a4 & Hit4 & Hp4 & Hc4 & Hs4 & Ht4 & Hparts4 & Hlen4);
    [exact Hp3 | rewrite Hs3, Hs2, Hs1; apply starts
    | rewrite Hs3, Hs2, Hs1; apply starts | rewrite Hs3, Hs2, Hs1; apply starts
    | apply urls | intros k; apply Hoff_at; lia |].
  assert (Hc0 : _reconnect_count (recorder w0) = 0%Z) by reflexivity.
  rewrite (reconnect_loop_continue 5 url name 5 w0 w1 ltac:(lia) Hit1).
  rewrite (reconnect_loop_continue 4 url name 5 w1 w2 ltac:(lia) Hit2).
  rewrite (reconnect_loop_continue 3 url name 5 w2 w3 ltac:(lia) Hit3).
  rewrite (reconnect_loop_break 2 url name 5 w3 w4 ltac:(lia) Hit4).
  exists (_recording_parts (recorder w4)), w4.
  assert (Hlen : List.length (_recording_parts (recorder w4))
                 = sessions_with_file env 4).
  { rewrite Hparts4, Hparts3, Hparts2, Hparts1. simpl.
    rewrite !List.length_app, Hlen1, Hlen2, Hlen3, Hlen4.
    rewrite Ht1, Ht2, Ht3, Ht1, Ht2, Ht1.
    unfold sessions_with_file. simpl.
    destruct (temp_exists (stop_envs env 0)), (temp_exists (stop_envs env 1)),
      (temp_exists (stop_envs env 2)), (temp_exists (stop_envs env 3));
      reflexivity. }
  split; [reflexivity|]. split; [lia|]. split; [lia|]. split; [lia|].
  split; [exact Hlen|].
  rewrite Hlen. unfold sessions_with_file. split.
  - etransitivity; [apply List.filter_length_le|]. reflexivity.
  - intros Hall. simpl. now rewrite !Hall by lia.
Qed.

End ThreeInterruptions.

End ReconnectFacts.

Lemma three_interruptions_witness :
  exists parts w,
    Recorder.record_with_reconnect Scenarios.three_cycles
      "https://example.invalid/first.m3u8" "Channel" 5 Scenarios.idle_recorder
    = Some (inr parts, w)
    /\ Recorder._reconnect_count (Recorder.recorder w) = 3%Z
    /\ Recorder.start_calls w = 4%nat
    /\ Recorder.stop_calls w = 4%nat
    /\ List.length parts = Recorder.sessions_with_file Scenarios.three_cycles 4
    /\ (List.length parts <= 4)%nat
    /\ ((forall k, (k < 4)%nat ->
           Recorder.temp_exists (Recorder.stop_envs Scenarios.three_cycles k) = true) ->
        List.length parts = 4%nat).
Proof.
  apply (three_interruptions Scenarios.three_cycles Scenarios.three_cycles_life).
  - reflexivity.
  - intros k. split; [|split]; reflexivity.
  - intros k. eexists. reflexivity.
  - intros k. reflexivity.
Defined.

(** C1, as stated, fails: in the run [three_cycles] the source is reported
    live at exactly three interruptions and offline ever after (the fourth
    session is cut short by the first offline report), the loop returns
    after three restarts, and the list it returns has four elements. *)
Lemma three_interruptions_four_parts :
  exists parts w,
    Recorder.record_with_reconnect Scenarios.three_cycles
      "https://example.invalid/first.m3u8" "Channel" 5 Scenarios.idle_recorder
    = Some (inr parts, w)
    /\ Recorder._reconnect_count (Recorder.recorder w) = 3%Z
    /\ List.length parts = 4%nat
    /\ List.length parts <> 3%nat.
Proof.
  eexists. eexists. split; [vm_compute; reflexivity|].
  split; [reflexivity|]. split; [reflexivity|]. discriminate.
Qed.

(** ** Liveness checks (src/youtube_api.py) *)
Section LivenessFacts.
Import Py YouTubeApi.
Variable get_video_info : string -> result json.

Lemma ChannelNotFoundError_is_YouTubeError (msg : string) (cause : option exn) :
  isinstance (mk_exn ChannelNotFoundError msg cause) [YouTubeError] = true.
Proof. reflexivity. Qed.

(** C10. [check_live_status] never raises a [YouTubeError]: when
    [get_video_info] raises one, whatever its subclass and message, the
    function returns the status with [is_live] false and no video
    identifier, title or channel name.  [get_channel_live_status] on a
    non-empty channel identifier raises a [YouTubeError] in the same
    situation: [ChannelNotFoundError] or the failure itself. *)
Theorem check_live_status_absorbs (video_id : string) :
  (forall e,
     check_live_status get_video_info video_id = inl e ->
     isinstance e [YouTubeError] = false)
  /\ (forall e,
        get_video_info ("https://www.youtube.com/watch?v=" +:+ video_id) = inl e ->
        isinstance e [YouTubeError] = true ->
        check_live_status get_video_info video_id
        = inr (mk_LiveStatus false None None None))
  /\ (forall channel_id e,
        channel_id <> EmptyString ->
        get_video_info
          ("https://www.youtube.com/channel/" +:+ channel_id +:+ "/live") = inl e ->
        isinstance e [YouTubeError] = true ->
        exists raised,
          get_channel_live_status get_video_info channel_id = inl raised
          /\ isinstance raised [YouTubeError] = true
          /\ (raised = e
              \/ raised = mk_exn ChannelNotFoundError
                            ("Channel not found: " +:+ channel_id) None)).
Proof.
  split; [|split].
  - intros e. unfold check_live_status.
    destruct (get_video_info _) as [e0|[info| | | | | |]];
      [|discriminate|intros [= <-]; reflexivity..].
    destruct (isinstance e0 [YouTubeError]) eqn:He0; [discriminate|].
    now intros [= <-].
  - intros e Hfetch Hyt. unfold check_live_status. now rewrite Hfetch, Hyt.
  - intros channel_id e Hne Hfetch Hyt. unfold get_channel_live_status.
    rewrite (proj2 (String.eqb_neq _ _) Hne), Hfetch, Hyt.
    destruct (existsb _ _).
    + eexists. split; [reflexivity|]. split; [reflexivity | now right].
    + exists e. split; [reflexivity|]. split; [exact Hyt | now left].
Qed.

End LivenessFacts.

Lemma check_live_status_absorbs_witness :
  YouTubeApi.check_live_status
    (fun _ => inl (Py.mk_exn Py.YouTubeError "yt-dlp failed: ERROR: Video unavailable" None))
    "dQw4w9WgXcQ"
  = inr (YouTubeApi.mk_LiveStatus false None None None)
  /\ exists raised,
       YouTubeApi.get_channel_live_status
         (fun _ => inl (Py.mk_exn Py.YouTubeError "yt-dlp failed: ERROR: Video unavailable" None))
         "UC0123456789" = inl raised
       /\ Py.isinstance raised [Py.YouTubeError] = true.
Proof.
  pose proof (check_live_status_absorbs
                (fun _ => inl (Py.mk_exn Py.YouTubeError
                                 "yt-dlp failed: ERROR: Video unavailable" None))
                "dQw4w9WgXcQ") as (_ & Hvideo & Hchannel).
  split.
  - eapply Hvideo; reflexivity.
  - destruct (Hchannel "UC0123456789"
                (Py.mk_exn Py.YouTubeError "yt-dlp failed: ERROR: Video unavailable" None))
      as (raised & Hraised & Hyt & _).
    + discriminate.
    + reflexivity.
    + reflexivity.
    + exists raised. split; assumption.
Defined.

(** ** Every pass of the reconnect loop (src/recorder.py) *)
Section IterationFacts.
Import Py Recorder.
Variable env : reconnect_env.

Lemma elapse_fields (k : nat) (r : StreamRecorder) :
  _recording_parts (elapse k r) = _recording_parts r
  /\ _reconnect_count (elapse k r) = _reconnect_count r
  /\ _current_file (elapse k r) = _current_file r
  /\ _temp_file (elapse k r) = _temp_file r
  /\ (is_Some (_process (elapse k r)) <-> is_Some (_process r)).
Proof.
  unfold elapse.
  destruct r as [od q cb cf [p|] st cur tmp ev cn su rc mr parts th]; simpl;
    repeat split; try reflexivity; try (intros _; eexists; reflexivity); auto.
Qed.

(** The inner poll only lets time pass and calls [check_is_live]. *)
Lemma poll_loop_frame (n : nat) :
  forall w res w',
    poll_loop env n w = (res, w') ->
    stop_calls w' = stop_calls w
    /\ start_calls w' = start_calls w
    /\ exists k, recorder w' = elapse k (recorder w).
Proof.
  induction n as [|n IH]; intros w res w'; simpl.
  - unfold ret. intros [= <- <-]. repeat split. exists 0%nat.
    now rewrite elapse_zero.
  - unfold bind, sleep, call_check_is_live. simpl.
    destruct (check_is_live env (live_calls w)) as [e|[|]]; simpl.
    + intros [= <- <-]. simpl. repeat split. now exists 1%nat.
    + intros H. apply IH in H as (Hs & Ht & k & Hk). simpl in *.
      repeat split; [exact Hs | exact Ht |].
      exists (1 + k)%nat. now rewrite Hk, elapse_elapse.
    + unfold ret. intros [= <- <-]. simpl. repeat split. now exists 1%nat.
Qed.

Lemma monitor_recording_frame (w : run) (res : result unit) (w' : run) :
  monitor_recording env w = (res, w') ->
  stop_calls w' = stop_calls w
  /\ start_calls w' = start_calls w
  /\ exists k, recorder w' = elapse k (recorder w).
Proof.
  unfold monitor_recording, bind, get_recorder.
  destruct (_process (recorder w)) as [p|].
  - apply poll_loop_frame.
  - unfold ret. intros [= <- <-]. repeat split. exists 0%nat.
    now rewrite elapse_zero.
Qed.

(** [running_for] is read the way [is_recording()] reads [poll()]: once [k]
    seconds have passed, the process still runs exactly when more than [k]
    seconds were left to it. *)
Lemma is_recording_elapse (k : nat) (r : StreamRecorder) (p : Popen) :
  _process r = Some p ->
  is_recording (elapse k r) = (0 <? running_for p - k)%nat.
Proof.
  intros Hp. unfold is_recording, elapse. rewrite Hp. reflexivity.
Qed.

(** The inner poll, entered on the owned process, ends normally only when
    [is_recording()] has become false or the last [check_is_live()] said
    false. *)
Lemma poll_loop_exit (n : nat) :
  forall w p w',
    _process (recorder w) = Some p ->
    running_for p = n ->
    poll_loop env n w = (inr tt, w') ->
    is_recording (recorder w') = false
    \/ (exists calls, live_calls w' = S calls
                      /\ check_is_live env calls = inr false).
Proof.
  induction n as [|n IH]; intros w p w' Hp Hn; simpl.
  - unfold ret. intros [= <-]. left. unfold is_recording. now rewrite Hp, Hn.
  - unfold bind, sleep, call_check_is_live. simpl.
    destruct (check_is_live env (live_calls w)) as [e|[|]] eqn:Hlive; simpl.
    + discriminate.
    + apply (IH _ (mk_Popen (args p) n)); simpl.
      * unfold elapse. rewrite Hp, Hn. simpl. do 2 f_equal. lia.
      * reflexivity.
    + unfold ret. intros [= <-]. right. simpl. eauto.
Qed.

(** A session that started owns a process and has its two paths. *)
Lemma start_session_started (url name : string) (w : run) (path : Path) (w' : run) :
  start_session env url name w = (inr path, w') ->
  stop_calls w' = stop_calls w
  /\ start_calls w' = S (start_calls w)
  /\ is_Some (_process (recorder w'))
  /\ _current_file (recorder w') = Some path
  /\ is_Some (_temp_file (recorder w'))
  /\ _recording_parts (recorder w') = _recording_parts (recorder w)
  /\ _reconnect_count (recorder w') = _reconnect_count (recorder w).
Proof.
  unfold start_session, bind, get_recorder, call_get_stream_url, do_start.
  simpl.
  destruct (_reconnect_count (recorder w) =? 0)%Z.
  - destruct (start_recording _ _ _ _) as [res r'] eqn:Hstart.
    intros [= -> <-]. simpl.
    apply start_recording_owns in Hstart
      as (_ & n & _ & _ & Hp & Hc & Ht & _ & Hparts & Hcount & _).
    rewrite Hp, Hc, Ht. repeat split; eauto.
  - destruct (get_stream_url env (url_calls w)) as [e|fresh]; [discriminate|].
    simpl.
    destruct (start_recording _ _ _ _) as [res r'] eqn:Hstart.
    intros [= -> <-]. simpl.
    apply start_recording_owns in Hstart
      as (_ & n & _ & _ & Hp & Hc & Ht & _ & Hparts & Hcount & _).
    rewrite Hp, Hc, Ht. repeat split; eauto.
Qed.

(** What [stop_recording] returns for a recorder that owns a process. *)
Lemma stop_recording_owned (obs : stop_env) (r : StreamRecorder) (final temp : Path) :
  is_Some (_process r) ->
  _current_file r = Some final ->
  _temp_file r = Some temp ->
  (stop_recording obs r).1
  = (if temp_exists obs
     then Some (if rename_ok obs then final else temp)
     else None)
  /\ _process (stop_recording obs r).2 = None
  /\ _recording_parts (stop_recording obs r).2 = _recording_parts r
  /\ _reconnect_count (stop_recording obs r).2 = _reconnect_count r.
Proof.
  intros [p Hp] Hfinal Htemp. unfold stop_recording.
  rewrite Hp, Htemp, Hfinal.
  destruct (temp_exists obs), (rename_ok obs); simpl; repeat split; reflexivity.
Qed.

Lemma stop_recording_stops (obs : stop_env) (r : StreamRecorder) :
  _process (stop_recording obs r).2 = None
  /\ _recording_parts (stop_recording obs r).2 = _recording_parts r
  /\ _reconnect_count (stop_recording obs r).2 = _reconnect_count r.
Proof.
  unfold stop_recording. destruct (_process r) eqn:Hp; simpl.
  - destruct (_temp_file r); [destruct (temp_exists obs), (rename_ok obs)|];
      simpl; repeat split; reflexivity.
  - repeat split; auto.
Qed.

(** The guarded append after the stop. *)
Lemma collect_part_appends (w : run) :
  exists w',
    collect_part env w = (inr tt, w')
    /\ stop_calls w' = S (stop_calls w)
    /\ _process (recorder w') = None
    /\ _reconnect_count (recorder w') = _reconnect_count (recorder w)
    /\ _recording_parts (recorder w')
       = _recording_parts (recorder w)
         ++ match (stop_recording (stop_envs env (stop_calls w)) (recorder w)).1 with
            | Some part_file => [part_file]
            | None => []
            end.
Proof.
  unfold collect_part, bind, do_stop.
  pose proof (stop_recording_stops (stop_envs env (stop_calls w)) (recorder w))
    as (Hp & Hparts & Hcount).
  destruct (stop_recording _ _) as [[part|] r'] eqn:Hstop; simpl in *.
  - eexists. split; [reflexivity|]. simpl.
    rewrite Hp, Hparts, Hcount. repeat split; reflexivity.
  - eexists. split; [reflexivity|]. simpl.
    rewrite Hp, Hparts, Hcount, app_nil_r. repeat split; reflexivity.
Qed.

(** Neither the decision to reconnect nor the [except] block touches the
    list of parts, and both leave an idle recorder idle. *)
Lemma next_step_frame (max : Z) (w : run) (res : result flow) (w' : run) :
  next_step env max w = (res, w') ->
  _process (recorder w) = None ->
  _process (recorder w') = None
  /\ _recording_parts (recorder w') = _recording_parts (recorder w)
  /\ stop_calls w' = stop_calls w.
Proof.
  unfold next_step, bind, call_check_is_live, get_recorder,
    increment_reconnect_count, modify_recorder, sleep, ret.
  simpl.
  destruct (check_is_live env (live_calls w)) as [e|live]; simpl.
  - intros [= <- <-]. auto.
  - destruct (live && _); simpl; intros [= <- <-] Hidle; simpl.
    + unfold elapse. simpl. rewrite Hidle. simpl. auto.
    + auto.
Qed.

Lemma recover_frame (max : Z) (e : exn) (w : run) (res : result flow) (w' : run) :
  recover env max e w = (res, w') ->
  _process (recorder w') = None
  /\ _recording_parts (recorder w') = _recording_parts (recorder w)
  /\ (stop_calls w < stop_calls w')%nat.
Proof.
  unfold recover, bind, do_stop, get_recorder,
    increment_reconnect_count, modify_recorder, sleep, ret.
  pose proof (stop_recording_stops (stop_envs env (stop_calls w)) (recorder w))
    as (Hp & Hparts & Hcount).
  destruct (stop_recording _ _) as [part r'] eqn:Hstop; simpl in *.
  destruct (_reconnect_count r' <? max)%Z; simpl; intros [= <- <-]; simpl.
  - unfold elapse. simpl. rewrite Hp. simpl. auto.
  - auto.
Qed.

(** C2, as the code has it.  In a pass whose session started and whose inner
    poll ended without an exception, the session is stopped (the recorder
    owns no process afterwards) and the parts list grows by the path that
    [stop_recording] returned: the final path when the temporary file exists
    and is renamed, the temporary path when it exists and renaming fails,
    and nothing at all when the session left no file. *)
Theorem iteration_collects (url name : string) (max : Z)
    (w : run) (final : Path) (w1 w2 : run) :
  start_session env url name w = (inr final, w1) ->
  monitor_recording env w1 = (inr tt, w2) ->
  exists temp,
    _temp_file (recorder w1) = Some temp
    /\ _process (recorder (iteration env url name max w).2) = None
    /\ (stop_calls w < stop_calls (iteration env url name max w).2)%nat
    /\ _recording_parts (recorder (iteration env url name max w).2)
       = _recording_parts (recorder w)
         ++ (if temp_exists (stop_envs env (stop_calls w))
             then [if rename_ok (stop_envs env (stop_calls w)) then final else temp]
             else []).
Proof.
  intros Hstart Hmon.
  pose proof (start_session_started _ _ _ _ _ Hstart)
    as (Ht1 & _ & Hp1 & Hc1 & [temp Htemp] & Hparts1 & _).
  pose proof (monitor_recording_frame _ _ _ Hmon) as (Ht2 & _ & k & Hk).
  pose proof (elapse_fields k (recorder w1)) as (Hparts2 & _ & Hc2 & Htmp2 & Hp2).
  rewrite <- Hk in Hparts2, Hc2, Htmp2, Hp2.
  destruct (collect_part_appends w2) as (w3 & Hcol & Ht3 & Hp3 & _ & Hparts3).
  destruct (stop_recording_owned (stop_envs env (stop_calls w2)) (recorder w2) final temp)
    as (Hret & _); [now apply Hp2 | congruence | congruence |].
  rewrite Hret in Hparts3.
  assert (Happ : _recording_parts (recorder w3)
                 = _recording_parts (recorder w)
                   ++ (if temp_exists (stop_envs env (stop_calls w))
                       then [if rename_ok (stop_envs env (stop_calls w))
                             then final else temp]
                       else [])).
  { rewrite Hparts3, Hparts2, Hparts1, Ht2, Ht1.
    now destruct (temp_exists (stop_envs env (stop_calls w))). }
  exists temp. split; [exact Htemp|].
  unfold iteration, try_except, bind.
  rewrite Hstart, Hmon, Hcol.
  destruct (next_step env max w3) as [[e|fl] w4] eqn:Hnext;
    pose proof (next_step_frame _ _ _ _ Hnext Hp3) as (Hp4 & Hparts4 & Ht4).
  - destruct (isinstance e [Exception]).
    + destruct (recover env max e w4) as [res w5] eqn:Hrec.
      pose proof (recover_frame _ _ _ _ _ Hrec) as (Hp5 & Hparts5 & Ht5).
      simpl. split; [exact Hp5|]. split; [lia|].
      now rewrite Hparts5, Hparts4.
    + simpl. split; [exact Hp4|]. split; [lia|]. now rewrite Hparts4.
  - simpl. split; [exact Hp4|]. split; [lia|]. now rewrite Hparts4.
Qed.

Lemma start_recording_count (obs : start_env) (url name : string)
    (r : StreamRecorder) :
  _reconnect_count (start_recording obs url name r).2 = _reconnect_count r.
Proof.
  unfold start_recording.
  destruct (_process r); [reflexivity|].
  destruct (negb _); [reflexivity|].
  destruct (spawn obs); [destruct (threads_start obs)|]; reflexivity.
Qed.

Lemma start_session_count (url name : string) (w : run) (res : result Path)
    (w' : run) :
  start_session env url name w = (res, w') ->
  _reconnect_count (recorder w') = _reconnect_count (recorder w).
Proof.
  unfold start_session, bind, get_recorder, call_get_stream_url, do_start.
  simpl.
  destruct (_reconnect_count (recorder w) =? 0)%Z.
  - pose proof (start_recording_count (start_envs env (start_calls w)) url name
                  (recorder w)) as Hcount.
    destruct (start_recording _ _ _ _) as [res0 r'].
    intros [= <- <-]. exact Hcount.
  - destruct (get_stream_url env (url_calls w)) as [e|fresh].
    + now intros [= <- <-].
    + simpl.
      match goal with
      | |- context [start_recording ?o ?u ?n ?r0] =>
          pose proof (start_recording_count o u n r0) as Hcount;
            destruct (start_recording o u n r0) as [res0 r']
      end.
      intros [= <- <-]. exact Hcount.
Qed.

Lemma next_step_count (max : Z) (w w' : run) :
  next_step env max w = (inr Continue, w') ->
  _reconnect_count (recorder w') = (_reconnect_count (recorder w) + 1)%Z.
Proof.
  unfold next_step, bind, call_check_is_live, get_recorder,
    increment_reconnect_count, modify_recorder, sleep, ret.
  simpl.
  destruct (check_is_live env (live_calls w)) as [e|live]; [discriminate|].
  simpl. destruct (live && _); simpl; [|discriminate].
  intros [= <-]. simpl. now rewrite (proj1 (proj2 (elapse_fields _ _))).
Qed.

Lemma recover_count (max : Z) (e : exn) (w w' : run) :
  recover env max e w = (inr Continue, w') ->
  _reconnect_count (recorder w') = (_reconnect_count (recorder w) + 1)%Z.
Proof.
  unfold recover, bind, do_stop, get_recorder,
    increment_reconnect_count, modify_recorder, sleep, ret.
  pose proof (stop_recording_stops (stop_envs env (stop_calls w)) (recorder w))
    as (_ & _ & Hcount).
  destruct (stop_recording _ _) as [part r']; simpl in *.
  destruct (_reconnect_count r' <? max)%Z; simpl; [|discriminate].
  intros [= <-]. simpl.
  now rewrite (proj1 (proj2 (elapse_fields _ _))), <- Hcount.
Qed.

(** A pass that asks for another one has added one to the reconnect
    counter. *)
Lemma iteration_count (url name : string) (max : Z) (w w' : run) :
  iteration env url name max w = (inr Continue, w') ->
  _reconnect_count (recorder w') = (_reconnect_count (recorder w) + 1)%Z.
Proof.
  unfold iteration, try_except, bind.
  destruct (start_session env url name w) as [[e|path] w1] eqn:Hstart;
    pose proof (start_session_count _ _ _ _ _ Hstart) as Hc1.
  { destruct (isinstance e [Exception]); [|discriminate].
    intros H. apply recover_count in H. congruence. }
  destruct (monitor_recording env w1) as [[e|[]] w2] eqn:Hmon;
    pose proof (monitor_recording_frame _ _ _ Hmon) as (_ & _ & k & Hk);
    pose proof (proj1 (proj2 (elapse_fields k (recorder w1)))) as Hc2;
    rewrite <- Hk in Hc2.
  { destruct (isinstance e [Exception]); [|discriminate].
    intros H. apply recover_count in H. congruence. }
  destruct (collect_part_appends w2) as (w3 & -> & _ & _ & Hc3 & _).
  destruct (next_step env max w3) as [[e|fl] w4] eqn:Hnext.
  - destruct (isinstance e [Exception]); [|discriminate].
    intros H. apply recover_count in H.
    assert (Hc4 : _reconnect_count (recorder w4) = _reconnect_count (recorder w3)).
    { revert Hnext.
      unfold next_step, bind, call_check_is_live, get_recorder,
        increment_reconnect_count, modify_recorder, sleep, ret.
      simpl.
      destruct (check_is_live env (live_calls w3)) as [e0|live]; simpl.
      - now intros [= _ <-].
      - destruct (live && _); discriminate. }
    congruence.
  - intros [= -> <-]. apply next_step_count in Hnext. congruence.
Qed.

(** The fuel that [record_with_reconnect] gives the outer loop is enough. *)
Lemma reconnect_loop_returns (url name : string) (max : Z) (fuel : nat) :
  forall w,
    (max + 1 - _reconnect_count (recorder w) <= Z.of_nat fuel)%Z ->
    exists out, reconnect_loop env fuel url name max w = Some out.
Proof.
  induction fuel as [|fuel IH]; intros w Hfuel; simpl.
  - destruct (_reconnect_count (recorder w) <=? max)%Z eqn:Hle; [|eauto].
    apply Z.leb_le in Hle. lia.
  - destruct (_reconnect_count (recorder w) <=? max)%Z eqn:Hle; [|eauto].
    destruct (iteration env url name max w) as [[e|[|]] w'] eqn:Hit; eauto.
    apply IH. apply iteration_count in Hit. lia.
Qed.

Lemma record_with_reconnect_returns (url name : string) (max : Z)
    (r : StreamRecorder) :
  exists out, record_with_reconnect env url name max r = Some out.
Proof.
  unfold record_with_reconnect.
  destruct (reconnect_loop_returns url name max (Z.to_nat (max + 1))
              (mk_run (set_progress max [] 0 r) 0 0 0 0 0))
    as ([[e|[]] w'] & ->); simpl; [lia | eauto | eauto].
Qed.

End IterationFacts.

Lemma iteration_collects_witness :
  Recorder._recording_parts
    (Recorder.recorder
       (Recorder.iteration Scenarios.three_cycles
          "https://example.invalid/first.m3u8" "Channel" 5 Scenarios.first_pass).2)
  = ["recordings/Channel_20240101_120000.mp4"].
Proof.
  edestruct (iteration_collects Scenarios.three_cycles
               "https://example.invalid/first.m3u8" "Channel" 5
               Scenarios.first_pass)
    as (temp & Htemp & _ & _ & Hparts);
    [vm_compute; reflexivity | vm_compute; reflexivity |].
  exact Hparts.
Defined.

(** C2, as stated, fails: in the run [no_file] the first pass starts a
    session, polls it and stops it, the session has a final path, and the
    parts list is still empty. *)
Lemma iteration_without_file :
  exists w',
    Recorder.iteration Scenarios.no_file
      "https://example.invalid/first.m3u8" "Channel" 5 Scenarios.first_pass
    = (inr Recorder.Break, w')
    /\ Recorder.start_calls w' = 1%nat
    /\ Recorder.stop_calls w' = 1%nat
    /\ Recorder._process (Recorder.recorder w') = None
    /\ Recorder._current_file (Recorder.recorder w')
       = Some "recordings/Channel_20240101_120000.mp4"
    /\ Recorder._recording_parts (Recorder.recorder w') = [].
Proof.
  eexists. split; [vm_compute; reflexivity|].
  repeat split; reflexivity.
Qed.


(** ** The per-source state machine (src/monitor.py) *)
Section TransitionFacts.
Import Py Monitor.
Variable cfg : Settings.
Variables cb cf : option string.


(** not live, then not live: nothing happens. *)
Lemma poll_stays_offline (env : check_env) (st : ChannelState) :
  reports_offline env ->
  is_live st = false ->
  exists st',
    check_state cfg cb cf env st = (inr tt, st', [])
    /\ is_live st' = false
    /\ is_recording st' = is_recording st
    /\ recorder st' = recorder st.
Proof.
  intros (live & Hstatus & Hoff) Hwas.
  unfold check_state. rewrite Hstatus. simpl. rewrite Hoff, Hwas. simpl.
  eexists. split; [reflexivity|]. simpl. auto.
Qed.

(** not live, then live: a recording is started for the new stream. *)
Lemma poll_goes_live (env : check_env) (st : ChannelState) (id : string) :
  reports_live env id ->
  start_succeeds env ->
  is_live st = false ->
  exists st',
    check_state cfg cb cf env st = (inr tt, st', [Start (Some id)])
    /\ recording_stream st' id.
Proof.
  intros (live & Hstatus & Hon & Hid) ((url & Hurl) & Hdisk & (n & Hspawn) & Hthreads) Hwas.
  unfold check_state. rewrite Hstatus. simpl. rewrite Hon, Hwas. simpl.
  unfold _start_recording. rewrite Hurl.
  unfold Recorder.start_recording. simpl. rewrite Hdisk, Hspawn, Hthreads. simpl.
  eexists. split; [rewrite Hid; reflexivity|].
  unfold recording_stream. simpl. rewrite ?Hon. eauto.
Qed.

(** live, then live with the same identifier: nothing happens. *)
Lemma poll_same_stream (env : check_env) (st : ChannelState) (id : string) :
  reports_live env id ->
  recording_stream st id ->
  exists st',
    check_state cfg cb cf env st = (inr tt, st', [])
    /\ recording_stream st' id.
Proof.
  intros (live & Hstatus & Hon & Hid) (Hwas & Hrec & Hcur & Hr).
  unfold check_state. rewrite Hstatus. simpl. rewrite Hon, Hwas, Hid, Hcur. simpl.
  rewrite bool_decide_eq_true_2 by reflexivity. simpl.
  eexists. split; [reflexivity|].
  unfold recording_stream. simpl. auto.
Qed.

(** live, then live with another identifier: the current session is stopped
    and a new one started. *)
Lemma poll_switches_stream (env : check_env) (st : ChannelState) (old id : string) :
  reports_live env id ->
  start_succeeds env ->
  recording_stream st old ->
  old <> id ->
  exists st',
    check_state cfg cb cf env st = (inr tt, st', [Stop (Some old); Start (Some id)])
    /\ recording_stream st' id.
Proof.
  intros (live & Hstatus & Hon & Hid) ((url & Hurl) & Hdisk & (n & Hspawn) & Hthreads)
    (Hwas & Hrec & Hcur & (r & Hr)) Hne.
  unfold check_state. rewrite Hstatus. simpl. rewrite Hon, Hwas, Hid, Hcur. simpl.
  rewrite bool_decide_eq_false_2 by congruence. simpl.
  rewrite ?Hr, ?Hrec, ?Hcur.
  destruct (Recorder.stop_recording (stop_obs env) r) as [returned stopped].
  unfold _start_recording. rewrite Hurl.
  unfold Recorder.start_recording. simpl. rewrite Hdisk, Hspawn, Hthreads. simpl.
  eexists. split; [rewrite Hid; reflexivity|].
  unfold recording_stream. simpl. rewrite ?Hon. eauto.
Qed.

(** live, then not live: the current session is stopped. *)
Lemma poll_goes_offline (env : check_env) (st : ChannelState) (id : string) :
  reports_offline env ->
  recording_stream st id ->
  exists st',
    check_state cfg cb cf env st = (inr tt, st', [Stop (Some id)])
    /\ is_live st' = false
    /\ is_recording st' = false
    /\ recorder st' = None.
Proof.
  intros (live & Hstatus & Hoff) (Hwas & Hrec & Hcur & (r & Hr)).
  unfold check_state. rewrite Hstatus. simpl. rewrite Hoff, Hwas. simpl.
  rewrite ?Hr, ?Hrec, ?Hcur.
  destruct (Recorder.stop_recording (stop_obs env) r) as [returned stopped].
  simpl. eexists. split; [reflexivity|]. simpl. auto.
Qed.

End TransitionFacts.

(** ** The monitor (src/monitor.py) *)
Section MonitorFacts.
Import Py Monitor.

Lemma monitor_channel_poll (env : check_env) (envs : list check_env) (id : string)
    (m : ChannelMonitor) (st st' : ChannelState) (acts : list action) :
  _states m !! id = Some st ->
  check_state (settings (monitor_config m)) (cookies_from_browser m)
    (cookies_file m) env st = (inr tt, st', acts) ->
  _monitor_channel (env :: envs) id m
  = match _monitor_channel envs id (set_states (<[id := st']> (_states m)) m) with
    | Some (m'', acts') => Some (m'', acts ++ acts')
    | None => None
    end.
Proof.
  intros Hlookup Hpoll. simpl. unfold _check_channel.
  now rewrite Hlookup, Hpoll.
Qed.

(** C3. On a source in its initial state, the polls not-live, live(A),
    live(A), live(B), not-live, with both starts succeeding and A different
    from B, make the monitor start a recording of A, stop it, start a
    recording of B and stop it, in this order, and nothing else. *)
Theorem monitor_transition_sequence (m : ChannelMonitor) (id : string)
    (ch : ChannelConfig) (A B : string) (e1 e2 e3 e4 e5 : check_env) :
  _states m !! id = Some (initial_state ch) ->
  A <> B ->
  reports_offline e1 ->
  reports_live e2 A -> start_succeeds e2 ->
  reports_live e3 A ->
  reports_live e4 B -> start_succeeds e4 ->
  reports_offline e5 ->
  exists m',
    _monitor_channel [e1; e2; e3; e4; e5] id m
    = Some (m', [Start (Some A); Stop (Some A); Start (Some B); Stop (Some B)]).
Proof.
  intros Hinit Hne H1 H2 Hs2 H3 H4 Hs4 H5.
  set (cfg := settings (monitor_config m)).
  set (cb := cookies_from_browser m).
  set (cf := cookies_file m).
  destruct (poll_stays_offline cfg cb cf e1 (initial_state ch) H1 eq_refl)
    as (st1 & Hp1 & Hlive1 & _).
  destruct (poll_goes_live cfg cb cf e2 st1 A H2 Hs2 Hlive1) as (st2 & Hp2 & Hrec2).
  destruct (poll_same_stream cfg cb cf e3 st2 A H3 Hrec2) as (st3 & Hp3 & Hrec3).
  destruct (poll_switches_stream cfg cb cf e4 st3 A B H4 Hs4 Hrec3 Hne)
    as (st4 & Hp4 & Hrec4).
  destruct (poll_goes_offline cfg cb cf e5 st4 B H5 Hrec4) as (st5 & Hp5 & _).
  rewrite (monitor_channel_poll e1 _ id m _ st1 [] Hinit Hp1).
  rewrite (monitor_channel_poll e2 _ id _ st1 st2 [Start (Some A)]);
    [| apply lookup_insert_eq | exact Hp2].
  rewrite (monitor_channel_poll e3 _ id _ st2 st3 []);
    [| apply lookup_insert_eq | exact Hp3].
  rewrite (monitor_channel_poll e4 _ id _ st3 st4 [Stop (Some A); Start (Some B)]);
    [| apply lookup_insert_eq | exact Hp4].
  rewrite (monitor_channel_poll e5 _ id _ st4 st5 [Stop (Some B)]);
    [| apply lookup_insert_eq | exact Hp5].
  simpl. eexists. reflexivity.
Qed.


Lemma coherent_initial (ch : ChannelConfig) : coherent (initial_state ch).
Proof. unfold coherent. simpl. repeat split; auto; discriminate. Qed.

Lemma coherent_stop (obs : Recorder.stop_env) (st : ChannelState) :
  coherent (_stop_recording obs st).1.
Proof. unfold coherent. simpl. repeat split; auto; discriminate. Qed.

Lemma coherent_tick (st : ChannelState) : coherent st -> coherent (tick_state st).
Proof.
  unfold coherent, owns_process. destruct st as [c l rec v t [r|] lc le rs]; simpl;
    [|auto].
  intros (H1 & H2 & H3). split; [|split].
  - intros Hrec. specialize (H1 Hrec).
    apply bool_decide_eq_true in H1 as [p Hp]. apply bool_decide_eq_true.
    unfold Recorder.elapse. rewrite Hp. eexists. reflexivity.
  - intros Hrec. now specialize (H2 Hrec).
  - intros Hl. now specialize (H3 Hl).
Qed.

Lemma coherent_check (cfg : Settings) (cb cf : option string) (env : check_env)
    (st : ChannelState) :
  coherent st -> coherent (check_state cfg cb cf env st).1.2.
Proof.
  unfold coherent, owns_process.
  destruct st as [c [|] [|] v t [r|] lc le rs]; simpl; intros (H1 & H2 & H3);
    try (specialize (H1 eq_refl)); try (specialize (H2 eq_refl));
    try (specialize (H3 eq_refl)); try discriminate.
  all: unfold check_state, check_failed, _start_recording, _stop_recording,
         start_failed, Recorder.start_recording; simpl.
  all: repeat case_match; simplify_eq/=.
  all: rewrite ?andb_false_r, ?andb_true_r in *; simpl in *.
  all: repeat split; intros; try discriminate; try congruence; auto.
  all: destruct (YouTubeApi.is_live _); simpl in *; congruence.
Qed.

Lemma coherent_new (config : Config) (cb cf : option string) (id : string)
    (st : ChannelState) :
  _states (new config cb cf) !! id = Some st -> coherent st.
Proof.
  unfold new. simpl.
  assert (Hfold : forall (l : list ChannelConfig) (acc : gmap string ChannelState),
             (forall id st, acc !! id = Some st -> coherent st) ->
             forall id st,
               foldl (fun states ch => <[channel_id ch := initial_state ch]> states)
                 acc l !! id = Some st ->
               coherent st).
  { induction l as [|ch l IH]; intros acc Hacc id' st'; simpl; [apply Hacc|].
    apply IH. intros id'' st''. rewrite lookup_insert.
    case_decide; [|apply Hacc].
    intros [= <-]. apply coherent_initial. }
  apply Hfold. intros id' st'. rewrite lookup_empty. discriminate.
Qed.

Lemma coherent_step (m m' : ChannelMonitor) :
  step m m' ->
  (forall id st, _states m !! id = Some st -> coherent st) ->
  forall id st, _states m' !! id = Some st -> coherent st.
Proof.
  intros Hstep Hm id st.
  destruct Hstep as [env id0 m res m' acts Hcheck | m | obs m].
  - unfold _check_channel in Hcheck.
    destruct (_states m !! id0) as [st0|] eqn:Hst0; [|discriminate].
    pose proof (coherent_check (settings (monitor_config m))
                  (cookies_from_browser m) (cookies_file m) env st0
                  (Hm _ _ Hst0)) as Hnext.
    destruct (check_state _ _ _ env st0) as [[res0 st1] acts0].
    injection Hcheck as <- <- <-. simpl. rewrite lookup_insert.
    case_decide; [|apply Hm].
    intros [= <-]. exact Hnext.
  - simpl. rewrite lookup_fmap.
    destruct (_states m !! id) as [st0|] eqn:Hst0; [|discriminate].
    simpl. intros [= <-]. apply coherent_tick. eapply Hm, Hst0.
  - simpl. rewrite map_lookup_imap.
    destruct (_states m !! id) as [st0|]; [|discriminate].
    simpl. intros [= <-]. apply (coherent_stop (obs id) st0).
Qed.

(** C4, as the code has it.  In every monitor that can arise, the
    recording flag of a source is true exactly when the source has a Session
    Supervisor that owns a process handle, whether or not that process is
    still running. *)
Theorem recording_flag_owns_process (config : Config) (cb cf : option string)
    (m : ChannelMonitor) (id : string) (st : ChannelState) :
  reachable config cb cf m ->
  _states m !! id = Some st ->
  is_recording st = true <-> owns_process st = true.
Proof.
  intros Hreach. revert id st.
  assert (Hall : forall id st, _states m !! id = Some st -> coherent st).
  { induction Hreach as [|m m' _ IH Hstep].
    - apply coherent_new.
    - now apply (coherent_step m m'). }
  intros id st Hst. destruct (Hall id st Hst) as (H1 & H2 & _).
  split; [exact H1|].
  unfold owns_process. destruct (is_recording st); [reflexivity|].
  now rewrite (H2 eq_refl).
Qed.

End MonitorFacts.

Lemma recording_flag_owns_process_witness :
  exists st,
    Monitor._states Scenarios.exited_monitor !! "UC0123456789" = Some st
    /\ (Monitor.is_recording st = true <-> Monitor.owns_process st = true).
Proof.
  eexists. split; [vm_compute; reflexivity|].
  eapply (recording_flag_owns_process Scenarios.one_channel None None
            Scenarios.exited_monitor "UC0123456789").
  - eapply Monitor.reachable_step; [|apply Monitor.step_tick].
    eapply Monitor.reachable_step; [apply Monitor.reachable_new|].
    eapply (Monitor.step_check (Scenarios.live_poll "AAAAAAAAAAA" 1) "UC0123456789").
    vm_compute. reflexivity.
  - vm_compute. reflexivity.
Defined.

(** C4, as stated, fails: the monitor [exited_monitor] arises from a poll
    that starts a capture process and the passing of one second, after which
    the process has exited; the recording flag of the source is still true
    while its Session Supervisor owns no running process. *)
Lemma recording_flag_after_exit :
  exists st,
    Monitor.reachable Scenarios.one_channel None None Scenarios.exited_monitor
    /\ Monitor._states Scenarios.exited_monitor !! "UC0123456789" = Some st
    /\ Monitor.is_recording st = true
    /\ Monitor.owns_live_process st = false.
Proof.
  eexists. split; [|split; [vm_compute; reflexivity | split; reflexivity]].
  eapply Monitor.reachable_step; [|apply Monitor.step_tick].
  eapply Monitor.reachable_step; [apply Monitor.reachable_new|].
  eapply (Monitor.step_check (Scenarios.live_poll "AAAAAAAAAAA" 1) "UC0123456789").
  vm_compute. reflexivity.
Qed.

Lemma monitor_transition_sequence_witness :
  exists m',
    Monitor._monitor_channel
      [Scenarios.offline_poll; Scenarios.live_poll "AAAAAAAAAAA" 30;
       Scenarios.live_poll "AAAAAAAAAAA" 30; Scenarios.live_poll "BBBBBBBBBBB" 30;
       Scenarios.offline_poll]
      "UC0123456789" (Monitor.new Scenarios.one_channel None None)
    = Some (m', [Monitor.Start (Some "AAAAAAAAAAA"); Monitor.Stop (Some "AAAAAAAAAAA");
                 Monitor.Start (Some "BBBBBBBBBBB"); Monitor.Stop (Some "BBBBBBBBBBB")]).
Proof.
  apply (monitor_transition_sequence (Monitor.new Scenarios.one_channel None None)
           "UC0123456789" (Monitor.mk_ChannelConfig "Channel" "UC0123456789")
           "AAAAAAAAAAA" "BBBBBBBBBBB").
  - vm_compute. reflexivity.
  - discriminate.
  - eexists. split; reflexivity.
  - eexists. repeat split; reflexivity.
  - split; [eexists; reflexivity|]. split; [reflexivity|].
    split; [eexists; reflexivity | reflexivity].
  - eexists. repeat split; reflexivity.
  - eexists. repeat split; reflexivity.
  - split; [eexists; reflexivity|]. split; [reflexivity|].
    split; [eexists; reflexivity | reflexivity].
  - eexists. split; reflexivity.
Defined.

(** * Further properties *)

Section StringFacts.
#[local] Arguments String.append !s1 s2 : simpl nomatch.

Lemma append_assoc (a b c : string) : (a +:+ b) +:+ c = a +:+ (b +:+ c).
Proof. induction a as [|x a IH]; simpl; [reflexivity | now rewrite IH]. Qed.

Lemma append_length (a b : string) :
  String.length (a +:+ b) = (String.length a + String.length b)%nat.
Proof. induction a as [|x a IH]; simpl; [reflexivity | now rewrite IH]. Qed.

End StringFacts.

(** ** More on file names and durations (src/utils.py) *)
Section UtilsMore.
Import Utils.

Lemma lstrip_head (s : string) :
  match lstrip s with
  | EmptyString => True
  | String c _ => strip_set c = false
  end.
Proof.
  induction s as [|c s IH]; simpl; [exact I|].
  destruct (strip_set c) eqn:E; [exact IH | exact E].
Qed.

Lemma rstrip_head (c : ascii) (s : string) :
  strip_set c = false -> exists kept, rstrip (String c s) = String c kept.
Proof.
  intros Hc. simpl. destruct (rstrip s); rewrite ?Hc; eauto.
Qed.

Lemma strip_head (s : string) :
  match strip s with
  | EmptyString => True
  | String c _ => strip_set c = false
  end.
Proof.
  unfold strip. pose proof (lstrip_head s) as H.
  destruct (lstrip s) as [|c t]; [exact I|].
  destruct (rstrip_head c t H) as [kept ->]. exact H.
Qed.

Lemma substring_length_le (s : string) (m : nat) :
  (String.length (substring 0 m s) <= m)%nat.
Proof.
  revert m. induction s as [|c s IH]; intros [|m]; simpl; try lia.
  specialize (IH m). lia.
Qed.

Lemma substring_head (c : ascii) (s : string) (m : nat) :
  substring 0 (S m) (String c s) = String c (substring 0 m s).
Proof. reflexivity. Qed.

(** X1. A sanitized name is never empty, is at most 100 characters long, holds no
    reserved character, and does not begin with a space or a dot. *)
Theorem sanitize_filename_safe (name : string) :
  sanitize_filename name <> EmptyString
  /\ (String.length (sanitize_filename name) <= 100)%nat
  /\ has_reserved (sanitize_filename name) = false
  /\ match sanitize_filename name with
     | EmptyString => False
     | String c _ => strip_set c = false
     end.
Proof.
  split; [|split; [|split]].
  - unfold sanitize_filename.
    set (s := strip (re_sub_reserved name)).
    destruct (100 <? String.length s)%nat; [destruct (substring 0 100 s) | destruct s];
      discriminate.
  - unfold sanitize_filename.
    set (s := strip (re_sub_reserved name)).
    destruct (100 <? String.length s)%nat eqn:Hlen.
    + pose proof (substring_length_le s 100) as Hsub.
      destruct (substring 0 100 s); simpl in *; lia.
    + apply Nat.ltb_ge in Hlen. destruct s; simpl in *; lia.
  - apply sanitize_filename_clean.
  - unfold sanitize_filename.
    pose proof (strip_head (re_sub_reserved name)) as Hhead.
    set (s := strip (re_sub_reserved name)) in *.
    destruct (100 <? String.length s)%nat.
    + destruct s as [|c s']; [reflexivity|]. exact Hhead.
    + destruct s as [|c s']; [reflexivity | exact Hhead].
Qed.

(** X2. A duration below one hour, negative ones included, is printed as the
    minutes and seconds of its remainder modulo 3600: no hour field, minutes
    below 60, seconds on two digits. *)
Theorem format_duration_wraps (seconds : Z) :
  (seconds < 3600)%Z ->
  format_duration seconds = format_duration (seconds mod 3600)
  /\ format_duration seconds
     = pretty ((seconds mod 3600) / 60)%Z +:+ ":" +:+ fmt02 (seconds mod 60)
  /\ (0 <= (seconds mod 3600) / 60 < 60)%Z
  /\ (0 <= seconds mod 60 < 60)%Z.
Proof.
  intros Hlt.
  assert (Hh : (0 <? seconds / 3600)%Z = false).
  { apply Z.ltb_ge. assert (seconds / 3600 < 1)%Z; [|lia].
    apply Z.div_lt_upper_bound; lia. }
  assert (Hm : (0 <= seconds mod 3600 < 3600)%Z) by (apply Z.mod_pos_bound; lia).
  assert (Hh' : (0 <? (seconds mod 3600) / 3600)%Z = false).
  { apply Z.ltb_ge. rewrite Z.div_small; lia. }
  assert (Hs : ((seconds mod 3600) mod 60 = seconds mod 60)%Z).
  { apply Z.mod_mod_divide. exists 60%Z. reflexivity. }
  unfold format_duration. rewrite Hh, Hh', Hs, Z.mod_mod by lia.
  split; [reflexivity|]. split; [reflexivity|].
  split.
  - split; [apply Z.div_pos; lia | apply Z.div_lt_upper_bound; lia].
  - apply Z.mod_pos_bound; lia.
Qed.

End UtilsMore.

Lemma format_duration_wraps_witness :
  Utils.format_duration (-1) = Utils.format_duration ((-1) mod 3600).
Proof.
  apply (format_duration_wraps (-1)). lia.
Defined.

(** ** More on the retry executor (src/retry.py) *)
Section RetryMore.
Import Py Float Retry.

Lemma delays_app (l1 l2 : list event) : delays (l1 ++ l2) = delays l1 ++ delays l2.
Proof.
  induction l1 as [|[a|a e d|d] l1 IH]; simpl; rewrite ?IH; reflexivity.
Qed.

Lemma announced_app (l1 l2 : list event) :
  announced (l1 ++ l2) = announced l1 ++ announced l2.
Proof.
  induction l1 as [|[a|a e d|d] l1 IH]; simpl; rewrite ?IH; reflexivity.
Qed.

Section Executor.
Context {A : Type}.
Variable R : rounding.
Variable func : nat -> result A.
Variable config : RetryConfig.
Variable observer : bool.
Variable rand : nat -> Q.

(** The delays that one more pause adds to the log. *)
Lemma delays_pause (log : list event) (attempt : Z) (e : exn) (d : float) :
  delays
    ((if observer then (log ++ [EvCall attempt]) ++ [EvOnRetry (attempt + 1) e d]
      else log ++ [EvCall attempt]) ++ [EvSleep d])
  = delays log ++ [d].
Proof.
  destruct observer; rewrite !delays_app; simpl; rewrite ?app_nil_r; reflexivity.
Qed.

Lemma announced_pause (log : list event) (attempt : Z) (e : exn) (d : float) :
  announced
    ((if observer then (log ++ [EvCall attempt]) ++ [EvOnRetry (attempt + 1) e d]
      else log ++ [EvCall attempt]) ++ [EvSleep d])
  = announced log ++ (if observer then [d] else []).
Proof.
  destruct observer; rewrite !announced_app; simpl; rewrite ?app_nil_r; reflexivity.
Qed.

(** What the loop adds to the log: one sleep less than invocations, each
    announced to the observer if there is one, and each the delay computed
    for an attempt that is not the last. *)
Lemma retry_loop_sleeps (remaining : nat) :
  forall attempt last log,
    (0 <= attempt)%Z ->
    remaining = 0%nat \/ (Z.of_nat remaining + attempt = max_attempts config)%Z ->
    exists slept,
      delays (retry_loop R func config observer rand remaining attempt last log).2
      = delays log ++ slept
      /\ announced
           (retry_loop R func config observer rand remaining attempt last log).2
         = announced log ++ (if observer then slept else [])
      /\ invocations
           (retry_loop R func config observer rand remaining attempt last log).2
         = (invocations log
            + match remaining with O => 0 | S _ => S (List.length slept) end)%nat
      /\ Forall
           (fun d =>
              exists k z,
                (0 <= z < max_attempts config - 1)%Z
                /\ calculate_delay R (rand k) z config = inr d)
           slept
      /\ (remaining = 0%nat -> slept = []).
Proof.
  induction remaining as [|n IH]; intros attempt last log Hatt Hinv; simpl.
  - exists []. rewrite !app_nil_r. destruct observer; rewrite ?app_nil_r.
    all: repeat split; auto; lia.
  - destruct Hinv as [|Hinv]; [discriminate|].
    destruct (func (Z.to_nat attempt)) as [e|v]; simpl.
    + destruct (isinstance e (retryable_exceptions config)); simpl.
      * destruct (attempt <? max_attempts config - 1)%Z eqn:Hlt; simpl.
        -- apply Z.ltb_lt in Hlt.
           destruct (calculate_delay R (rand (Z.to_nat attempt)) attempt config)
             as [raised|d] eqn:Hdelay; simpl.
           ++ exists []. rewrite delays_app, announced_app, invocations_app. simpl.
              destruct observer; rewrite ?app_nil_r; repeat split; auto.
           ++ match goal with
              | |- context [retry_loop _ _ _ _ _ n ?a ?l ?lg] =>
                  destruct (IH a l lg) as (slept & Hd & Ha & Hi & Hall & _);
                    [lia | right; lia |]
              end.
              rewrite delays_pause in Hd. rewrite announced_pause in Ha.
              rewrite invocations_pause in Hi.
              exists (d :: slept).
              rewrite Hd, Ha, Hi, <- !app_assoc. simpl.
              repeat split.
              ** destruct observer; simpl; rewrite <- ?app_assoc; reflexivity.
              ** destruct n; [lia|]. lia.
              ** constructor; [|exact Hall].
                 exists (Z.to_nat attempt), attempt. split; [lia | exact Hdelay].
              ** discriminate.
        -- exists []. rewrite delays_app, announced_app, invocations_app. simpl.
           destruct observer; rewrite ?app_nil_r; repeat split; auto.
      * exists []. rewrite delays_app, announced_app, invocations_app. simpl.
        destruct observer; rewrite ?app_nil_r; repeat split; auto.
    + exists []. rewrite delays_app, announced_app, invocations_app. simpl.
      destruct observer; rewrite ?app_nil_r; repeat split; auto.
Qed.

(** The first invocation that succeeds, after [n] retryable failures whose
    delays are computed, ends the loop with its value. *)
Lemma retry_loop_succeeds (value : A) (n : nat) :
  forall remaining attempt last log,
    (0 <= attempt)%Z ->
    (Z.of_nat remaining + attempt = max_attempts config)%Z ->
    (n < remaining)%nat ->
    delays_defined R config ->
    (forall j, (j < n)%nat ->
       exists e, func (Z.to_nat attempt + j) = inl e
                 /\ isinstance e (retryable_exceptions config) = true) ->
    func (Z.to_nat attempt + n) = inr value ->
    (retry_loop R func config observer rand remaining attempt last log).1
    = inr value
    /\ invocations
         (retry_loop R func config observer rand remaining attempt last log).2
       = (invocations log + S n)%nat.
Proof.
  induction n as [|n IH];
    intros remaining attempt last log Hatt Hinv Hn Hdef Hfail Hval.
  - destruct remaining as [|m]; [lia|]. simpl.
    rewrite Nat.add_0_r in Hval. rewrite Hval. simpl.
    rewrite invocations_app, invocations_call. split; [reflexivity | lia].
  - destruct remaining as [|m]; [lia|]. simpl.
    destruct (Hfail 0%nat ltac:(lia)) as (e0 & Hf0 & Hr0).
    rewrite Nat.add_0_r in Hf0. rewrite Hf0, Hr0.
    assert (Hlt : (attempt <? max_attempts config - 1)%Z = true)
      by (apply Z.ltb_lt; lia).
    rewrite Hlt.
    destruct (Hdef attempt ltac:(lia)) as (power & Hpow).
    destruct (calculate_delay_defined R (rand (Z.to_nat attempt)) _ _ _ Hpow)
      as (d & ->).
    assert (Hnext : Z.to_nat (attempt + 1) = S (Z.to_nat attempt)) by lia.
    edestruct (IH m (attempt + 1)%Z (Some e0)) as [Hres Hcnt];
      [lia | lia | lia | exact Hdef | | | ].
    + intros j Hj. rewrite Hnext.
      destruct (Hfail (S j) ltac:(lia)) as (e' & He' & Hr').
      exists e'. split; [|exact Hr']. rewrite <- He'. f_equal. lia.
    + rewrite Hnext, <- Hval. f_equal. lia.
    + split; [exact Hres|]. rewrite Hcnt, invocations_pause. lia.
Qed.

(** X3. For a configuration whose delays are finite and can be slept
    (rounding to nearest; base delay and exponential base not negative; a
    maximal delay between zero and a million seconds that is a binary64
    number, as its quarter is; no power that overflows; random draws in
    the unit interval), the executor sleeps between attempts only: once
    less than it invokes the operation, hence fewer than [max_attempts]
    times.  Every delay slept was first given to the observer, if there is
    one, and lies between zero and the product of the maximal delay and
    1.25. *)
Theorem retry_with_backoff_sleeps :
  to_nearest R ->
  0 <= base_delay config -> 0 <= exponential_base config ->
  0 <= max_delay config -> max_delay config <= 1000000 ->
  binary64 R (max_delay config) ->
  round R (max_delay config * 0.25) == max_delay config * 0.25 ->
  delays_defined R config ->
  (forall k, 0 <= rand k /\ rand k <= 1) ->
  let log := (retry_with_backoff R func config observer rand).2 in
  List.length (delays log) = (invocations log - 1)%nat
  /\ (Z.of_nat (List.length (delays log)) < Z.max 1 (max_attempts config))%Z
  /\ announced log = (if observer then delays log else [])
  /\ Forall
       (fun d =>
          le (Fin 0) d = true
          /\ le d (mul R (Fin (max_delay config)) (Fin 1.25)) = true)
       (delays log).
Proof.
  intros Hnear Hb He Hm _ Hbin Hquarter Hdef Hrand log.
  pose proof (retry_loop_invocations R func config observer rand
                (Z.to_nat (max_attempts config)) 0%Z None []) as Hmax.
  destruct (retry_loop_sleeps (Z.to_nat (max_attempts config)) 0%Z None [])
    as (slept & Hd & Ha & Hi & Hall & Hnone); [lia | lia |].
  fold (retry_with_backoff R func config observer rand) in Hd, Ha, Hi, Hmax.
  fold log in Hd, Ha, Hi, Hmax. simpl in Hd, Ha, Hi, Hmax.
  rewrite Hd, Ha, Hi.
  split.
  { destruct (Z.to_nat (max_attempts config)); simpl; [|lia].
    now rewrite Hnone. }
  split.
  { rewrite Hi in Hmax.
    destruct (Z.to_nat (max_attempts config)) eqn:E; [|lia].
    rewrite Hnone by reflexivity. simpl. lia. }
  split; [reflexivity|].
  eapply List.Forall_impl; [|exact Hall].
  intros d (k & z & Hz & Hdelay). simpl.
  destruct (Hdef z Hz) as (power & Hpow).
  destruct (calculate_delay_range R Hnear (rand k) z config power)
    as (d' & Hd' & H0 & H1 & _); try assumption; try apply Hrand.
  rewrite Hdelay in Hd'. injection Hd' as <-. split; assumption.
Qed.

(** X4. For a configuration whose delays are finite and can be slept (as
    in X3), the value of the first invocation that succeeds, after
    retryable failures only, is returned, with one invocation and one
    sleep per failure before it. *)
Theorem retry_with_backoff_success (k : nat) (value : A) :
  to_nearest R ->
  0 <= base_delay config -> 0 <= exponential_base config ->
  0 <= max_delay config -> max_delay config <= 1000000 ->
  binary64 R (max_delay config) ->
  round R (max_delay config * 0.25) == max_delay config * 0.25 ->
  delays_defined R config ->
  (forall k, 0 <= rand k /\ rand k <= 1) ->
  (Z.of_nat k < max_attempts config)%Z ->
  (forall j, (j < k)%nat ->
     exists e, func j = inl e /\ isinstance e (retryable_exceptions config) = true) ->
  func k = inr value ->
  (retry_with_backoff R func config observer rand).1 = inr value
  /\ invocations (retry_with_backoff R func config observer rand).2 = S k
  /\ List.length (delays (retry_with_backoff R func config observer rand).2) = k.
Proof.
  intros _ _ _ _ _ _ _ Hdef _ Hk Hpre Hok.
  destruct (retry_loop_succeeds value k (Z.to_nat (max_attempts config)) 0%Z None [])
    as (Hres & Hinv); try lia; auto.
  destruct (retry_loop_sleeps (Z.to_nat (max_attempts config)) 0%Z None [])
    as (slept & Hd & _ & Hi & _ & _); [lia | lia |].
  unfold retry_with_backoff.
  split; [exact Hres|]. split; [exact Hinv|].
  rewrite Hd. simpl. rewrite Hinv in Hi.
  destruct (Z.to_nat (max_attempts config)); simpl in Hi; lia.
Qed.

(** X5. With [max_attempts] zero or negative the operation is never invoked and
    the executor raises [RetryExhaustedError] with no underlying failure;
    with [max_attempts] at least one the operation is invoked. *)
Theorem retry_with_backoff_no_attempt :
  ((max_attempts config <= 0)%Z ->
   retry_with_backoff R func config observer rand
   = (inl (exhausted config None), []))
  /\ ((1 <= max_attempts config)%Z ->
      (1 <= invocations (retry_with_backoff R func config observer rand).2)%nat).
Proof.
  unfold retry_with_backoff. split; intros Hmax.
  - replace (Z.to_nat (max_attempts config)) with 0%nat by lia. reflexivity.
  - destruct (retry_loop_sleeps (Z.to_nat (max_attempts config)) 0%Z None [])
      as (slept & _ & _ & Hi & _ & _); [lia | lia |].
    rewrite Hi. destruct (Z.to_nat (max_attempts config)) eqn:E; simpl; lia.
Qed.

End Executor.

(** The powers of two that the network configuration asks for are
    computed. *)
Lemma network_delays_defined (R : rounding) : delays_defined R NETWORK_RETRY.
Proof.
  intros attempt Hatt. change (max_attempts NETWORK_RETRY) with 5%Z in Hatt.
  assert (H : (attempt = 0 \/ attempt = 1 \/ attempt = 2 \/ attempt = 3)%Z)
    by lia.
  destruct H as [H|[H|[H|H]]]; subst attempt; eexists; vm_compute; reflexivity.
Qed.

End RetryMore.

Lemma retry_with_backoff_sleeps_witness :
  let log :=
    (Retry.retry_with_backoff Float.ieee
       (fun _ => inl (Py.mk_exn Py.TimeoutError "slow" None) : Py.result unit)
       Retry.NETWORK_RETRY true (fun _ => 1 # 2)).2 in
  List.length (Retry.delays log) = (Retry.invocations log - 1)%nat
  /\ List.length (Retry.delays log) = 4%nat.
Proof.
  intros log. split; [|vm_compute; reflexivity].
  apply (retry_with_backoff_sleeps Float.ieee
           (fun _ => inl (Py.mk_exn Py.TimeoutError "slow" None) : Py.result unit)
           Retry.NETWORK_RETRY true (fun _ => 1 # 2)).
  - exact ieee_to_nearest.
  - vm_compute. discriminate.
  - vm_compute. discriminate.
  - vm_compute. discriminate.
  - vm_compute. discriminate.
  - split; [reflexivity | vm_compute; reflexivity].
  - reflexivity.
  - apply network_delays_defined.
  - intros k. split; vm_compute; discriminate.
Defined.

Lemma retry_with_backoff_success_witness :
  (Retry.retry_with_backoff Float.ieee
     (fun k => if (k <? 2)%nat then inl (Py.mk_exn Py.OSError "busy" None) else inr 7%nat)
     Retry.NETWORK_RETRY false (fun _ => 0)).1 = inr 7%nat.
Proof.
  apply (retry_with_backoff_success Float.ieee
           (fun k => if (k <? 2)%nat then inl (Py.mk_exn Py.OSError "busy" None)
                     else inr 7%nat)
           Retry.NETWORK_RETRY false (fun _ => 0) 2 7%nat).
  - exact ieee_to_nearest.
  - vm_compute. discriminate.
  - vm_compute. discriminate.
  - vm_compute. discriminate.
  - vm_compute. discriminate.
  - split; [reflexivity | vm_compute; reflexivity].
  - reflexivity.
  - apply network_delays_defined.
  - intros k. split; vm_compute; discriminate.
  - simpl. lia.
  - intros j Hj. exists (Py.mk_exn Py.OSError "busy" None).
    destruct j as [|[|j]]; [split; reflexivity | split; reflexivity | lia].
  - reflexivity.
Defined.

Lemma retry_with_backoff_no_attempt_witness :
  Retry.retry_with_backoff Float.ieee (fun _ => inr tt)
    (Retry.mk_RetryConfig 0 1 30 2 true [Py.Exception]) false (fun _ => 0)
  = (inl (Retry.exhausted (Retry.mk_RetryConfig 0 1 30 2 true [Py.Exception]) None), []).
Proof.
  apply (retry_with_backoff_no_attempt Float.ieee (fun _ => inr tt)
           (Retry.mk_RetryConfig 0 1 30 2 true [Py.Exception]) false (fun _ => 0)).
  simpl. lia.
Defined.
(** ** More on the liveness and URL collaborators (src/youtube_api.py) *)
Section FetchFacts.
Import Py Retry YouTubeApi.

(** An instance of a subclass of [Exception] is an instance of
    [Exception]. *)
Lemma isinstance_Exception (e : exn) (c : exn_class) :
  issubclass c Exception = true ->
  isinstance e [c] = true ->
  isinstance e [Exception] = true.
Proof.
  destruct e as [cls msg last]. unfold isinstance. simpl.
  destruct cls, c; vm_compute; congruence.
Qed.

(** What the executor raises is its own [RetryExhaustedError], a failure
    outside the retryable classes, or what the computation of a delay
    raised. *)
Lemma retry_loop_raises {A : Type} (R : Float.rounding) (func : nat -> result A)
    (config : RetryConfig) (observer : bool) (rand : nat -> Q) (remaining : nat) :
  forall attempt last log e,
    (0 <= attempt)%Z ->
    (retry_loop R func config observer rand remaining attempt last log).1 = inl e ->
    (exists last', e = exhausted config last')
    \/ isinstance e (retryable_exceptions config) = false
    \/ (exists r z,
          (0 <= z < max_attempts config - 1)%Z
          /\ calculate_delay R r z config = inl e).
Proof.
  induction remaining as [|n IH]; intros attempt last log e Hatt; simpl.
  - intros [= <-]. eauto.
  - destruct (func (Z.to_nat attempt)) as [e0|v]; simpl; [|discriminate].
    destruct (isinstance e0 (retryable_exceptions config)) eqn:Hr; simpl.
    + destruct (attempt <? max_attempts config - 1)%Z eqn:Hlt; simpl.
      * apply Z.ltb_lt in Hlt.
        destruct (calculate_delay R (rand (Z.to_nat attempt)) attempt config)
          as [raised|d] eqn:Hdelay; simpl.
        -- intros [= <-]. right. right. eauto.
        -- apply IH. lia.
      * intros [= <-]. eauto.
    + intros [= <-]. auto.
Qed.

(** What the executor returns is what some invocation returned. *)
Lemma retry_loop_value {A : Type} (R : Float.rounding) (func : nat -> result A)
    (config : RetryConfig) (observer : bool) (rand : nat -> Q) (remaining : nat) :
  forall attempt last log value,
    (retry_loop R func config observer rand remaining attempt last log).1
    = inr value ->
    exists k, func k = inr value.
Proof.
  induction remaining as [|n IH]; intros attempt last log value; simpl;
    [discriminate|].
  destruct (func (Z.to_nat attempt)) as [e|v] eqn:Hf; simpl.
  - destruct (isinstance e (retryable_exceptions config)); simpl; [|discriminate].
    destruct (attempt <? max_attempts config - 1)%Z; simpl; [|discriminate].
    destruct (calculate_delay R _ attempt config); simpl; [discriminate | apply IH].
  - intros [= <-]. eauto.
Qed.

(** The two powers of two that [YOUTUBE_RETRY] asks for are computed,
    however the platform rounds. *)
Lemma youtube_delays_defined (R : Float.rounding) : delays_defined R YOUTUBE_RETRY.
Proof.
  intros attempt Hatt. change (max_attempts YOUTUBE_RETRY) with 3%Z in Hatt.
  assert (H : (attempt = 0 \/ attempt = 1)%Z) by lia.
  destruct H as [H|H]; subst attempt; eexists; vm_compute; reflexivity.
Qed.

(** Under [YOUTUBE_RETRY] the executor raises its own
    [RetryExhaustedError] or a failure that is no [Exception]. *)
Lemma youtube_retry_raises {A : Type} (R : Float.rounding) (func : nat -> result A)
    (rand : nat -> Q) (e : exn) :
  (retry_with_backoff R func YOUTUBE_RETRY true rand).1 = inl e ->
  (exists last', e = exhausted YOUTUBE_RETRY last')
  \/ isinstance e [Exception] = false.
Proof.
  intros H.
  destruct (retry_loop_raises R func YOUTUBE_RETRY true rand 3 0%Z None [] e
              ltac:(lia) H) as [Hex|[Hnot|(r & z & Hz & Hdelay)]];
    [now left | now right |].
  destruct (youtube_delays_defined R z Hz) as (power & Hpow).
  destruct (calculate_delay_defined R r _ _ _ Hpow) as (d & Hd).
  congruence.
Qed.

Variable run : list string -> nat -> result CompletedProcess.
Variable json_loads : string -> result json.
Variable R : Float.rounding.
Variable rand : nat -> Q.
Variables cb cf : option string.

(** Every [Exception] that [get_video_info] raises comes out of its first
    [except] clause. *)
Lemma get_video_info_raises (url : string) (e : exn) :
  (get_video_info run json_loads R rand cb cf url).1 = inl e ->
  isinstance e [Exception] = true ->
  exn_cls e = YouTubeError
  /\ exists last,
       exn_msg e = "Failed to fetch video info after retries: " +:+ last.
Proof.
  unfold get_video_info.
  pose proof (youtube_retry_raises R (_fetch_video_info run json_loads cb cf url)
                rand) as Hraise.
  destruct (retry_with_backoff _ _ _ _ _) as [[e0|info] log]; cbn [fst snd] in *;
    [|discriminate].
  destruct (Hraise e0 eq_refl) as [(last' & ->)|Hnot].
  - change (isinstance (exhausted YOUTUBE_RETRY last') [RetryExhaustedError])
      with true.
    cbn iota. intros [= <-] _. split; [reflexivity|]. simpl. eauto.
  - destruct (isinstance e0 [RetryExhaustedError]) eqn:H1.
    { apply isinstance_Exception in H1; [congruence | reflexivity]. }
    destruct (isinstance e0 [TimeoutExpired]) eqn:H2.
    { apply isinstance_Exception in H2; [congruence | reflexivity]. }
    destruct (isinstance e0 [JSONDecodeError]) eqn:H3.
    { apply isinstance_Exception in H3; [congruence | reflexivity]. }
    destruct (isinstance e0 [FileNotFoundError]) eqn:H4.
    { apply isinstance_Exception in H4; [congruence | reflexivity]. }
    intros [= <-] Hexc. congruence.
Qed.

(** A [YouTubeError] is an [Exception]. *)
Lemma YouTubeError_is_Exception (e : exn) :
  isinstance e [YouTubeError] = true -> isinstance e [Exception] = true.
Proof. intros H. apply isinstance_Exception in H; [exact H | reflexivity]. Qed.

(** The [Exception]s that leave [check_live_status] on top of
    [get_video_info]: none but the [AttributeError] of metadata that are
    not an object. *)
Lemma check_live_status_raises (video_id : string) (e : exn) :
  check_live_status (fun u => (get_video_info run json_loads R rand cb cf u).1)
    video_id = inl e ->
  isinstance e [Exception] = true ->
  exists value,
    (get_video_info run json_loads R rand cb cf
       ("https://www.youtube.com/watch?v=" +:+ video_id)).1 = inr value
    /\ (forall info, value <> JObject info)
    /\ e = no_get value.
Proof.
  unfold check_live_status.
  pose proof (get_video_info_raises ("https://www.youtube.com/watch?v=" +:+ video_id))
    as Hwrap.
  destruct (get_video_info run json_loads R rand cb cf _).1
    as [e0|[info| | | | | |]]; [|discriminate|..].
  { destruct (isinstance e0 [YouTubeError]) eqn:Hyt; [discriminate|].
    intros [= <-] Hexc.
    destruct (Hwrap e0 eq_refl Hexc) as (Hcls & _).
    destruct e0 as [cls msg last]. simpl in Hcls. subst cls. discriminate Hyt. }
  all: cbn; intros [= <-] _; eexists; split; [reflexivity|];
    split; [discriminate | reflexivity].
Qed.

(** X7. [get_video_info] runs the fetch at most three times.  Whatever
    [Exception] the fetch raises (a non-zero exit, a timeout, a missing
    program, output that is not JSON), the caller sees a [YouTubeError]
    whose text starts with the words of the retry wrapper: the three
    [except] clauses after the first are never the ones that answer. *)
Theorem get_video_info_wraps (url : string) :
  (invocations (get_video_info run json_loads R rand cb cf url).2 <= 3)%nat
  /\ forall e,
       (get_video_info run json_loads R rand cb cf url).1 = inl e ->
       isinstance e [Exception] = true ->
       exn_cls e = YouTubeError
       /\ exists last,
            exn_msg e = "Failed to fetch video info after retries: " +:+ last.
Proof.
  split; [|intros e; apply get_video_info_raises].
  unfold get_video_info.
  pose proof (retry_loop_invocations R (_fetch_video_info run json_loads cb cf url)
                YOUTUBE_RETRY true rand 3 0%Z None []) as Hcount.
  change (retry_loop _ _ _ _ _ 3 0%Z None [])
    with (retry_with_backoff R (_fetch_video_info run json_loads cb cf url)
            YOUTUBE_RETRY true rand) in Hcount.
  destruct (retry_with_backoff _ _ _ _ _) as [res log]. exact Hcount.
Qed.

(** X8. On top of [get_video_info], [check_live_status] raises an
    [Exception] in one case only: when the fetch returns a JSON value that
    is not an object, the [AttributeError] of the first read of the
    metadata leaves it, since its handler catches [YouTubeError] alone.
    Every [Exception] that the fetch itself raises ends in the status that
    is not live. *)
Theorem check_live_status_exceptions (video_id : string) :
  (forall e,
     check_live_status (fun u => (get_video_info run json_loads R rand cb cf u).1)
       video_id = inl e ->
     isinstance e [Exception] = true ->
     exists value,
       (get_video_info run json_loads R rand cb cf
          ("https://www.youtube.com/watch?v=" +:+ video_id)).1 = inr value
       /\ (forall info, value <> JObject info)
       /\ e = no_get value
       /\ exn_cls e = AttributeError)
  /\ (forall value,
        (get_video_info run json_loads R rand cb cf
           ("https://www.youtube.com/watch?v=" +:+ video_id)).1 = inr value ->
        (forall info, value <> JObject info) ->
        check_live_status (fun u => (get_video_info run json_loads R rand cb cf u).1)
          video_id = inl (no_get value))
  /\ (forall e,
        (get_video_info run json_loads R rand cb cf
           ("https://www.youtube.com/watch?v=" +:+ video_id)).1 = inl e ->
        isinstance e [Exception] = true ->
        check_live_status (fun u => (get_video_info run json_loads R rand cb cf u).1)
          video_id = inr (mk_LiveStatus false None None None)).
Proof.
  split; [|split].
  - intros e He Hexc.
    destruct (check_live_status_raises video_id e He Hexc) as (value & Hv & Hno & ->).
    exists value. repeat split; assumption || reflexivity.
  - intros value Hv Hno. unfold check_live_status. rewrite Hv.
    destruct value as [info| | | | | |]; [now destruct (Hno info)|reflexivity..].
  - intros e He Hexc. unfold check_live_status. rewrite He.
    destruct (get_video_info_raises _ e He Hexc) as (Hcls & _).
    destruct e as [cls msg last]. simpl in Hcls. subst cls. reflexivity.
Qed.

Lemma lower_app (a b : string) : lower (a +:+ b) = lower a +:+ lower b.
Proof. induction a as [|c a IH]; simpl; [reflexivity|]. now rewrite IH. Qed.

Lemma contains_app_r (needle a b : string) :
  contains needle b = true -> contains needle (a +:+ b) = true.
Proof.
  intros Hb. induction a as [|c a IH]; simpl; [exact Hb|].
  rewrite IH. apply orb_true_r.
Qed.

(** X9. The words that make a failure a missing channel are looked for in the
    text of the wrapped failure, so they are found whenever the last failure
    of the fetch holds one of them, in any letter case. *)
Theorem get_channel_live_status_not_found (channel_id : string) (last : exn) :
  channel_id <> EmptyString ->
  (forall k, (k < 3)%nat ->
     exists e,
       _fetch_video_info run json_loads cb cf
         ("https://www.youtube.com/channel/" +:+ channel_id +:+ "/live") k = inl e
       /\ isinstance e [Exception] = true) ->
  _fetch_video_info run json_loads cb cf
    ("https://www.youtube.com/channel/" +:+ channel_id +:+ "/live") 2 = inl last ->
  existsb (fun msg => contains msg (lower (exn_msg last)))
    ["not found"; "unavailable"; "does not exist"; "removed"] = true ->
  get_channel_live_status
    (fun u => (get_video_info run json_loads R rand cb cf u).1) channel_id
  = inl (mk_exn ChannelNotFoundError ("Channel not found: " +:+ channel_id) None).
Proof.
  intros Hne Hfail Hlast Hwords.
  unfold get_channel_live_status.
  rewrite (proj2 (String.eqb_neq _ _) Hne).
  unfold get_video_info.
  destruct (retry_loop_exhausts R
              (_fetch_video_info run json_loads cb cf
                 ("https://www.youtube.com/channel/" +:+ channel_id +:+ "/live"))
              YOUTUBE_RETRY true rand 3 0%Z None [] last) as [Hres _];
    [lia | reflexivity | lia | apply youtube_delays_defined | exact Hfail
    | exact Hlast |].
  change (retry_loop _ _ _ _ _ 3 0%Z None [])
    with (retry_with_backoff R
            (_fetch_video_info run json_loads cb cf
               ("https://www.youtube.com/channel/" +:+ channel_id +:+ "/live"))
            YOUTUBE_RETRY true rand) in Hres.
  destruct (retry_with_backoff _ _ _ _ _) as [res log]. cbn [fst] in *. subst res.
  change (isinstance (exhausted YOUTUBE_RETRY (Some last)) [RetryExhaustedError])
    with true.
  cbn iota.
  change (isinstance (mk_exn YouTubeError _ None) [YouTubeError]) with true.
  cbn iota. cbn [exn_msg exhausted last_exception str_opt_exn].
  rewrite lower_app.
  assert (Hfound :
            existsb
              (fun msg =>
                 contains msg
                   (lower "Failed to fetch video info after retries: "
                    +:+ lower (exn_msg last)))
              ["not found"; "unavailable"; "does not exist"; "removed"] = true).
  { apply existsb_exists in Hwords as (msg & Hin & Hmsg).
    apply existsb_exists. exists msg. split; [exact Hin|].
    now apply contains_app_r. }
  now rewrite Hfound.
Qed.

(** X10. For one and the same metadata, the channel check is the stricter one:
    whatever it reports live the video check reports live too, a stream
    marked as having been live is never live for it, and an offline status
    carries neither identifier nor title. *)
Theorem channel_check_stricter (info : video_info) (video_id channel_id : string) :
  channel_id <> EmptyString ->
  exists by_channel by_video,
    get_channel_live_status (fun _ => inr (JObject info)) channel_id
    = inr by_channel
    /\ check_live_status (fun _ => inr (JObject info)) video_id = inr by_video
    /\ (is_live by_channel = true -> is_live by_video = true)
    /\ (get_flag (info_was_live info) = true -> is_live by_channel = false)
    /\ (is_live by_channel = false ->
        YouTubeApi.video_id by_channel = None /\ title by_channel = None)
    /\ YouTubeApi.video_id by_video = Some video_id.
Proof.
  intros Hne. unfold get_channel_live_status, check_live_status.
  rewrite (proj2 (String.eqb_neq _ _) Hne).
  eexists. eexists. split; [reflexivity|]. split; [reflexivity|]. simpl.
  destruct (get_flag (info_is_live info)), (live_status_is_live info),
    (get_flag (info_was_live info)); simpl; repeat split; auto; discriminate.
Qed.

Lemma lstrip_space_head (s : string) :
  match lstrip_space s with
  | EmptyString => True
  | String c _ => isspace c = false
  end.
Proof.
  induction s as [|c s IH]; simpl; [exact I|].
  destruct (isspace c) eqn:E; [exact IH | exact E].
Qed.

Lemma lstrip_space_fixed (s : string) :
  match s with
  | EmptyString => True
  | String c _ => isspace c = false
  end ->
  lstrip_space s = s.
Proof. destruct s as [|c s]; simpl; [reflexivity|]. now intros ->. Qed.

Lemma rstrip_space_idem (s : string) : rstrip_space (rstrip_space s) = rstrip_space s.
Proof.
  induction s as [|c s IH]; simpl; [reflexivity|].
  destruct (rstrip_space s) as [|d kept] eqn:E.
  - destruct (isspace c) eqn:Hc; simpl; [reflexivity|]. now rewrite Hc.
  - change (rstrip_space (String c (String d kept)))
      with (match rstrip_space (String d kept) with
            | EmptyString => if isspace c then EmptyString else String c EmptyString
            | kept' => String c kept'
            end).
    now rewrite IH.
Qed.

Lemma rstrip_space_head (c : ascii) (s : string) :
  isspace c = false -> exists kept, rstrip_space (String c s) = String c kept.
Proof.
  intros Hc. simpl. destruct (rstrip_space s); rewrite ?Hc; eauto.
Qed.

(** [strip] of a stripped text changes nothing. *)
Lemma str_strip_idem (s : string) : str_strip (str_strip s) = str_strip s.
Proof.
  unfold str_strip.
  pose proof (lstrip_space_head s) as Hhead.
  destruct (lstrip_space s) as [|c t] eqn:E; [reflexivity|].
  destruct (rstrip_space_head c t Hhead) as [kept Hkept].
  rewrite lstrip_space_fixed.
  - apply rstrip_space_idem.
  - now rewrite Hkept.
Qed.

(** X11. [get_stream_url] runs the URL fetch only for a video that its own
    liveness check reports live, and at most three times; the URL it returns
    is never empty and has no white space around it; the [Exception]s it
    raises are [NotLiveError], [StreamUnavailableError] and, before any URL
    fetch, the [AttributeError] that its liveness check lets through for
    metadata that are not an object. *)
Theorem get_stream_url_guarded (video_id quality : string) :
  (invocations (get_stream_url run json_loads R rand cb cf video_id quality).2 <= 3)%nat
  /\ ((get_stream_url run json_loads R rand cb cf video_id quality).2 <> [] ->
      exists status,
        check_live_status
          (fun u => (get_video_info run json_loads R rand cb cf u).1) video_id
        = inr status
        /\ is_live status = true)
  /\ (forall stream_url,
        (get_stream_url run json_loads R rand cb cf video_id quality).1
        = inr stream_url ->
        stream_url <> EmptyString /\ str_strip stream_url = stream_url)
  /\ (forall e,
        (get_stream_url run json_loads R rand cb cf video_id quality).1 = inl e ->
        isinstance e [Exception] = true ->
        exn_cls e = NotLiveError
        \/ exn_cls e = StreamUnavailableError
        \/ (exists value,
              (get_video_info run json_loads R rand cb cf
                 ("https://www.youtube.com/watch?v=" +:+ video_id)).1 = inr value
              /\ (forall info, value <> JObject info)
              /\ e = no_get value
              /\ (get_stream_url run json_loads R rand cb cf video_id quality).2
                 = [])).
Proof.
  unfold get_stream_url.
  pose proof (check_live_status_raises video_id) as Hcheck.
  destruct (check_live_status _ video_id) as [e0|status] eqn:Hstatus.
  { cbn [fst snd]. split; [rewrite invocations_nil; lia|].
    split; [congruence|]. split; [discriminate|].
    intros e [= <-] Hexc.
    destruct (Hcheck e0 eq_refl Hexc) as (value & Hv & Hno & He).
    right. right. exists value. repeat split; assumption. }
  destruct (is_live status) eqn:Hlive; cbn [negb]; cbn iota.
  2:{ cbn [fst snd]. split; [rewrite invocations_nil; lia|].
      split; [congruence|]. split; [discriminate|].
      intros e [= <-] _. now left. }
  set (fetch := _fetch_stream_url run cb cf
                  ("https://www.youtube.com/watch?v=" +:+ video_id)
                  (format_selector_of quality)).
  pose proof (retry_loop_invocations R fetch YOUTUBE_RETRY true rand 3 0%Z None [])
    as Hcount.
  pose proof (youtube_retry_raises R fetch rand) as Hraise.
  assert (Hok : forall u,
             (retry_loop R fetch YOUTUBE_RETRY true rand 3 0%Z None []).1 = inr u ->
             u <> EmptyString /\ str_strip u = u).
  { intros u Hu. destruct (retry_loop_value _ _ _ _ _ _ _ _ _ _ Hu) as [k Hk].
    unfold fetch, _fetch_stream_url in Hk.
    destruct (run _ k) as [e1|completed]; [discriminate|].
    destruct (negb _); [discriminate|].
    destruct (str_strip (stdout completed)) as [|c t] eqn:Hs; [discriminate|].
    injection Hk as <-. split; [discriminate|].
    rewrite <- Hs. apply str_strip_idem. }
  change (retry_loop R fetch YOUTUBE_RETRY true rand 3 0%Z None [])
    with (retry_with_backoff R fetch YOUTUBE_RETRY true rand) in Hcount, Hok.
  destruct (retry_with_backoff R fetch YOUTUBE_RETRY true rand) as [[e1|u] log];
    cbn [fst snd] in *.
  - split; [exact Hcount|]. split; [eauto|]. split.
    + intros stream_url.
      destruct (isinstance e1 [RetryExhaustedError]); [discriminate|].
      destruct (isinstance e1 [TimeoutExpired]); [discriminate|].
      destruct (isinstance e1 [FileNotFoundError]); discriminate.
    + intros e.
      destruct (Hraise e1 eq_refl) as [(last' & ->)|Hnot].
      * change (isinstance (exhausted YOUTUBE_RETRY last') [RetryExhaustedError])
          with true.
        cbn iota. intros [= <-] _. right. now left.
      * destruct (isinstance e1 [RetryExhaustedError]) eqn:H1.
        { intros [= <-] _. right. now left. }
        destruct (isinstance e1 [TimeoutExpired]) eqn:H2.
        { intros [= <-] _. right. now left. }
        destruct (isinstance e1 [FileNotFoundError]) eqn:H3.
        { intros [= <-] _. right. now left. }
        intros [= <-] Hexc. congruence.
  - split; [exact Hcount|]. split; [eauto|]. split.
    + intros stream_url [= <-]. now apply Hok.
    + discriminate.
Qed.

End FetchFacts.

Lemma get_channel_live_status_not_found_witness :
  YouTubeApi.get_channel_live_status
    (fun u =>
       (YouTubeApi.get_video_info
          (fun _ _ =>
             inr (YouTubeApi.mk_CompletedProcess 1 EmptyString
                    "ERROR: This channel does not exist."))
          (fun _ => inl (Py.mk_exn Py.JSONDecodeError "Expecting value" None))
          Float.ieee (fun _ => 0) None None u).1)
    "UC0123456789"
  = inl (Py.mk_exn Py.ChannelNotFoundError "Channel not found: UC0123456789" None).
Proof.
  apply (get_channel_live_status_not_found
           (fun _ _ =>
              inr (YouTubeApi.mk_CompletedProcess 1 EmptyString
                     "ERROR: This channel does not exist."))
           (fun _ => inl (Py.mk_exn Py.JSONDecodeError "Expecting value" None))
           Float.ieee (fun _ => 0) None None "UC0123456789"
           (Py.mk_exn Py.YouTubeError
              "yt-dlp failed: ERROR: This channel does not exist." None)).
  - discriminate.
  - intros k _. eexists. split; reflexivity.
  - reflexivity.
  - reflexivity.
Defined.

Lemma channel_check_stricter_witness :
  exists by_channel,
    YouTubeApi.get_channel_live_status
      (fun _ =>
         inr (YouTubeApi.JObject
                (YouTubeApi.mk_video_info (Some true) (Some "is_live") (Some true)
                   (Some "AAAAAAAAAAA") (Some "Stream") (Some "Channel"))))
      "UC0123456789" = inr by_channel
    /\ YouTubeApi.is_live by_channel = false.
Proof.
  destruct (channel_check_stricter
              (YouTubeApi.mk_video_info (Some true) (Some "is_live") (Some true)
                 (Some "AAAAAAAAAAA") (Some "Stream") (Some "Channel"))
              "AAAAAAAAAAA" "UC0123456789")
    as (by_channel & by_video & Hc & _ & _ & Hwas & _); [discriminate|].
  exists by_channel. split; [exact Hc|]. apply Hwas. reflexivity.
Defined.

Lemma get_stream_url_guarded_witness :
  let run : list string -> nat -> Py.result YouTubeApi.CompletedProcess :=
    fun (cmd : list string) (_ : nat) =>
      if (nth 3 cmd EmptyString =? "-g")%string
      then inr (YouTubeApi.mk_CompletedProcess 0
                  "  https://cdn.example.invalid/live.m3u8 " EmptyString)
      else inr (YouTubeApi.mk_CompletedProcess 0 "{}" EmptyString) in
  let json_loads : string -> Py.result YouTubeApi.json :=
    fun _ : string =>
      inr (YouTubeApi.JObject
             (YouTubeApi.mk_video_info (Some true) (Some "is_live") None
                (Some "AAAAAAAAAAA") (Some "Stream") (Some "Channel"))) in
  ("https://cdn.example.invalid/live.m3u8" <> EmptyString
   /\ Py.str_strip "https://cdn.example.invalid/live.m3u8"
      = "https://cdn.example.invalid/live.m3u8")
  /\ (YouTubeApi.get_stream_url run (fun _ => inr YouTubeApi.JNull)
        Float.ieee (fun _ => 0) None None "AAAAAAAAAAA" "720p").1
     = inl (Py.mk_exn Py.AttributeError
              "'NoneType' object has no attribute 'get'" None)
  /\ (YouTubeApi.get_stream_url run (fun _ => inr YouTubeApi.JNull)
        Float.ieee (fun _ => 0) None None "AAAAAAAAAAA" "720p").2
     = [].
Proof.
  intros run json_loads. split.
  - apply (proj1 (proj2 (proj2 (get_stream_url_guarded run json_loads
                                  Float.ieee (fun _ => 0)
                                  None None "AAAAAAAAAAA" "720p")))).
    vm_compute. reflexivity.
  - split; [vm_compute; reflexivity|].
    destruct (proj2 (proj2 (proj2 (get_stream_url_guarded run
                                     (fun _ => inr YouTubeApi.JNull)
                                     Float.ieee (fun _ => 0)
                                     None None "AAAAAAAAAAA" "720p")))
                (Py.mk_exn Py.AttributeError
                   "'NoneType' object has no attribute 'get'" None))
      as [H|[H|(value & _ & _ & _ & Hlog)]].
    + vm_compute. reflexivity.
    + reflexivity.
    + discriminate H.
    + discriminate H.
    + exact Hlog.
Defined.

Lemma get_video_info_wraps_witness :
  exists e,
    (YouTubeApi.get_video_info
       (fun _ _ => inl (Py.mk_exn Py.TimeoutExpired "Command timed out after 30 seconds" None))
       (fun _ => inl (Py.mk_exn Py.JSONDecodeError "Expecting value" None))
       Float.ieee (fun _ => 0) None None "https://youtu.be/AAAAAAAAAAA").1
    = inl e
    /\ Py.exn_cls e = Py.YouTubeError.
Proof.
  eexists. split; [vm_compute; reflexivity|].
  apply (proj2 (get_video_info_wraps
                  (fun _ _ => inl (Py.mk_exn Py.TimeoutExpired
                                     "Command timed out after 30 seconds" None))
                  (fun _ => inl (Py.mk_exn Py.JSONDecodeError "Expecting value" None))
                  Float.ieee (fun _ => 0) None None
                  "https://youtu.be/AAAAAAAAAAA")).
  - vm_compute. reflexivity.
  - reflexivity.
Defined.

Lemma check_live_status_exceptions_witness :
  YouTubeApi.check_live_status
    (fun u =>
       (YouTubeApi.get_video_info
          (fun _ _ => inr (YouTubeApi.mk_CompletedProcess 0 "null" EmptyString))
          (fun _ => inr YouTubeApi.JNull)
          Float.ieee (fun _ => 0) None None u).1)
    "AAAAAAAAAAA"
  = inl (Py.mk_exn Py.AttributeError
           "'NoneType' object has no attribute 'get'" None)
  /\ YouTubeApi.check_live_status
       (fun u =>
          (YouTubeApi.get_video_info
             (fun _ _ =>
                inl (Py.mk_exn Py.FileNotFoundError
                       "[Errno 2] No such file or directory: 'yt-dlp'" None))
             (fun _ => inr YouTubeApi.JNull)
             Float.ieee (fun _ => 0) None None u).1)
       "AAAAAAAAAAA"
     = inr (YouTubeApi.mk_LiveStatus false None None None).
Proof.
  split.
  - apply (proj1 (proj2 (check_live_status_exceptions
                           (fun _ _ =>
                              inr (YouTubeApi.mk_CompletedProcess 0 "null"
                                     EmptyString))
                           (fun _ => inr YouTubeApi.JNull)
                           Float.ieee (fun _ => 0) None None "AAAAAAAAAAA"))
             YouTubeApi.JNull).
    + vm_compute. reflexivity.
    + discriminate.
  - eapply (proj2 (proj2 (check_live_status_exceptions
                            (fun _ _ =>
                               inl (Py.mk_exn Py.FileNotFoundError
                                      "[Errno 2] No such file or directory: 'yt-dlp'"
                                      None))
                            (fun _ => inr YouTubeApi.JNull)
                            Float.ieee (fun _ => 0) None None "AAAAAAAAAAA"))).
    + vm_compute. reflexivity.
    + reflexivity.
Defined.

Section UrlFacts.
Import Py Regex YouTubeApi.
#[local] Arguments String.append !s1 s2 : simpl nomatch.

Lemma group_sound (n : nat) (f : ascii -> bool) (s id : string) :
  group n f s = Some id ->
  String.length id = n
  /\ forallb f (list_ascii_of_string id) = true
  /\ exists post, s = id +:+ post.
Proof.
  revert s id. induction n as [|n IH]; intros s id H; simpl in H.
  - injection H as <-. repeat split. now exists s.
  - destruct s as [|c rest]; [discriminate|].
    destruct (f c) eqn:Hc; [|discriminate].
    destruct (group n f rest) as [taken|] eqn:Hg; [|discriminate].
    injection H as <-. destruct (IH _ _ Hg) as (Hl & Hf & post & ->).
    simpl. rewrite Hl, Hc, Hf. repeat split. now exists post.
Qed.

Lemma group_complete (f : ascii -> bool) (id post : string) :
  forallb f (list_ascii_of_string id) = true ->
  group (String.length id) f (id +:+ post) = Some id.
Proof.
  induction id as [|c id IH]; simpl; [reflexivity|].
  intros [Hc Hf]%andb_true_iff. now rewrite Hc, (IH Hf).
Qed.

Lemma matches_lit (R : Type) (t s : string) (k : string -> option R) (x : R) :
  matches (lit t) s k = Some x -> exists rest, s = t +:+ rest /\ k rest = Some x.
Proof.
  revert s. induction t as [|c t IH]; intros s H; simpl in H.
  - now exists s.
  - destruct s as [|c' rest]; [discriminate|].
    destruct (Ascii.eqb_spec c c') as [<-|]; [|discriminate].
    destruct (IH _ H) as (rest' & -> & Hk). now exists rest'.
Qed.

Lemma matches_lit_app (R : Type) (t rest : string) (k : string -> option R) :
  matches (lit t) (t +:+ rest) k = k rest.
Proof.
  induction t as [|c t IH]; simpl; [reflexivity|].
  now rewrite Ascii.eqb_refl.
Qed.

Lemma star_some (R : Type) (f : ascii -> bool) (s : string)
    (k : string -> option R) (x : R) :
  star f s k = Some x ->
  exists q rest,
    s = q +:+ rest /\ forallb f (list_ascii_of_string q) = true /\ k rest = Some x.
Proof.
  induction s as [|c s IH]; simpl; intros H.
  - now exists EmptyString, EmptyString.
  - destruct (f c) eqn:Hc.
    + destruct (star f s k) as [found|] eqn:Hs.
      * injection H as ->. destruct (IH eq_refl) as (q & rest & -> & Hq & Hk).
        exists (String c q), rest. simpl. now rewrite Hc, Hq.
      * now exists EmptyString, (String c s).
    + now exists EmptyString, (String c s).
Qed.

Lemma star_none (R : Type) (f : ascii -> bool) (s : string) (k : string -> option R) :
  (forall pre rest, s = pre +:+ rest -> k rest = None) -> star f s k = None.
Proof.
  induction s as [|c s IH]; simpl; intros H.
  - now apply (H EmptyString).
  - rewrite IH.
    + destruct (f c); now apply (H EmptyString).
    + intros pre rest ->. now apply (H (String c pre)).
Qed.

Lemma star_here (R : Type) (f : ascii -> bool) (s : string)
    (k : string -> option R) (x : R) :
  k s = Some x ->
  (forall c pre rest, s = String c pre +:+ rest -> k rest = None) ->
  star f s k = Some x.
Proof.
  intros Hk Hnone. destruct s as [|c s]; simpl; [exact Hk|].
  rewrite star_none; [now destruct (f c)|].
  intros pre rest ->. now apply (Hnone c pre).
Qed.

Lemma star_skip (R : Type) (f : ascii -> bool) (q s : string)
    (k : string -> option R) (x : R) :
  forallb f (list_ascii_of_string q) = true ->
  star f s k = Some x -> star f (q +:+ s) k = Some x.
Proof.
  induction q as [|c q IH]; simpl; [easy|].
  intros [Hc Hq]%andb_true_iff Hs. now rewrite Hc, (IH Hq Hs).
Qed.

Lemma search_some (R : Type) (r : re) (k : string -> option R) (s : string) (x : R) :
  search r k s = Some x ->
  exists pre rest, s = pre +:+ rest /\ matches r rest k = Some x.
Proof.
  induction s as [|c s IH]; simpl; intros H.
  - destruct (matches r EmptyString k) eqn:Hm; [|discriminate].
    injection H as ->. now exists EmptyString, EmptyString.
  - destruct (matches r (String c s) k) eqn:Hm.
    + injection H as ->. now exists EmptyString, (String c s).
    + destruct (IH H) as (pre & rest & -> & Hr). now exists (String c pre), rest.
Qed.

Lemma search_here (R : Type) (r : re) (k : string -> option R) (s : string) (x : R) :
  matches r s k = Some x -> search r k s = Some x.
Proof. intros H. destruct s; simpl; now rewrite H. Qed.

Lemma scheme_some (R : Type) (s : string) (k : string -> option R) (x : R) :
  matches scheme s k = Some x -> exists p rest, s = p +:+ rest /\ k rest = Some x.
Proof.
  unfold scheme. cbn [matches]. intros H.
  destruct (matches (lit "http") s _) as [found|] eqn:Hm.
  - injection H as ->. apply matches_lit in Hm as (r1 & -> & Hm). cbn [matches] in Hm.
    match type of Hm with
    | match ?a with _ => _ end = _ => destruct a as [f1|] eqn:Hs
    end.
    + injection Hm as ->. destruct r1 as [|c r1]; [discriminate|].
      destruct (Ascii.eqb_spec "s" c) as [<-|]; [|discriminate].
      apply matches_lit in Hs as (r2 & -> & Hk).
      now exists "https://", r2.
    + apply matches_lit in Hm as (r2 & -> & Hk).
      now exists "http://", r2.
  - now exists EmptyString, s.
Qed.

Lemma watch_some (s id : string) :
  matches watch_pattern s (group 11 id_char) = Some id ->
  exists p m rest, s = p +:+ m +:+ rest /\ marker m /\ group 11 id_char rest = Some id.
Proof.
  unfold watch_pattern. cbn [matches]. intros H.
  apply scheme_some in H as (p & r0 & -> & H).
  assert (Hbody : forall t,
    match matches (Seq (lit "youtube.com/watch?") (Seq (Star dot) (lit "v="))) t (group 11 id_char) with
    | Some found => Some found
    | None =>
      match matches (lit "youtu.be/") t (group 11 id_char) with
      | Some found => Some found
      | None =>
        match matches (lit "youtube.com/live/") t (group 11 id_char) with
        | Some found => Some found
        | None => matches (Seq (lit "m.youtube.com/watch?") (Seq (Star dot) (lit "v="))) t (group 11 id_char)
        end
      end
    end = Some id ->
    exists p' m rest, t = p' +:+ m +:+ rest /\ marker m /\ group 11 id_char rest = Some id).
  { intros t Ht.
    destruct (matches (Seq (lit "youtube.com/watch?") _) t _) as [f1|] eqn:H1.
    { injection Ht as ->. cbn [matches] in H1.
      apply matches_lit in H1 as (r1 & -> & H1).
      apply star_some in H1 as (q & r2 & -> & Hq & H1).
      apply matches_lit in H1 as (r3 & -> & H1).
      exists EmptyString, ("youtube.com/watch?" +:+ q +:+ "v="), r3.
      split; [|split; [|exact H1]].
      - simpl. now rewrite ?append_assoc.
      - right; right; right. now exists q. }
    destruct (matches (lit "youtu.be/") t _) as [f2|] eqn:H2.
    { injection Ht as ->. apply matches_lit in H2 as (r1 & -> & H2).
      exists EmptyString, "youtu.be/", r1. split; [reflexivity|]. split; [now left|exact H2]. }
    destruct (matches (lit "youtube.com/live/") t _) as [f3|] eqn:H3.
    { injection Ht as ->. apply matches_lit in H3 as (r1 & -> & H3).
      exists EmptyString, "youtube.com/live/", r1.
      split; [reflexivity|]. split; [right; now left|exact H3]. }
    cbn [matches] in Ht.
    apply matches_lit in Ht as (r1 & -> & Ht).
    apply star_some in Ht as (q & r2 & -> & Hq & Ht).
    apply matches_lit in Ht as (r3 & -> & Ht).
    exists "m.", ("youtube.com/watch?" +:+ q +:+ "v="), r3.
    split; [|split; [|exact Ht]].
    - simpl. now rewrite ?append_assoc.
    - right; right; right. now exists q. }
  cbn [matches] in Hbody.
  assert (Hwrap : forall p' t,
            (exists p1 m rest, t = p1 +:+ m +:+ rest /\ marker m
                               /\ group 11 id_char rest = Some id) ->
            exists p1 m rest, p +:+ p' +:+ t = p1 +:+ m +:+ rest /\ marker m
                              /\ group 11 id_char rest = Some id).
  { intros p' t (p1 & m & rest & -> & Hm & Hg).
    exists (p +:+ p' +:+ p1), m, rest. split; [|now split].
    now rewrite !append_assoc. }
  match type of H with
  | match ?a with _ => _ end = _ => destruct a as [f0|] eqn:H0
  end.
  - injection H as ->.
    match type of H0 with
    | match ?a with _ => _ end = _ => destruct a as [f1|] eqn:H1
    end.
    + injection H0 as ->. apply matches_lit in H1 as (r1 & -> & H2).
      apply (Hwrap "www."). now apply Hbody.
    + apply matches_lit in H0 as (r1 & -> & H2).
      apply (Hwrap "m."). now apply Hbody.
  - apply (Hwrap EmptyString r0). now apply Hbody.
Qed.

Lemma shorts_some (s id : string) :
  matches shorts_pattern s (group 11 id_char) = Some id ->
  exists p m rest, s = p +:+ m +:+ rest /\ marker m /\ group 11 id_char rest = Some id.
Proof.
  unfold shorts_pattern. cbn [matches]. intros H.
  apply scheme_some in H as (p & r0 & -> & H).
  match type of H with
  | match ?a with _ => _ end = _ => destruct a as [f0|] eqn:H0
  end.
  - injection H as ->. apply matches_lit in H0 as (r1 & -> & H1).
    apply matches_lit in H1 as (r2 & -> & H2).
    exists (p +:+ "www."), "youtube.com/shorts/", r2.
    split; [now rewrite !append_assoc|]. split; [|exact H2]. right; right; now left.
  - apply matches_lit in H as (r2 & -> & H2).
    exists p, "youtube.com/shorts/", r2.
    split; [reflexivity|]. split; [|exact H2]. right; right; now left.
Qed.

(** X12. A recognised URL yields eleven identifier characters that stand in
    the URL right after one of the four markers; anything else raises
    [InvalidURLError]. *)
Theorem extract_video_id_sound (url : string) :
  match extract_video_id url with
  | inr id =>
      String.length id = 11%nat
      /\ forallb id_char (list_ascii_of_string id) = true
      /\ exists pre m post, url = pre +:+ m +:+ id +:+ post /\ marker m
  | inl e =>
      e = mk_exn InvalidURLError ("Could not extract video ID from URL: " +:+ url) None
  end.
Proof.
  unfold extract_video_id.
  assert (Hfound : forall r id,
            (forall s, matches r s (group 11 id_char) = Some id ->
                       exists p m rest, s = p +:+ m +:+ rest /\ marker m
                                        /\ group 11 id_char rest = Some id) ->
            search r (group 11 id_char) url = Some id ->
            String.length id = 11%nat
            /\ forallb id_char (list_ascii_of_string id) = true
            /\ exists pre m post, url = pre +:+ m +:+ id +:+ post /\ marker m).
  { intros r id Hr Hs. apply search_some in Hs as (pre & rest & -> & Hm).
    apply Hr in Hm as (p & m & rest' & -> & Hmk & Hg).
    apply group_sound in Hg as (Hl & Hf & post & ->).
    split; [exact Hl|]. split; [exact Hf|].
    exists (pre +:+ p), m, post. split; [|exact Hmk]. now rewrite !append_assoc. }
  destruct (search watch_pattern _ url) as [id|] eqn:H1.
  { apply (Hfound watch_pattern id); [intros s; apply watch_some | exact H1]. }
  destruct (search shorts_pattern _ url) as [id|] eqn:H2.
  { apply (Hfound shorts_pattern id); [intros s; apply shorts_some | exact H2]. }
  reflexivity.
Qed.

Lemma prefix_app (n r : string) : String.prefix n (n +:+ r) = true.
Proof.
  induction n as [|c n IH]; simpl; [now destruct r|].
  destruct (ascii_dec c c); [exact IH | congruence].
Qed.

Lemma contains_middle (n pre r : string) : contains n (pre +:+ n +:+ r) = true.
Proof.
  induction pre as [|c pre IH]; simpl.
  - pose proof (prefix_app n r) as Hp.
    destruct (n +:+ r); cbn [contains]; now rewrite Hp.
  - rewrite IH. apply orb_true_r.
Qed.

Lemma star_last_v (q id tail : string) :
  forallb dot (list_ascii_of_string q) = true ->
  String.length id = 11%nat ->
  forallb id_char (list_ascii_of_string id) = true ->
  contains "v=" (id +:+ tail) = false ->
  star dot (q +:+ "v=" +:+ id +:+ tail)
    (fun rest => matches (lit "v=") rest (group 11 id_char)) = Some id.
Proof.
  intros Hq Hl Hf Hno. apply star_skip; [exact Hq|].
  apply star_here.
  - rewrite matches_lit_app, <- Hl. now apply group_complete.
  - intros c pre rest Hs.
    destruct (matches (lit "v=") rest (group 11 id_char)) as [x|] eqn:Hk; [|reflexivity].
    apply matches_lit in Hk as (r' & -> & _).
    simpl in Hs. injection Hs as <- Hs.
    destruct pre as [|c' pre]; simpl in Hs; [discriminate|].
    injection Hs as <- Hs.
    rewrite Hs in Hno. pose proof (contains_middle "v=" pre r') as Hin.
    simpl in Hin. congruence.
Qed.

(** X13. A short link or a live link, with or without scheme and host
    prefix, yields the eleven identifier characters that follow it, whatever
    comes after them. *)
Theorem extract_video_id_direct (scheme_text host path id tail : string) :
  In scheme_text [EmptyString; "http://"; "https://"] ->
  In host [EmptyString; "www."; "m."] ->
  In path ["youtu.be/"; "youtube.com/live/"] ->
  String.length id = 11%nat ->
  forallb id_char (list_ascii_of_string id) = true ->
  extract_video_id (scheme_text +:+ host +:+ path +:+ id +:+ tail) = inr id.
Proof.
  intros Hs Hh Hp Hl Hf.
  pose proof (group_complete id_char id tail Hf) as Hg. rewrite Hl in Hg.
  unfold extract_video_id.
  rewrite (search_here _ watch_pattern (group 11 id_char) _ id); [reflexivity|].
  simpl in Hs, Hh, Hp.
  destruct Hs as [<-|[<-|[<-|[]]]]; destruct Hh as [<-|[<-|[<-|[]]]];
    destruct Hp as [<-|[<-|[]]];
    cbn -[group]; now rewrite Hg.
Qed.

(** X14. A watch link yields the identifier of the last parameter [v] of its
    query: the eleven identifier characters after a [v=] that no other
    [v=] follows, whatever the query holds before it (on one line) and
    after it. *)
Theorem extract_video_id_watch (scheme_text host q id tail : string) :
  In scheme_text [EmptyString; "http://"; "https://"] ->
  In host [EmptyString; "www."; "m."] ->
  forallb dot (list_ascii_of_string q) = true ->
  String.length id = 11%nat ->
  forallb id_char (list_ascii_of_string id) = true ->
  contains "v=" (id +:+ tail) = false ->
  extract_video_id
    (scheme_text +:+ host +:+ "youtube.com/watch?" +:+ q +:+ "v=" +:+ id +:+ tail)
  = inr id.
Proof.
  intros Hs Hh Hq Hl Hf Hno.
  pose proof (star_last_v q id tail Hq Hl Hf Hno) as Hstar.
  cbn -[group star] in Hstar.
  unfold extract_video_id.
  rewrite (search_here _ watch_pattern (group 11 id_char) _ id); [reflexivity|].
  simpl in Hs, Hh.
  destruct Hs as [<-|[<-|[<-|[]]]]; destruct Hh as [<-|[<-|[<-|[]]]];
    cbn -[group star]; now rewrite Hstar.
Qed.

Lemma marker_youtu (m : string) : marker m -> exists m', m = "youtu" +:+ m'.
Proof.
  intros [->|[->|[->|(q & -> & _)]]]; eexists; simpl; reflexivity.
Qed.

Lemma watch_none (s : string) :
  contains "youtu" s = false -> search watch_pattern (group 11 id_char) s = None.
Proof.
  intros Hno.
  destruct (search watch_pattern (group 11 id_char) s) as [x|] eqn:Hs; [|reflexivity].
  apply search_some in Hs as (pre & rest & -> & Hm).
  apply watch_some in Hm as (p & m & rest' & -> & Hmk & _).
  apply marker_youtu in Hmk as (m' & ->).
  rewrite <- (append_assoc pre p), (append_assoc "youtu" m' rest') in Hno.
  now rewrite contains_middle in Hno.
Qed.

(** X15. A shorts link yields the identifier that follows it, provided that
    nothing after the link reads like the beginning of a link of the first
    pattern, which is tried first on the whole text. *)
Theorem extract_video_id_shorts (scheme_text host id tail : string) :
  In scheme_text [EmptyString; "http://"; "https://"] ->
  In host [EmptyString; "www."; "m."] ->
  String.length id = 11%nat ->
  forallb id_char (list_ascii_of_string id) = true ->
  contains "youtu" (id +:+ tail) = false ->
  extract_video_id (scheme_text +:+ host +:+ "youtube.com/shorts/" +:+ id +:+ tail)
  = inr id.
Proof.
  intros Hs Hh Hl Hf Hno.
  pose proof (group_complete id_char id tail Hf) as Hg. rewrite Hl in Hg.
  pose proof (watch_none _ Hno) as Hw.
  unfold extract_video_id. simpl in Hs, Hh.
  destruct Hs as [<-|[<-|[<-|[]]]]; destruct Hh as [<-|[<-|[<-|[]]]];
    cbn -[group star]; rewrite Hw; cbn -[group star]; now rewrite Hg.
Qed.

End UrlFacts.

Lemma extract_video_id_direct_witness :
  YouTubeApi.extract_video_id "https://youtu.be/dQw4w9WgXcQ?t=42" = inr "dQw4w9WgXcQ".
Proof.
  apply (extract_video_id_direct "https://" EmptyString "youtu.be/" "dQw4w9WgXcQ" "?t=42").
  - simpl. auto.
  - simpl. auto.
  - simpl. auto.
  - reflexivity.
  - reflexivity.
Defined.

Lemma extract_video_id_watch_witness :
  YouTubeApi.extract_video_id
    "https://www.youtube.com/watch?v=AAAAAAAAAAA&list=PL1&v=dQw4w9WgXcQ&t=42s"
  = inr "dQw4w9WgXcQ".
Proof.
  apply (extract_video_id_watch "https://" "www." "v=AAAAAAAAAAA&list=PL1&"
           "dQw4w9WgXcQ" "&t=42s").
  - simpl. auto.
  - simpl. auto.
  - reflexivity.
  - reflexivity.
  - reflexivity.
  - reflexivity.
Defined.

Lemma extract_video_id_shorts_witness :
  YouTubeApi.extract_video_id "https://m.youtube.com/shorts/dQw4w9WgXcQ"
  = inr "dQw4w9WgXcQ".
Proof.
  apply (extract_video_id_shorts "https://" "m." "dQw4w9WgXcQ" EmptyString).
  - simpl. auto.
  - simpl. auto.
  - reflexivity.
  - reflexivity.
  - reflexivity.
Defined.

Section RecorderMore.
Import Py Recorder.

(** The error of a failed launch is neither of the two refusals. *)
Lemma FailedToStart_other (text : string) :
  FailedToStart text <> InsufficientDiskSpace
  /\ FailedToStart text <> AlreadyRecording.
Proof. split; intros H; inversion H. Qed.

(** X16. The start is refused for lack of space exactly when the probe of
    the disk succeeds and reports fewer than 500 MiB free, counted in whole
    MiB rounded down; a probe that fails lets the start go on. *)
Theorem start_recording_disk_guard (env : start_env) (stream_url channel_name : string)
    (r : StreamRecorder) :
  _process r = None ->
  (start_recording env stream_url channel_name r).1 = inl InsufficientDiskSpace
  <-> exists free, disk_free env = Some free /\ (free < 524288000)%Z.
Proof.
  intros Hidle. unfold start_recording, check_disk_space. rewrite Hidle.
  destruct (disk_free env) as [free|]; simpl.
  - destruct (free / (1024 * 1024) <? 500)%Z eqn:Hlt; simpl.
    + apply Z.ltb_lt in Hlt. split; [intros _|reflexivity].
      exists free. split; [reflexivity|].
      destruct (Z_lt_ge_dec free 524288000) as [H|H]; [exact H|].
      assert (500 <= free / (1024 * 1024))%Z
        by (apply Z.div_le_lower_bound; lia).
      lia.
    + apply Z.ltb_ge in Hlt. split.
      * destruct (spawn env); [destruct (threads_start env)|]; simpl;
          try discriminate.
        all: intros [= H]; now apply FailedToStart_other in H.
      * intros (free' & [= <-] & Hfree).
        assert (free / (1024 * 1024) < 500)%Z
          by (apply Z.div_lt_upper_bound; lia).
        lia.
  - split.
    + destruct (spawn env); [destruct (threads_start env)|]; simpl;
        try discriminate.
      all: intros [= H]; now apply FailedToStart_other in H.
    + intros (free & Hfree & _). discriminate.
Qed.

(** A start that raises, raises a [RecordingError] and keeps the parts.
    It leaves the process and the start time as they were, unless the
    process was launched and a reader thread then failed to start. *)
Lemma start_recording_raises (env : start_env) (stream_url channel_name : string)
    (r : StreamRecorder) (e : exn) :
  (start_recording env stream_url channel_name r).1 = inl e ->
  exn_cls e = RecordingError
  /\ _recording_parts (start_recording env stream_url channel_name r).2
     = _recording_parts r
  /\ _reconnect_count (start_recording env stream_url channel_name r).2
     = _reconnect_count r
  /\ ((_process (start_recording env stream_url channel_name r).2 = _process r
       /\ _start_time (start_recording env stream_url channel_name r).2
          = _start_time r
       /\ (is_Some (_process r) \/ spawn env = None
           \/ check_disk_space (disk_free env) 500 = false))
      \/ (_process r = None
          /\ check_disk_space (disk_free env) 500 = true
          /\ threads_start env = false
          /\ e = FailedToStart (failure env)
          /\ exists seconds,
               spawn env = Some seconds
               /\ _process (start_recording env stream_url channel_name r).2
                  = Some (mk_Popen
                            (command r
                               (path_join (output_dir r)
                                  ("." +:+ Utils.generate_filename (now env)
                                             channel_name "mp4" +:+ ".tmp"))
                               stream_url)
                            seconds)
               /\ _start_time (start_recording env stream_url channel_name r).2
                  = Some (started_at env)
               /\ _output_threads (start_recording env stream_url channel_name r).2
                  = [])).
Proof.
  unfold start_recording.
  destruct (_process r) as [p|] eqn:Hp; simpl.
  - intros [= <-]. rewrite Hp. repeat split. left. repeat split. left. eauto.
  - destruct (check_disk_space (disk_free env) 500) eqn:Hdisk; simpl.
    + destruct (spawn env) as [seconds|] eqn:Hspawn; simpl.
      * destruct (threads_start env) eqn:Hthreads; simpl; [discriminate|].
        intros [= <-]. repeat split. right. repeat split.
        exists seconds. repeat split.
      * intros [= <-]. repeat split. left. repeat split. auto.
    + intros [= <-]. rewrite Hp. repeat split. left. repeat split. auto.
Qed.

(** X17. A start that raises, raises a [RecordingError] and leaves the
    recording parts as they were.  When the start was refused (a process
    is owned, or the disk is too full) or the process could not be
    launched, it neither acquires nor drops a process: the recorder owns
    the process it owned, records exactly when it did before and keeps its
    start time.  When the process was launched and a reader thread then
    failed to start, the error is the one of a failed start with the text
    of the cause, and the recorder is left owning the launched process,
    with the new start time and no reader threads: the handler resets
    nothing. *)
Theorem start_recording_failure (env : start_env) (stream_url channel_name : string)
    (r : StreamRecorder) (e : exn) :
  (start_recording env stream_url channel_name r).1 = inl e ->
  exn_cls e = RecordingError
  /\ isinstance e [RecordingError] = true
  /\ _recording_parts (start_recording env stream_url channel_name r).2
     = _recording_parts r
  /\ ((is_Some (_process r) \/ spawn env = None
       \/ check_disk_space (disk_free env) 500 = false) ->
      _process (start_recording env stream_url channel_name r).2 = _process r
      /\ is_recording (start_recording env stream_url channel_name r).2
         = is_recording r
      /\ _start_time (start_recording env stream_url channel_name r).2
         = _start_time r)
  /\ (_process r = None ->
      check_disk_space (disk_free env) 500 = true ->
      forall seconds,
        spawn env = Some seconds ->
        threads_start env = false
        /\ e = mk_exn RecordingError
                 ("Failed to start recording: " +:+ failure env) None
        /\ _process (start_recording env stream_url channel_name r).2
           = Some (mk_Popen
                     (command r
                        (path_join (output_dir r)
                           ("." +:+ Utils.generate_filename (now env)
                                      channel_name "mp4" +:+ ".tmp"))
                        stream_url)
                     seconds)
        /\ is_recording (start_recording env stream_url channel_name r).2
           = (0 <? seconds)%nat
        /\ _start_time (start_recording env stream_url channel_name r).2
           = Some (started_at env)
        /\ _output_threads (start_recording env stream_url channel_name r).2 = []).
Proof.
  intros Hfail.
  destruct (start_recording_raises _ _ _ _ _ Hfail)
    as (Hcls & Hparts & _ & Hcases).
  split; [exact Hcls|].
  split; [destruct e as [cls msg last]; simpl in Hcls; subst cls; reflexivity|].
  split; [exact Hparts|].
  split.
  - intros Hwhy.
    destruct Hcases as [(Hp & Ht & _)|(Hidle & Hdisk & _ & _ & n & Hspawn & _)].
    + unfold is_recording. rewrite Hp. auto.
    + destruct Hwhy as [[p Hp]|[Hnone|Hfull]]; congruence.
  - intros Hidle Hdisk seconds Hspawn.
    destruct Hcases
      as [(_ & _ & [[p Hp]|[Hnone|Hfull]])
         |(_ & _ & Hthreads & He & n & Hn & Hp & Ht & Hth)]; try congruence.
    assert (n = seconds) by congruence. subst n.
    split; [exact Hthreads|]. split; [exact He|]. split; [exact Hp|].
    split; [unfold is_recording; now rewrite Hp|].
    split; [exact Ht | exact Hth].
Qed.

(** X18. Start, then stop.  Whatever time passes in between, the stop
    returns the path the start returned when the temporary file exists and
    is renamed, the temporary path when renaming fails, and nothing when
    no file was written; the two paths differ; and the recorder is free
    for the next start. *)
Theorem start_stop_round_trip (env : start_env) (senv : stop_env)
    (stream_url channel_name : string) (r r1 : StreamRecorder) (path : Path)
    (k : nat) :
  start_recording env stream_url channel_name r = (inr path, r1) ->
  exists temp,
    _temp_file r1 = Some temp
    /\ temp <> path
    /\ (stop_recording senv (elapse k r1)).1
       = (if temp_exists senv
          then Some (if rename_ok senv then path else temp)
          else None)
    /\ is_recording (stop_recording senv (elapse k r1)).2 = false
    /\ forall env' url' name',
         (start_recording env' url' name' (stop_recording senv (elapse k r1)).2).1
         <> inl AlreadyRecording.
Proof.
  intros Hstart.
  pose proof Hstart as Hpath.
  apply start_recording_owns in Hstart
    as (Hidle & n & Hspawn & Hthreads & Hp & Hc & Ht & _).
  pose proof (elapse_fields k r1) as (_ & _ & Hc' & Ht' & Hp').
  destruct (stop_recording_owned senv (elapse k r1) path
              (path_join (output_dir r)
                 ("." +:+ Utils.generate_filename (now env) channel_name "mp4"
                  +:+ ".tmp")))
    as (Hret & Hnone & _).
  { apply Hp'. rewrite Hp. eexists. reflexivity. }
  { congruence. }
  { congruence. }
  eexists. split; [exact Ht|]. split; [|split; [exact Hret|split]].
  - revert Hpath. unfold start_recording. rewrite Hidle.
    destruct (negb _); [discriminate|]. rewrite Hspawn, Hthreads.
    intros [= <- _].
    unfold path_join. intros Heq.
    apply (f_equal String.length) in Heq.
    rewrite !append_length in Heq. simpl in Heq. lia.
  - unfold is_recording. now rewrite Hnone.
  - intros env' url' name'. unfold start_recording. rewrite Hnone.
    destruct (negb _); simpl; [discriminate|].
    destruct (spawn env'); [destruct (threads_start env')|]; simpl;
      try discriminate.
    all: intros [= H]; now apply FailedToStart_other in H.
Qed.

End RecorderMore.

Lemma start_recording_disk_guard_witness :
  (Recorder.start_recording Scenarios.low_disk "https://example.invalid/live.m3u8"
     "Channel" Scenarios.idle_recorder).1
  = inl Recorder.InsufficientDiskSpace.
Proof.
  apply (proj2 (start_recording_disk_guard Scenarios.low_disk
                  "https://example.invalid/live.m3u8" "Channel"
                  Scenarios.idle_recorder eq_refl)).
  exists 524287999%Z. split; [reflexivity | lia].
Defined.

Lemma start_recording_failure_witness :
  Recorder.is_recording
    (Recorder.start_recording Scenarios.low_disk "https://example.invalid/live.m3u8"
       "Channel" Scenarios.idle_recorder).2
  = Recorder.is_recording Scenarios.idle_recorder
  /\ (Recorder.start_recording (Scenarios.threads_fail 60)
        "https://example.invalid/live.m3u8" "Channel" Scenarios.idle_recorder).1
     = inl (Py.mk_exn Py.RecordingError
              "Failed to start recording: can't start new thread" None)
  /\ Recorder.is_recording
       (Recorder.start_recording (Scenarios.threads_fail 60)
          "https://example.invalid/live.m3u8" "Channel" Scenarios.idle_recorder).2
     = true.
Proof.
  split.
  - destruct (start_recording_failure Scenarios.low_disk
                "https://example.invalid/live.m3u8" "Channel"
                Scenarios.idle_recorder Recorder.InsufficientDiskSpace eq_refl)
      as (_ & _ & _ & Hsame & _).
    apply Hsame. right. right. reflexivity.
  - destruct (start_recording_failure (Scenarios.threads_fail 60)
                "https://example.invalid/live.m3u8" "Channel"
                Scenarios.idle_recorder
                (Py.mk_exn Py.RecordingError
                   "Failed to start recording: can't start new thread" None)
                eq_refl)
      as (_ & _ & _ & _ & Hlaunched).
    destruct (Hlaunched eq_refl eq_refl 60%nat eq_refl) as (_ & _ & _ & Hrec & _).
    split; [reflexivity | exact Hrec].
Defined.

Lemma start_stop_round_trip_witness :
  (Recorder.stop_recording (Recorder.mk_stop_env true true)
     (Recorder.elapse 3
        (Recorder.start_recording (Scenarios.spawns 60)
           "https://example.invalid/live.m3u8" "Channel"
           Scenarios.idle_recorder).2)).1
  = Some "recordings/Channel_20240101_120000.mp4".
Proof.
  edestruct (start_stop_round_trip (Scenarios.spawns 60)
               (Recorder.mk_stop_env true true)
               "https://example.invalid/live.m3u8" "Channel"
               Scenarios.idle_recorder
               (Recorder.start_recording (Scenarios.spawns 60)
                  "https://example.invalid/live.m3u8" "Channel"
                  Scenarios.idle_recorder).2
               "recordings/Channel_20240101_120000.mp4" 3)
    as (temp & _ & _ & Hret & _); [vm_compute; reflexivity|].
  exact Hret.
Defined.

Section DurationFacts.
Import Py Recorder.
Variable env : reconnect_env.

(** The seconds slept by the wait of [record_with_duration]: until the
    process exits, the duration is over, or the interrupt arrives,
    whichever is first. *)
Lemma wait_loop_sleeps (interrupt : option nat) (duration : Z) (seconds : nat) :
  forall elapsed w,
    (forall i, interrupt = Some i -> (elapsed <= i)%nat) ->
    wait_loop interrupt duration seconds elapsed w
    = (inr tt,
       let k := Nat.min seconds
                  (Nat.min (Z.to_nat (duration - Z.of_nat elapsed))
                     (match interrupt with
                      | Some i => (i - elapsed)%nat
                      | None => seconds
                      end)) in
       mk_run (elapse k (recorder w)) (url_calls w) (live_calls w)
         (start_calls w) (stop_calls w) (slept w + k)).
Proof.
  induction seconds as [|seconds IH]; intros elapsed w Hint; simpl.
  - unfold ret. rewrite elapse_zero, Nat.add_0_r. now destruct w.
  - destruct (duration <=? Z.of_nat elapsed)%Z eqn:Hd.
    { apply Z.leb_le in Hd.
      replace (Z.to_nat (duration - Z.of_nat elapsed)) with 0%nat by lia.
      simpl. unfold ret. rewrite elapse_zero, Nat.add_0_r. now destruct w. }
    apply Z.leb_gt in Hd.
    destruct (bool_decide (interrupt = Some elapsed)) eqn:Hi.
    { apply bool_decide_eq_true in Hi. subst interrupt.
      rewrite Nat.sub_diag, Nat.min_0_r. simpl.
      unfold ret. rewrite elapse_zero, Nat.add_0_r. now destruct w. }
    apply bool_decide_eq_false in Hi.
    unfold bind, sleep. simpl. rewrite IH.
    + simpl. rewrite elapse_elapse. f_equal.
      assert (Hk : (1 + Nat.min seconds
                    (Nat.min (Z.to_nat (duration - Z.of_nat (S elapsed)))
                       match interrupt with
                       | Some i => i - S elapsed
                       | None => seconds
                       end)
              = match Nat.min (Z.to_nat (duration - Z.of_nat elapsed))
                        match interrupt with
                        | Some i => i - elapsed
                        | None => S seconds
                        end with
                | 0 => 0
                | S m' => S (Nat.min seconds m')
                end)%nat).
      { destruct interrupt as [i|].
        - assert (elapsed <> i) by congruence.
          pose proof (Hint i eq_refl).
          destruct (Nat.min (Z.to_nat (duration - Z.of_nat elapsed)) (i - elapsed))
            eqn:Hm; lia.
        - destruct (Nat.min (Z.to_nat (duration - Z.of_nat elapsed)) (S seconds))
            eqn:Hm; lia. }
      rewrite <- Hk. f_equal; lia.
    + intros i ->. pose proof (Hint i eq_refl).
      assert (elapsed <> i) by congruence. lia.
Qed.

(** X19. A timed recording whose start succeeds sleeps one second at a time
    until the process exits, the duration is over or Ctrl+C arrives,
    whichever is first (not at all for a duration of zero or less), then
    stops the recording exactly once and leaves the recorder idle. *)
Theorem record_with_duration_waits (interrupt : option nat)
    (stream_url channel_name : string) (duration : Z) (w : run)
    (final : Path) (r1 : StreamRecorder) (p : Popen) :
  start_recording (start_envs env (start_calls w)) stream_url channel_name
    (recorder w) = (inr final, r1) ->
  _process r1 = Some p ->
  exists w',
    record_with_duration env interrupt stream_url channel_name duration w
    = (inr (stop_recording (stop_envs env (stop_calls w))
              (elapse (slept w' - slept w) r1)).1, w')
    /\ slept w'
       = (slept w
          + Nat.min (running_for p)
              (Nat.min (Z.to_nat duration)
                 (match interrupt with Some i => i | None => running_for p end)))%nat
    /\ _process (recorder w') = None
    /\ start_calls w' = S (start_calls w)
    /\ stop_calls w' = S (stop_calls w).
Proof.
  intros Hstart Hp.
  unfold record_with_duration, bind, do_start, get_recorder, do_stop.
  rewrite Hstart. simpl. rewrite Hp.
  rewrite wait_loop_sleeps by (intros; lia). simpl.
  rewrite Z.sub_0_r.
  replace (match interrupt with Some i => (i - 0)%nat | None => running_for p end)
    with (match interrupt with Some i => i | None => running_for p end)
    by (destruct interrupt; [lia|reflexivity]).
  set (k := Nat.min (running_for p) _).
  pose proof (stop_recording_stops (stop_envs env (stop_calls w)) (elapse k r1))
    as (Hnone & _).
  destruct (stop_recording (stop_envs env (stop_calls w)) (elapse k r1))
    as [part r2] eqn:Hstop.
  exists (mk_run r2 (url_calls w) (live_calls w) (S (start_calls w))
            (S (stop_calls w)) (slept w + k)).
  simpl. replace (slept w + k - slept w)%nat with k by lia.
  rewrite Hstop. simpl in Hnone. repeat split. exact Hnone.
Qed.

(** X20. A timed recording whose start raises passes the error on and
    does nothing else: it neither sleeps nor calls [stop_recording], and
    the recorder is left as the failed start left it.  So a recording that
    was already running keeps running, and a process that was launched by
    a start that failed afterwards, at its reader threads, stays owned and
    is not stopped. *)
Theorem record_with_duration_refused (interrupt : option nat)
    (stream_url channel_name : string) (duration : Z) (w : run) (e : exn) :
  (start_recording (start_envs env (start_calls w)) stream_url channel_name
     (recorder w)).1 = inl e ->
  (record_with_duration env interrupt stream_url channel_name duration w).1 = inl e
  /\ stop_calls (record_with_duration env interrupt stream_url channel_name
                   duration w).2 = stop_calls w
  /\ slept (record_with_duration env interrupt stream_url channel_name
              duration w).2 = slept w
  /\ recorder (record_with_duration env interrupt stream_url channel_name
                 duration w).2
     = (start_recording (start_envs env (start_calls w)) stream_url channel_name
          (recorder w)).2
  /\ (is_Some (_process (recorder w)) ->
      _process (recorder (record_with_duration env interrupt stream_url
                            channel_name duration w).2)
      = _process (recorder w))
  /\ (_process (recorder w) = None ->
      check_disk_space (disk_free (start_envs env (start_calls w))) 500 = true ->
      is_Some (spawn (start_envs env (start_calls w))) ->
      is_Some (_process (recorder (record_with_duration env interrupt stream_url
                                     channel_name duration w).2))).
Proof.
  intros Hfail.
  pose proof (start_recording_raises _ _ _ _ _ Hfail) as (_ & _ & _ & Hcases).
  unfold record_with_duration, bind, do_start.
  destruct (start_recording _ _ _ _) as [[e'|path] r'] eqn:Hstart;
    simpl in *; [|discriminate].
  injection Hfail as ->. repeat split.
  - intros [p Hp].
    destruct Hcases as [(Hsame & _)|(Hidle & _)]; [exact Hsame | congruence].
  - intros Hidle Hdisk [n Hn].
    destruct Hcases
      as [(_ & _ & [[p Hp]|[Hnone|Hfull]])|(_ & _ & _ & _ & m & _ & Hp & _)];
      try congruence.
    rewrite Hp. eexists. reflexivity.
Qed.

End DurationFacts.

Lemma record_with_duration_waits_witness :
  exists w',
    Recorder.record_with_duration Scenarios.long_sessions None
      "https://example.invalid/live.m3u8" "Channel" 30 Scenarios.fresh_run
    = (inr (Some "recordings/Channel_20240101_120000.mp4"), w')
    /\ Recorder.slept w' = 30%nat
    /\ Recorder._process (Recorder.recorder w') = None.
Proof.
  edestruct (record_with_duration_waits Scenarios.long_sessions None
               "https://example.invalid/live.m3u8" "Channel" 30
               Scenarios.fresh_run)
    as (w' & Heq & Hslept & Hidle & _);
    [reflexivity | reflexivity |].
  exists w'. split; [|split; [exact Hslept | exact Hidle]].
  rewrite Heq, Hslept. vm_compute. reflexivity.
Defined.

Lemma record_with_duration_refused_witness :
  ((Recorder.record_with_duration Scenarios.long_sessions None
      "https://example.invalid/live.m3u8" "Channel" 30 Scenarios.busy_run).1
   = inl Recorder.AlreadyRecording
   /\ Recorder.stop_calls
        (Recorder.record_with_duration Scenarios.long_sessions None
           "https://example.invalid/live.m3u8" "Channel" 30 Scenarios.busy_run).2
      = 0%nat
   /\ Recorder._process
        (Recorder.recorder
           (Recorder.record_with_duration Scenarios.long_sessions None
              "https://example.invalid/live.m3u8" "Channel" 30
              Scenarios.busy_run).2)
      = Recorder._process (Recorder.recorder Scenarios.busy_run))
  /\ is_Some
       (Recorder._process
          (Recorder.recorder
             (Recorder.record_with_duration Scenarios.readers_fail None
                "https://example.invalid/live.m3u8" "Channel" 30
                Scenarios.fresh_run).2)).
Proof.
  split.
  - destruct (record_with_duration_refused Scenarios.long_sessions None
                "https://example.invalid/live.m3u8" "Channel" 30
                Scenarios.busy_run Recorder.AlreadyRecording)
      as (Hraised & Hstops & _ & _ & Hkept & _); [vm_compute; reflexivity|].
    split; [exact Hraised|]. split; [exact Hstops|].
    apply Hkept. vm_compute. eexists. reflexivity.
  - destruct (record_with_duration_refused Scenarios.readers_fail None
                "https://example.invalid/live.m3u8" "Channel" 30
                Scenarios.fresh_run
                (Py.mk_exn Py.RecordingError
                   "Failed to start recording: can't start new thread" None))
      as (_ & _ & _ & _ & _ & Howned); [vm_compute; reflexivity|].
    apply Howned; [reflexivity | reflexivity | eexists; reflexivity].
Defined.

Section LoopFacts.
Import Py Recorder.
Variable env : reconnect_env.



Lemma start_session_Exception (url name : string) (w : run) (e : exn) (w' : run) :
  start_session env url name w = (inl e, w') ->
  isinstance e [Exception] = false ->
  (_reconnect_count (recorder w) =? 0)%Z = false
  /\ get_stream_url env (url_calls w) = inl e.
Proof.
  unfold start_session, bind, get_recorder, call_get_stream_url, do_start.
  simpl.
  destruct (_reconnect_count (recorder w) =? 0)%Z.
  - destruct (start_recording _ _ _ _) as [res0 r'] eqn:Hstart.
    intros [= -> <-] Hno.
    pose proof (start_recording_raises _ _ _ _ e ltac:(now rewrite Hstart))
      as (Hcls & _).
    destruct e as [cls msg last]. simpl in Hcls. subst cls. discriminate Hno.
  - destruct (get_stream_url env (url_calls w)) as [e0|fresh].
    + now intros [= -> <-] _.
    + simpl. destruct (start_recording _ _ _ _) as [res0 r'] eqn:Hstart.
      intros [= -> <-] Hno.
      pose proof (start_recording_raises _ _ _ _ e ltac:(now rewrite Hstart))
        as (Hcls & _).
      destruct e as [cls msg last]. simpl in Hcls. subst cls. discriminate Hno.
Qed.







Lemma iteration_start_fails (url name : string) (max : Z) (w : run) :
  _process (recorder w) = None ->
  spawn (start_envs env (start_calls w)) = None ->
  (exists u, get_stream_url env (url_calls w) = inr u) ->
  exists w',
    iteration env url name max w
    = (inr (if (_reconnect_count (recorder w) <? max)%Z then Continue else Break),
       w')
    /\ _process (recorder w') = None
    /\ _recording_parts (recorder w') = _recording_parts (recorder w)
    /\ _reconnect_count (recorder w')
       = (if (_reconnect_count (recorder w) <? max)%Z
          then _reconnect_count (recorder w) + 1
          else _reconnect_count (recorder w))%Z
    /\ start_calls w' = S (start_calls w)
    /\ stop_calls w' = S (stop_calls w)
    /\ live_calls w' = live_calls w
    /\ url_calls w'
       = (url_calls w + if (_reconnect_count (recorder w) =? 0)%Z then 0 else 1)%nat
    /\ slept w'
       = (slept w + if (_reconnect_count (recorder w) <? max)%Z then 5 else 0)%nat.
Proof.
  intros Hidle Hspawn [u Hu].
  destruct w as [r uc lc sc tc sl].
  destruct r as [od q cb cf pr st cur tmp ev cn su rc mr parts th].
  simpl in *. subst pr.
  unfold iteration, try_except, bind, start_session, bind, get_recorder,
    call_get_stream_url, do_start, start_recording.
  simpl.
  destruct (rc =? 0)%Z; simpl; rewrite ?Hu; simpl; rewrite ?Hspawn;
    destruct (negb (check_disk_space (disk_free (start_envs env sc)) 500)); simpl;
    unfold recover, bind, do_stop, stop_recording, get_recorder,
      increment_reconnect_count, modify_recorder, sleep, ret; simpl;
    destruct (rc <? max)%Z; simpl;
    eexists; (split; [reflexivity|]); simpl; repeat split; lia.
Qed.

Lemma reconnect_loop_start_fails (url name : string) (max : Z) (fuel : nat) :
  forall w,
    _process (recorder w) = None ->
    (forall k, spawn (start_envs env k) = None) ->
    (forall k, exists u, get_stream_url env k = inr u) ->
    (0 <= _reconnect_count (recorder w) <= max)%Z ->
    (max + 1 - _reconnect_count (recorder w) <= Z.of_nat fuel)%Z ->
    exists w',
      reconnect_loop env fuel url name max w = Some (inr tt, w')
      /\ _recording_parts (recorder w') = _recording_parts (recorder w)
      /\ _reconnect_count (recorder w') = max
      /\ Z.of_nat (start_calls w')
         = (Z.of_nat (start_calls w) + (max - _reconnect_count (recorder w)) + 1)%Z
      /\ Z.of_nat (stop_calls w')
         = (Z.of_nat (stop_calls w) + (max - _reconnect_count (recorder w)) + 1)%Z
      /\ live_calls w' = live_calls w
      /\ Z.of_nat (slept w')
         = (Z.of_nat (slept w) + 5 * (max - _reconnect_count (recorder w)))%Z.
Proof.
  induction fuel as [|fuel IH]; intros w Hidle Hspawn Hurl Hc Hfuel; [lia|].
  simpl.
  destruct (_reconnect_count (recorder w) <=? max)%Z eqn:Hle;
    [|apply Z.leb_gt in Hle; lia].
  destruct (iteration_start_fails url name max w Hidle (Hspawn _) (Hurl _))
    as (w1 & Hit & Hidle1 & Hp1 & Hc1 & Hs1 & Ht1 & Hl1 & _ & Hsl1).
  rewrite Hit.
  destruct (_reconnect_count (recorder w) <? max)%Z eqn:Hlt.
  - apply Z.ltb_lt in Hlt.
    destruct (IH w1 Hidle1 Hspawn Hurl ltac:(lia) ltac:(lia))
      as (w' & Hloop & Hp & Hc' & Hs & Ht & Hl & Hsl).
    exists w'. split; [exact Hloop|]. repeat split; try congruence; lia.
  - apply Z.ltb_ge in Hlt.
    exists w1. split; [reflexivity|]. repeat split; try congruence; lia.
Qed.

(** X22. When the capture process cannot be launched at all, a recording
    with reconnection tries [max_reconnects + 1] starts, waits five
    seconds after each but the last, never asks whether the source is
    live, and returns no part. *)
Theorem record_with_reconnect_start_fails (url name : string) (max : Z)
    (r : StreamRecorder) :
  (0 <= max)%Z ->
  _process r = None ->
  (forall k, spawn (start_envs env k) = None) ->
  (forall k, exists u, get_stream_url env k = inr u) ->
  exists w',
    record_with_reconnect env url name max r = Some (inr [], w')
    /\ Z.of_nat (start_calls w') = (max + 1)%Z
    /\ Z.of_nat (stop_calls w') = (max + 1)%Z
    /\ Z.of_nat (slept w') = (5 * max)%Z
    /\ live_calls w' = 0%nat.
Proof.
  intros Hmax Hidle Hspawn Hurl. unfold record_with_reconnect.
  destruct (reconnect_loop_start_fails url name max (Z.to_nat (max + 1))
              (mk_run (set_progress max [] 0 r) 0 0 0 0 0))
    as (w' & Hloop & Hp & _ & Hs & Ht & Hl & Hsl);
    try assumption; simpl; try lia.
  rewrite Hloop. simpl in *. rewrite Hp.
  exists w'. repeat split; lia.
Qed.

End LoopFacts.


Lemma record_with_reconnect_start_fails_witness :
  exists w',
    Recorder.record_with_reconnect Scenarios.launch_fails
      "https://example.invalid/first.m3u8" "Channel" 2 Scenarios.idle_recorder
    = Some (inr [], w')
    /\ Z.of_nat (Recorder.start_calls w') = 3%Z
    /\ Z.of_nat (Recorder.slept w') = 10%Z.
Proof.
  destruct (record_with_reconnect_start_fails Scenarios.launch_fails
              "https://example.invalid/first.m3u8" "Channel" 2
              Scenarios.idle_recorder)
    as (w' & Hret & Hstart & _ & Hslept & _).
  - lia.
  - reflexivity.
  - intros k. reflexivity.
  - intros k. eexists. reflexivity.
  - exists w'. split; [exact Hret|]. split; [exact Hstart | exact Hslept].
Defined.

Section ConfigFacts.
Import Py Monitor.

Lemma size_list_to_set_le (l : list string) :
  (size (list_to_set l : gset string) <= List.length l)%nat.
Proof.
  induction l as [|x l IH].
  - now rewrite list_to_set_nil, size_empty.
  - rewrite list_to_set_cons, size_union_alt, size_singleton. simpl.
    assert (Hsub : (list_to_set l ∖ {[x]} : gset string) ⊆ list_to_set l)
      by set_solver.
    apply subseteq_size in Hsub. lia.
Qed.

Lemma size_list_to_set_NoDup (l : list string) :
  List.length l = size (list_to_set l : gset string) <-> base.NoDup l.
Proof.
  split; [|intros Hnd; symmetry; apply size_list_to_set, Hnd].
  induction l as [|x l IH]; intros Hlen; [constructor|].
  rewrite list_to_set_cons in Hlen. simpl in Hlen.
  destruct (decide (x ∈ l)) as [Hin|Hin].
  - replace ({[x]} ∪ list_to_set l : gset string) with (list_to_set l : gset string)
      in Hlen by set_solver.
    pose proof (size_list_to_set_le l). lia.
  - rewrite size_union in Hlen by set_solver.
    rewrite size_singleton in Hlen.
    constructor; [exact Hin|]. apply IH. lia.
Qed.

Lemma new_states_lookup (l : list ChannelConfig) :
  forall (acc : gmap string ChannelState) (ch : ChannelConfig),
    base.NoDup (channel_id <$> l) ->
    ch ∈ l ->
    foldl (fun states ch => <[channel_id ch := initial_state ch]> states) acc l
    !! channel_id ch = Some (initial_state ch).
Proof.
  induction l as [|c l IH]; intros acc ch Hnd Hin; [now apply elem_of_nil in Hin|].
  simpl in *. inversion Hnd as [|? ? Hc Hnd']; subst.
  apply elem_of_cons in Hin as [->|Hin]; [|now apply IH].
  clear IH Hnd Hnd'. revert acc. induction l as [|c' l IH]; intros acc; simpl.
  - apply lookup_insert_eq.
  - simpl in Hc. apply not_elem_of_cons in Hc as [Hne Hc].
    rewrite (insert_insert_ne); [|congruence]. now apply IH.
Qed.

Lemma new_states_dom (l : list ChannelConfig) :
  forall acc : gmap string ChannelState,
    dom (foldl (fun states ch => <[channel_id ch := initial_state ch]> states) acc l)
    = dom acc ∪ list_to_set (channel_id <$> l).
Proof.
  induction l as [|c l IH]; intros acc; simpl; [set_solver|].
  rewrite IH, dom_insert_L. set_solver.
Qed.

(** X23. A configuration passes [validate_config] exactly when it has
    between one and five channels, with pairwise distinct identifiers and
    pairwise distinct names, and the output directory is writable; and the
    monitor made from such a configuration watches exactly the configured
    identifiers, each from the initial state of its own channel. *)
Theorem validate_config_accepts (writable : option string) (config : Config)
    (cb cf : option string) :
  (validate_config writable config = None
   <-> (1 <= List.length (channels config) <= 5)%nat
       /\ base.NoDup (channel_id <$> channels config)
       /\ base.NoDup (name <$> channels config)
       /\ writable = None)
  /\ (validate_config writable config = None ->
      (forall ch, ch ∈ channels config ->
                  _states (new config cb cf) !! channel_id ch
                  = Some (initial_state ch))
      /\ dom (_states (new config cb cf))
         = list_to_set (channel_id <$> channels config)
      /\ size (_states (new config cb cf)) = List.length (channels config)).
Proof.
  assert (Hiff : validate_config writable config = None
                 <-> (1 <= List.length (channels config) <= 5)%nat
                     /\ base.NoDup (channel_id <$> channels config)
                     /\ base.NoDup (name <$> channels config)
                     /\ writable = None).
  { unfold validate_config.
    destruct (channels config) as [|c l] eqn:Hch; [split; [discriminate|simpl; lia]|].
    rewrite <- Hch.
    destruct (5 <? List.length (channels config))%nat eqn:H5.
    { apply Nat.ltb_lt in H5. split; [discriminate|lia]. }
    apply Nat.ltb_ge in H5.
    destruct (Nat.eqb_spec (List.length (channel_id <$> channels config))
                (size (list_to_set (channel_id <$> channels config) : gset string)))
      as [Hi|Hi]; simpl.
    2:{ split; [discriminate|]. intros (_ & Hnd & _).
        now apply size_list_to_set_NoDup in Hnd. }
    destruct (Nat.eqb_spec (List.length (name <$> channels config))
                (size (list_to_set (name <$> channels config) : gset string)))
      as [Hn|Hn]; simpl.
    2:{ split; [discriminate|]. intros (_ & _ & Hnd & _).
        now apply size_list_to_set_NoDup in Hnd. }
    apply size_list_to_set_NoDup in Hi, Hn.
    destruct writable as [e|].
    - split; [discriminate|]. now intros (_ & _ & _ & ?).
    - split; [intros _|reflexivity]. rewrite Hch in *. simpl. repeat split; auto; lia. }
  split; [exact Hiff|].
  intros Hok. apply Hiff in Hok as (_ & Hnd & _).
  unfold new. simpl. split; [|split].
  - intros ch Hin. now apply new_states_lookup.
  - rewrite new_states_dom. set_solver.
  - rewrite <- size_dom, new_states_dom, dom_empty_L, (left_id_L ∅ (∪)).
    rewrite size_list_to_set by exact Hnd. now rewrite length_fmap.
Qed.

End ConfigFacts.

Lemma validate_config_accepts_witness :
  Monitor._states (Monitor.new Scenarios.one_channel None None) !! "UC0123456789"
  = Some (Monitor.initial_state (Monitor.mk_ChannelConfig "Channel" "UC0123456789")).
Proof.
  destruct (validate_config_accepts None Scenarios.one_channel None None)
    as (Hiff & Hnew).
  destruct Hnew as (Hlookup & _).
  - apply Hiff. simpl. split; [lia|].
    split; [|split; [|reflexivity]]; apply NoDup_singleton.
  - apply (Hlookup (Monitor.mk_ChannelConfig "Channel" "UC0123456789")).
    simpl. constructor.
Defined.

Section PollFacts.
Import Py Monitor.
Variable cfg : Settings.
Variables cb cf : option string.

Lemma isinstance_YouTubeError (e : exn) :
  isinstance e [ChannelNotFoundError] || isinstance e [YouTubeError]
  = isinstance e [YouTubeError].
Proof. destruct e as [[] ? ?]; reflexivity. Qed.

(** X24. A poll whose liveness query fails with a [YouTubeError] records
    the message and changes nothing else: the source keeps its live flag,
    its recording and its last successful check time, and nothing is
    started or stopped.  Any other exception escapes the poll and leaves
    the state as it was. *)
Theorem check_state_query_fails (env : check_env) (st : ChannelState) (e : exn) :
  status env = inl e ->
  check_state cfg cb cf env st
  = (if isinstance e [YouTubeError]
     then (inr tt, set_last_error (Some (exn_msg e)) st, [])
     else (inl e, st, []))
  /\ is_live (check_state cfg cb cf env st).1.2 = is_live st
  /\ is_recording (check_state cfg cb cf env st).1.2 = is_recording st
  /\ recorder (check_state cfg cb cf env st).1.2 = recorder st
  /\ current_video_id (check_state cfg cb cf env st).1.2 = current_video_id st
  /\ last_check (check_state cfg cb cf env st).1.2 = last_check st.
Proof.
  intros Hstatus. unfold check_state, check_failed. rewrite Hstatus.
  rewrite isinstance_YouTubeError.
  destruct (isinstance e [YouTubeError]); simpl; repeat split.
Qed.

(** X25. What a poll asks of the Session Supervisors.  It stops at most one
    recording, the current one, and then starts at most one, for the
    stream the query reported live; it stops only what was recording; and a
    Session Supervisor that it does not stop stays in place. *)
Theorem check_state_actions (env : check_env) (st : ChannelState) :
  exists stops starts,
    (check_state cfg cb cf env st).2 = stops ++ starts
    /\ (stops = []
        \/ stops = [Stop (current_video_id st)]
           /\ is_recording st = true /\ is_Some (recorder st))
    /\ (starts = []
        \/ exists live,
             status env = inr live
             /\ YouTubeApi.is_live live = true
             /\ starts = [Start (YouTubeApi.video_id live)])
    /\ (coherent st -> stops = [] -> starts = [] ->
        recorder (check_state cfg cb cf env st).1.2 = recorder st).
Proof.
  unfold check_state, check_failed, _start_recording, _stop_recording,
    start_failed, coherent, owns_process.
  destruct st as [c l rec v t [r|] lc le rs]; simpl.
  all: repeat case_match; simplify_eq/=.
  all: repeat match goal with
         | Hb : _ && _ = true |- _ => apply andb_true_iff in Hb as [? ?]
         end.
  all: first
         [ solve [ exists [], []; simpl; split; [reflexivity|];
                   split; [now left|]; split; [now left|];
                   intros (Hc1 & Hc2 & Hc3) _ _; try reflexivity;
                   try (now specialize (Hc2 eq_refl));
                   try (now specialize (Hc3 eq_refl)) ]
         | solve [ eexists [Stop _], []; simpl; split; [reflexivity|];
                   split; [right; eauto|]; split; [now left|]; discriminate ]
         | solve [ eexists [], [Start _]; simpl; split; [reflexivity|];
                   split; [now left|]; split; [right; eauto|]; discriminate ]
         | solve [ eexists [Stop _], [Start _]; simpl; split; [reflexivity|];
                   split; [right; eauto|]; split; [right; eauto|]; discriminate ] ].
Qed.

(** X26. A start that fails is tried again.  On a source that is idle, a
    poll that finds it live but cannot start the recording (the media URL
    cannot be resolved, or the Session Supervisor refuses) still marks the
    source live and records the error.  The next poll that finds it live
    then starts the recording, provided the query names a stream; when the
    query names none, nothing is started for as long as the source stays
    live. *)
Theorem failed_start_retried (env1 env2 : check_env) (st : ChannelState)
    (live1 live2 : YouTubeApi.LiveStatus) (e : exn) :
  is_live st = false ->
  is_recording st = false ->
  current_video_id st = None ->
  status env1 = inr live1 ->
  YouTubeApi.is_live live1 = true ->
  (stream_url env1 = inl e
   \/ exists url,
        stream_url env1 = inr url
        /\ (Recorder.start_recording (start_obs env1) url (name (config st))
              (Recorder.new (output_dir cfg) (quality cfg) cb cf)).1 = inl e) ->
  isinstance e [Exception] = true ->
  status env2 = inr live2 ->
  YouTubeApi.is_live live2 = true ->
  exists st1 acts1,
    check_state cfg cb cf env1 st = (inr tt, st1, acts1)
    /\ is_live st1 = true
    /\ is_recording st1 = false
    /\ last_error st1 = Some (exn_msg e)
    /\ (forall id,
          YouTubeApi.video_id live2 = Some id ->
          start_succeeds env2 ->
          exists st2,
            check_state cfg cb cf env2 st1 = (inr tt, st2, [Start (Some id)])
            /\ recording_stream st2 id)
    /\ (YouTubeApi.video_id live2 = None ->
        exists st2,
          check_state cfg cb cf env2 st1 = (inr tt, st2, [])
          /\ is_recording st2 = false).
Proof.
  intros Hwas Hrec Hcur Hs1 Hl1 Hfail He Hs2 Hl2.
  assert (Hstart :
            exists acts1,
              _start_recording cfg cb cf env1 live1
                (set_last_error None (set_last_check (checked_at env1) st))
              = (inr tt,
                 {| config := config st; is_live := false; is_recording := false;
                    current_video_id := None; current_title := current_title st;
                    recorder := recorder st;
                    last_check := Some (checked_at env1);
                    last_error := Some (exn_msg e);
                    recording_start_time := recording_start_time st |},
                 acts1)).
  { unfold _start_recording, start_failed.
    destruct Hfail as [Hurl | (url & Hurl & Hrefused)]; rewrite Hurl.
    - rewrite He. simpl. rewrite ?Hwas, ?Hrec, ?Hcur. eauto.
    - change (config (set_last_error None (set_last_check (checked_at env1) st)))
        with (config st).
      destruct (Recorder.start_recording _ _ _ _) as [[e'|path] started];
        simpl in Hrefused; [|discriminate].
      injection Hrefused as ->. rewrite He. simpl. rewrite ?Hwas, ?Hrec, ?Hcur. eauto. }
  destruct Hstart as (acts1 & Hstart).
  eexists _, acts1. split; [|split; [|split; [|split; [|split]]]].
  - unfold check_state. rewrite Hs1. simpl. rewrite Hl1, Hwas. simpl.
    simpl in Hstart. rewrite Hstart. reflexivity.
  - reflexivity.
  - reflexivity.
  - reflexivity.
  - intros id Hid ((url & Hurl) & Hdisk & (n & Hspawn) & Hthreads).
    unfold check_state. rewrite Hs2. simpl. rewrite ?Hl1, ?Hl2, ?Hid. simpl.
    unfold _start_recording, _stop_recording. simpl.
    simpl. rewrite Hurl. unfold Recorder.start_recording. simpl.
    rewrite Hdisk, Hspawn, Hthreads. simpl.
    eexists. split.
    + rewrite ?Hl2, ?Hid. destruct (recorder st); reflexivity.
    + unfold recording_stream. simpl. rewrite ?Hl2. repeat split; eauto.
  - intros Hid. unfold check_state. rewrite Hs2. simpl. rewrite ?Hl1, ?Hl2, ?Hid.
    simpl. eexists. split; reflexivity.
Qed.

(** The state of a source that is not recording names no stream. *)
Lemma settled_check (env : check_env) (st : ChannelState) :
  coherent st ->
  (is_recording st = false ->
   current_video_id st = None /\ current_title st = None
   /\ recording_start_time st = None) ->
  is_recording (check_state cfg cb cf env st).1.2 = false ->
  current_video_id (check_state cfg cb cf env st).1.2 = None
  /\ current_title (check_state cfg cb cf env st).1.2 = None
  /\ recording_start_time (check_state cfg cb cf env st).1.2 = None.
Proof.
  unfold coherent, owns_process.
  destruct st as [c [|] [|] v t [r|] lc le rs]; simpl; intros (H1 & H2 & H3) H4;
    try (specialize (H1 eq_refl)); try (specialize (H2 eq_refl));
    try (specialize (H3 eq_refl)); try (specialize (H4 eq_refl));
    try discriminate.
  all: try match goal with
           | Hs : _ = None /\ _ |- _ => destruct Hs as (-> & -> & ->)
           end.
  all: unfold check_state, check_failed, _start_recording, _stop_recording,
         start_failed, Recorder.start_recording; simpl.
  all: repeat case_match; simplify_eq/=.
  all: rewrite ?andb_false_r, ?andb_true_r in *; simpl in *.
  all: intros; try discriminate; auto.
Qed.

End PollFacts.

Section SourceFacts.
Import Py Monitor.

Lemma settled_step (m m' : ChannelMonitor) :
  step m m' ->
  (forall id st, _states m !! id = Some st ->
     coherent st
     /\ (is_recording st = false ->
         current_video_id st = None /\ current_title st = None
         /\ recording_start_time st = None)) ->
  forall id st, _states m' !! id = Some st ->
    coherent st
    /\ (is_recording st = false ->
        current_video_id st = None /\ current_title st = None
        /\ recording_start_time st = None).
Proof.
  intros Hstep Hm id st.
  destruct Hstep as [env id0 m res m' acts Hcheck | m | obs m].
  - unfold _check_channel in Hcheck.
    destruct (_states m !! id0) as [st0|] eqn:Hst0; [|discriminate].
    destruct (Hm _ _ Hst0) as (Hco & Hset).
    pose proof (coherent_check (settings (monitor_config m))
                  (cookies_from_browser m) (cookies_file m) env st0 Hco) as Hnext.
    pose proof (settled_check (settings (monitor_config m))
                  (cookies_from_browser m) (cookies_file m) env st0 Hco Hset)
      as Hnext'.
    destruct (check_state _ _ _ env st0) as [[res0 st1] acts0].
    injection Hcheck as <- <- <-. simpl. rewrite lookup_insert.
    case_decide; [|apply Hm].
    intros [= <-]. split; [exact Hnext | exact Hnext'].
  - simpl. rewrite lookup_fmap.
    destruct (_states m !! id) as [st0|] eqn:Hst0; [|discriminate].
    simpl. intros [= <-]. destruct (Hm _ _ Hst0) as (Hco & Hset).
    split; [now apply coherent_tick | exact Hset].
  - simpl. rewrite map_lookup_imap.
    destruct (_states m !! id) as [st0|]; [|discriminate].
    simpl. intros [= <-]. split; [apply (coherent_stop (obs id) st0)|].
    simpl. auto.
Qed.

(** X28. In every monitor that can arise, a source that is not recording
    has no Session Supervisor and names no stream: no current video, no
    current title and no recording start time are left over from an
    earlier recording. *)
Theorem idle_source_settled (config : Config) (cb cf : option string)
    (m : ChannelMonitor) (id : string) (st : ChannelState) :
  reachable config cb cf m ->
  _states m !! id = Some st ->
  is_recording st = false ->
  recorder st = None
  /\ current_video_id st = None
  /\ current_title st = None
  /\ recording_start_time st = None.
Proof.
  intros Hreach. revert id st.
  assert (Hall : forall id st, _states m !! id = Some st ->
             coherent st
             /\ (is_recording st = false ->
                 current_video_id st = None /\ current_title st = None
                 /\ recording_start_time st = None)).
  { induction Hreach as [|m m' _ IH Hstep].
    - intros id st Hst. split; [now apply (coherent_new config cb cf id)|].
      revert id st Hst. unfold new. simpl.
      assert (Hfold : forall (l : list ChannelConfig) (acc : gmap string ChannelState),
                 (forall id st, acc !! id = Some st -> exists ch, st = initial_state ch) ->
                 forall id st,
                   foldl (fun states ch => <[channel_id ch := initial_state ch]> states)
                     acc l !! id = Some st ->
                   exists ch, st = initial_state ch).
      { induction l as [|ch l IH]; intros acc Hacc id' st'; simpl; [apply Hacc|].
        apply IH. intros id'' st''. rewrite lookup_insert.
        case_decide; [|apply Hacc].
        intros [= <-]. eauto. }
      intros id st Hst.
      destruct (Hfold _ ∅ ltac:(intros ? ?; rewrite lookup_empty; discriminate)
                  _ _ Hst) as (ch & ->).
      simpl. auto.
    - now apply (settled_step m m'). }
  intros id st Hst Hrec. destruct (Hall id st Hst) as ((_ & H2 & _) & Hset).
  split; [now apply H2|]. now apply Hset.
Qed.

End SourceFacts.

Lemma check_state_query_fails_witness :
  exists st st',
    Monitor._states Scenarios.recording_monitor !! "UC0123456789" = Some st
    /\ Monitor.check_state (Monitor.settings Scenarios.one_channel) None None
         Scenarios.failed_poll st
       = (inr tt, st', [])
    /\ Monitor.is_recording st' = true
    /\ Monitor.recorder st' = Monitor.recorder st.
Proof.
  eexists. eexists. split; [vm_compute; reflexivity|].
  match goal with
  | |- Monitor.check_state ?cfg ?cb ?cf ?env ?st = _ /\ _ =>
      destruct (check_state_query_fails cfg cb cf env st
                  (Py.mk_exn Py.YouTubeError "Timeout while fetching video info" None)
                  eq_refl)
        as (Heq & _ & Hrec & Hkeep & _)
  end.
  split; [rewrite Heq; reflexivity|]. split; reflexivity.
Defined.

Lemma check_state_actions_witness :
  (exists stops starts,
     (Monitor.check_state (Monitor.settings Scenarios.one_channel) None None
        (Scenarios.live_poll "BBBBBBBBBBB" 30) Scenarios.recording_state).2
     = stops ++ starts
     /\ stops = [Monitor.Stop (Some "AAAAAAAAAAA")]
     /\ starts = [Monitor.Start (Some "BBBBBBBBBBB")])
  /\ (Monitor.check_state (Monitor.settings Scenarios.one_channel) None None
        (Scenarios.live_poll "AAAAAAAAAAA" 30) Scenarios.recording_state).2
     = []
  /\ Monitor.coherent Scenarios.recording_state
  /\ is_Some (Monitor.recorder Scenarios.recording_state)
  /\ Monitor.recorder
       (Monitor.check_state (Monitor.settings Scenarios.one_channel) None None
          (Scenarios.live_poll "AAAAAAAAAAA" 30) Scenarios.recording_state).1.2
     = Monitor.recorder Scenarios.recording_state.
Proof.
  assert (Hcoherent : Monitor.coherent Scenarios.recording_state).
  { unfold Monitor.coherent. split; [intros _; vm_compute; reflexivity|].
    split; discriminate. }
  split; [|split; [vm_compute; reflexivity|split; [exact Hcoherent|split]]].
  - destruct (check_state_actions (Monitor.settings Scenarios.one_channel) None None
                (Scenarios.live_poll "BBBBBBBBBBB" 30) Scenarios.recording_state)
      as (stops & starts & Hacts & Hstops & Hstarts & _).
    exists stops, starts. split; [exact Hacts|].
    assert (Hrun :
              (Monitor.check_state (Monitor.settings Scenarios.one_channel) None None
                 (Scenarios.live_poll "BBBBBBBBBBB" 30) Scenarios.recording_state).2
              = [Monitor.Stop (Some "AAAAAAAAAAA");
                 Monitor.Start (Some "BBBBBBBBBBB")])
      by (vm_compute; reflexivity).
    rewrite Hrun in Hacts.
    destruct Hstops as [->|(-> & _)]; destruct Hstarts as [->|(live & _ & _ & ->)];
      simpl in Hacts; try discriminate.
    inversion Hacts. split; reflexivity.
  - vm_compute. eexists. reflexivity.
  - destruct (check_state_actions (Monitor.settings Scenarios.one_channel) None None
                (Scenarios.live_poll "AAAAAAAAAAA" 30) Scenarios.recording_state)
      as (stops & starts & Hacts & _ & _ & Hkeep).
    assert (Hnil : stops = [] /\ starts = []).
    { revert Hacts. vm_compute. destruct stops; [|discriminate]. now intros <-. }
    destruct Hnil as (-> & ->).
    apply Hkeep; [exact Hcoherent | reflexivity | reflexivity].
Defined.

Lemma failed_start_retried_witness :
  exists st1 st2,
    Monitor.check_state (Monitor.settings Scenarios.one_channel) None None
      (Scenarios.unresolved_poll "AAAAAAAAAAA")
      (Monitor.initial_state (Monitor.mk_ChannelConfig "Channel" "UC0123456789"))
    = (inr tt, st1, [])
    /\ Monitor.is_recording st1 = false
    /\ Monitor.check_state (Monitor.settings Scenarios.one_channel) None None
         (Scenarios.live_poll "AAAAAAAAAAA" 30) st1
       = (inr tt, st2, [Monitor.Start (Some "AAAAAAAAAAA")])
    /\ Monitor.recording_stream st2 "AAAAAAAAAAA".
Proof.
  destruct (failed_start_retried (Monitor.settings Scenarios.one_channel) None None
              (Scenarios.unresolved_poll "AAAAAAAAAAA")
              (Scenarios.live_poll "AAAAAAAAAAA" 30)
              (Monitor.initial_state (Monitor.mk_ChannelConfig "Channel" "UC0123456789"))
              (YouTubeApi.mk_LiveStatus true (Some "AAAAAAAAAAA") (Some "Stream")
                 (Some "Channel"))
              (YouTubeApi.mk_LiveStatus true (Some "AAAAAAAAAAA") (Some "Stream")
                 (Some "Channel"))
              (Py.mk_exn Py.StreamUnavailableError "No stream URL returned" None))
    as (st1 & acts1 & Hfirst & _ & Hrec & _ & Hretry & _);
    try reflexivity; [now left|].
  destruct (Hretry "AAAAAAAAAAA" eq_refl) as (st2 & Hsecond & Hstream).
  { split; [eexists; reflexivity|]. split; [reflexivity|].
    split; [eexists; reflexivity | reflexivity]. }
  exists st1, st2.
  assert (Hacts : acts1 = []).
  { revert Hfirst. vm_compute. now intros [= _ <-]. }
  subst acts1. repeat split; try assumption; apply Hstream.
Defined.

Lemma idle_source_settled_witness :
  exists st,
    Monitor._states Scenarios.stopped_monitor !! "UC0123456789" = Some st
    /\ Monitor.recorder st = None
    /\ Monitor.current_video_id st = None
    /\ Monitor.current_title st = None
    /\ Monitor.recording_start_time st = None.
Proof.
  eexists. split; [vm_compute; reflexivity|].
  eapply (idle_source_settled Scenarios.one_channel None None
            Scenarios.stopped_monitor "UC0123456789").
  - eapply Monitor.reachable_step; [|apply Monitor.step_stop].
    eapply Monitor.reachable_step; [apply Monitor.reachable_new|].
    eapply (Monitor.step_check (Scenarios.live_poll "AAAAAAAAAAA" 1) "UC0123456789").
    vm_compute. reflexivity.
  - vm_compute. reflexivity.
  - reflexivity.
Defined.

